(** * web-timer-ts: the lap timer of [src/App.tsx]

    A shallow embedding of the timer state machine, the lap ledger, the
    summary formatter and the bounded-reload persistence of the meeting
    timer, with the properties its specification states about them.

    Conventions of the embedding:
    - timestamps and durations are integer milliseconds ([Z]); a JavaScript
      number restricted to the integers, where double arithmetic is exact;
    - a value of TypeScript type [number | undefined] (or [number | null])
      is an [option]; where the source tests [Number.isNaN], the number
      type carries an explicit [NaN];
    - a JavaScript string that the source inspects character by character
      is a list of UTF-16 code units; text that is only assembled and
      printed is a [string] of UTF-8 bytes;
    - React state, refs and memoised values are fields of one record; every
      handler is a function from state to state, and a render is a function
      of the state and of the clock reading it takes. *)

From Stdlib Require Import ZArith QArith Qround List String Ascii Bool Lia.
From Stdlib Require Import DecimalString DecimalPos Sorting.Sorted.
Import ListNotations.

Local Open Scope Z_scope.

(** ** Numbers *)

(** A target in minutes as the source types it, [number]: an integer or
    [NaN]. *)
Inductive number : Type :=
| Num (z : Z)
| NaN.

(** The [valueAsNumber] of a numeric input element: a finite double, which
    is a rational, or [NaN]. (The element never reports an infinity.) *)
Inductive float : Type :=
| Finite (q : Q)
| FNaN.

(** ** Utility functions *)

Module Status.
(** The three strings [getPresetStatus] returns. *)
Definition unset : string := "-".
Definition exceeded : string := "超過".
Definition not_exceeded : string := "未超過".
End Status.

(** [getPresetStatus(durationMs, targetMinutes?)], lines 37-41. *)
Definition getPresetStatus (durationMs : Z) (targetMinutes : option number) : string :=
  match targetMinutes with
  | None | Some NaN => Status.unset
  | Some (Num t) =>
      let targetMs := t * 60000 in
      if targetMs <? durationMs then Status.exceeded else Status.not_exceeded
  end.

(** *** Input parsing *)

(** JavaScript strings are sequences of UTF-16 code units. *)
Definition code_unit := N.
Definition jsstring := list code_unit.

(** The code units [String.prototype.trim] strips: WhiteSpace and
    LineTerminator of ECMA-262. *)
Definition is_white_space (c : code_unit) : bool :=
  existsb (N.eqb c)
    [9; 10; 11; 12; 13; 32; 160; 5760; 8192; 8193; 8194; 8195; 8196; 8197;
     8198; 8199; 8200; 8201; 8202; 8232; 8233; 8239; 8287; 12288; 65279]%N.

Fixpoint trimStart (s : jsstring) : jsstring :=
  match s with
  | c :: s' => if is_white_space c then trimStart s' else s
  | [] => []
  end.

Definition trimEnd (s : jsstring) : jsstring := rev (trimStart (rev s)).

Definition trim (s : jsstring) : jsstring := trimEnd (trimStart s).

Definition is_empty (s : jsstring) : bool :=
  match s with [] => true | _ :: _ => false end.

(** [computePresetFromInput(raw, valueAsNumber?)], lines 110-114. *)
Definition computePresetFromInput (raw : jsstring) (valueAsNumber : option float)
  : option number :=
  if is_empty (trim raw) then None
  else match valueAsNumber with
       | None | Some FNaN => None
       | Some (Finite n) => Some (Num (Z.max 0 (Qfloor n)))
       end.

(** ** The lap ledger *)

(** [type Lap], line 172. *)
Record Lap : Type := mkLap {
  startTs : Z;
  endTs : Z;
  durationMs : Z;
  targetMinutes : option number;
}.

(** ** Text formatting *)

Local Open Scope string_scope.

(** [Number.prototype.toString] on an integer: decimal digits, with a
    leading minus sign below zero. (From 10^21 on the platform prints an
    exponent; the counters, positions, minutes and clock fields printed
    here are far below.) *)
Definition toString (z : Z) : string := NilZero.string_of_int (Z.to_int z).

(** [s.padStart(2, "0")]. *)
Definition padStart2 (s : string) : string :=
  match String.length s with
  | O => "00"
  | S O => "0" ++ s
  | _ => s
  end.

(** The remainder operator [%] of JavaScript truncates towards zero. *)
Definition js_rem (a b : Z) : Z := Z.rem a b.

(** [msToHMS(ms)], lines 18-25. *)
Record HMS : Type := mkHMS { hh : string; mm : string; ss : string; cs : string }.

Definition msToHMS (ms : Z) : HMS :=
  let totalSeconds := (ms / 1000)%Z in
  {| hh := padStart2 (toString (totalSeconds / 3600)%Z);
     mm := padStart2 (toString (js_rem totalSeconds 3600 / 60)%Z);
     ss := padStart2 (toString (js_rem totalSeconds 60));
     cs := padStart2 (toString (js_rem ms 1000 / 10)%Z) |}.

(** [fmtHMS(ms)], lines 28-31. *)
Definition fmtHMS (ms : Z) : string :=
  let t := msToHMS ms in hh t ++ ":" ++ mm t ++ ":" ++ ss t.

(** [Math.round(x / 60000)] on an integer [x]: the nearest integer, a half
    rounding up. *)
Definition round_minutes (x : Z) : Z := ((x + 30000) / 60000)%Z.

(** [Array.prototype.map] with the index passed to the callback. *)
Fixpoint map_indexed {A B : Type} (f : A -> Z -> B) (idx : Z) (l : list A) : list B :=
  match l with
  | [] => []
  | x :: l' => f x idx :: map_indexed f (idx + 1)%Z l'
  end.

Definition newline : string := String "010"%char EmptyString.

(** [lines.join("\n")]. *)
Definition join_lines (lines : list string) : string := String.concat newline lines.

(** A value used as a condition: [null], [undefined] and [0] are falsy. *)
Definition truthy (x : option Z) : bool :=
  match x with
  | Some z => negb (z =? 0)%Z
  | None => false
  end.

(** [x || 0] on an optional number. *)
Definition or_zero (x : option Z) : Z :=
  match x with Some z => z | None => 0%Z end.

Section Summary.

(** [fmtRange(ts)] (line 34) delegates to the platform's
    [toLocaleTimeString], whose output depends on the locale and the time
    zone of the host: it is a parameter of the formatter. *)
Variable fmtRange : Z -> string.

Definition placeholder : string := "尚無區段紀錄".

Definition lap_line (lap : Lap) (idx : Z) : string :=
  let mins := round_minutes (durationMs lap) in
  toString (idx + 1) ++ ". " ++ fmtRange (startTs lap) ++ "~" ++ fmtRange (endTs lap)
    ++ "，共 " ++ toString mins ++ " 分鐘".

Definition total_line (rangeStart rangeEnd : Z) (rangeDuration : option Z) : string :=
  "總時長：" ++ fmtRange rangeStart ++ "~" ++ fmtRange rangeEnd
    ++ "（共 " ++ fmtHMS (or_zero rangeDuration) ++ "）".

Definition summary_lines (lapRows : list Lap) (rangeStart rangeEnd rangeDuration : option Z)
  : list string :=
  let lines := map_indexed lap_line 0 lapRows in
  if truthy rangeStart && truthy rangeEnd
  then lines ++ [""; total_line (or_zero rangeStart) (or_zero rangeEnd) rangeDuration]
  else lines.

(** [buildTextSummary(lapRows, rangeStart?, rangeEnd?, rangeDuration?)],
    lines 54-72. *)
Definition buildTextSummary (lapRows : list Lap) (rangeStart rangeEnd rangeDuration : option Z)
  : string :=
  match lapRows with
  | [] => placeholder
  | _ :: _ => join_lines (summary_lines lapRows rangeStart rangeEnd rangeDuration)
  end.

(** The export contract in the words of the specification: line [n] of a
    ledger describes its [n]-th completed lap, counted from one. *)
Fixpoint spec_lap_lines (n : Z) (laps : list Lap) : list string :=
  match laps with
  | [] => []
  | lap :: rest =>
      (toString n ++ ". " ++ fmtRange (startTs lap) ++ "~" ++ fmtRange (endTs lap)
         ++ "，共 " ++ toString (round_minutes (durationMs lap)) ++ " 分鐘")
      :: spec_lap_lines (n + 1) rest
  end.

Definition spec_total_lines (range : option (Z * Z)) (duration : Z) : list string :=
  match range with
  | Some (s, e) =>
      [""; "總時長：" ++ fmtRange s ++ "~" ++ fmtRange e ++ "（共 " ++ fmtHMS duration ++ "）"]
  | None => []
  end.

End Summary.

(** The ASCII bracket characters. *)
Definition is_bracket (c : ascii) : bool :=
  existsb (Ascii.eqb c) ["["; "]"; "("; ")"; "{"; "}"]%char.

Fixpoint bracket_free (s : string) : bool :=
  match s with
  | EmptyString => true
  | String c s' => negb (is_bracket c) && bracket_free s'
  end.

Local Close Scope string_scope.

(** ** The component state *)

(** The state of [App]: the values held by [useState], the cells held by
    [useRef], and the memoised values of the last render that the handlers
    read through their closures. *)
Record App : Type := mkApp {
  isRunning : bool; (* [useState(false)], line 167 *)
  baseElapsed : Z; (* [useState(0)], line 168: running time frozen at the last pause *)
  startedAtRef : option Z; (* line 170: clock reading at which the current run began *)
  laps : list Lap; (* line 173: the completed laps, oldest first *)
  sessionStartTsRef : option Z; (* line 175 *)
  lapAnchorTsRef : option Z; (* line 176 *)
  activeStartTsRef : option Z; (* line 177 *)
  lastPauseTsRef : option Z; (* line 178 *)
  activeTargetMinutesRef : option number; (* line 179: the target locked for the open segment *)
  currentTargetMinutes : option number; (* line 181: the pending target, locked at the next cut *)
  prevElapsedRef : Z; (* line 184 *)
  prevRangeDurRef : Z; (* line 185 *)
  reloadsLeft : Z; (* line 191 *)
  elapsed : Z; (* the memoised [elapsed] of the last render, lines 309-313 *)
  rangeEnd : option Z; (* the memoised [rangeEnd] of the last render, lines 390-396 *)
  displayRangeDuration : Z; (* the memoised [displayRangeDuration], lines 402-406 *)
}.

(** Assignments to one field. *)
Definition set_isRunning (v : bool) (a : App) : App :=
  {| isRunning := v; baseElapsed := baseElapsed a; startedAtRef := startedAtRef a;
     laps := laps a; sessionStartTsRef := sessionStartTsRef a;
     lapAnchorTsRef := lapAnchorTsRef a; activeStartTsRef := activeStartTsRef a;
     lastPauseTsRef := lastPauseTsRef a;
     activeTargetMinutesRef := activeTargetMinutesRef a;
     currentTargetMinutes := currentTargetMinutes a;
     prevElapsedRef := prevElapsedRef a; prevRangeDurRef := prevRangeDurRef a;
     reloadsLeft := reloadsLeft a; elapsed := elapsed a; rangeEnd := rangeEnd a;
     displayRangeDuration := displayRangeDuration a |}.

Definition set_baseElapsed (v : Z) (a : App) : App :=
  {| isRunning := isRunning a; baseElapsed := v; startedAtRef := startedAtRef a;
     laps := laps a; sessionStartTsRef := sessionStartTsRef a;
     lapAnchorTsRef := lapAnchorTsRef a; activeStartTsRef := activeStartTsRef a;
     lastPauseTsRef := lastPauseTsRef a;
     activeTargetMinutesRef := activeTargetMinutesRef a;
     currentTargetMinutes := currentTargetMinutes a;
     prevElapsedRef := prevElapsedRef a; prevRangeDurRef := prevRangeDurRef a;
     reloadsLeft := reloadsLeft a; elapsed := elapsed a; rangeEnd := rangeEnd a;
     displayRangeDuration := displayRangeDuration a |}.

Definition set_startedAtRef (v : option Z) (a : App) : App :=
  {| isRunning := isRunning a; baseElapsed := baseElapsed a; startedAtRef := v;
     laps := laps a; sessionStartTsRef := sessionStartTsRef a;
     lapAnchorTsRef := lapAnchorTsRef a; activeStartTsRef := activeStartTsRef a;
     lastPauseTsRef := lastPauseTsRef a;
     activeTargetMinutesRef := activeTargetMinutesRef a;
     currentTargetMinutes := currentTargetMinutes a;
     prevElapsedRef := prevElapsedRef a; prevRangeDurRef := prevRangeDurRef a;
     reloadsLeft := reloadsLeft a; elapsed := elapsed a; rangeEnd := rangeEnd a;
     displayRangeDuration := displayRangeDuration a |}.

Definition set_laps (v : list Lap) (a : App) : App :=
  {| isRunning := isRunning a; baseElapsed := baseElapsed a;
     startedAtRef := startedAtRef a; laps := v;
     sessionStartTsRef := sessionStartTsRef a; lapAnchorTsRef := lapAnchorTsRef a;
     activeStartTsRef := activeStartTsRef a; lastPauseTsRef := lastPauseTsRef a;
     activeTargetMinutesRef := activeTargetMinutesRef a;
     currentTargetMinutes := currentTargetMinutes a;
     prevElapsedRef := prevElapsedRef a; prevRangeDurRef := prevRangeDurRef a;
     reloadsLeft := reloadsLeft a; elapsed := elapsed a; rangeEnd := rangeEnd a;
     displayRangeDuration := displayRangeDuration a |}.

Definition set_sessionStartTsRef (v : option Z) (a : App) : App :=
  {| isRunning := isRunning a; baseElapsed := baseElapsed a;
     startedAtRef := startedAtRef a; laps := laps a; sessionStartTsRef := v;
     lapAnchorTsRef := lapAnchorTsRef a; activeStartTsRef := activeStartTsRef a;
     lastPauseTsRef := lastPauseTsRef a;
     activeTargetMinutesRef := activeTargetMinutesRef a;
     currentTargetMinutes := currentTargetMinutes a;
     prevElapsedRef := prevElapsedRef a; prevRangeDurRef := prevRangeDurRef a;
     reloadsLeft := reloadsLeft a; elapsed := elapsed a; rangeEnd := rangeEnd a;
     displayRangeDuration := displayRangeDuration a |}.

Definition set_lapAnchorTsRef (v : option Z) (a : App) : App :=
  {| isRunning := isRunning a; baseElapsed := baseElapsed a;
     startedAtRef := startedAtRef a; laps := laps a;
     sessionStartTsRef := sessionStartTsRef a; lapAnchorTsRef := v;
     activeStartTsRef := activeStartTsRef a; lastPauseTsRef := lastPauseTsRef a;
     activeTargetMinutesRef := activeTargetMinutesRef a;
     currentTargetMinutes := currentTargetMinutes a;
     prevElapsedRef := prevElapsedRef a; prevRangeDurRef := prevRangeDurRef a;
     reloadsLeft := reloadsLeft a; elapsed := elapsed a; rangeEnd := rangeEnd a;
     displayRangeDuration := displayRangeDuration a |}.

Definition set_activeStartTsRef (v : option Z) (a : App) : App :=
  {| isRunning := isRunning a; baseElapsed := baseElapsed a;
     startedAtRef := startedAtRef a; laps := laps a;
     sessionStartTsRef := sessionStartTsRef a; lapAnchorTsRef := lapAnchorTsRef a;
     activeStartTsRef := v; lastPauseTsRef := lastPauseTsRef a;
     activeTargetMinutesRef := activeTargetMinutesRef a;
     currentTargetMinutes := currentTargetMinutes a;
     prevElapsedRef := prevElapsedRef a; prevRangeDurRef := prevRangeDurRef a;
     reloadsLeft := reloadsLeft a; elapsed := elapsed a; rangeEnd := rangeEnd a;
     displayRangeDuration := displayRangeDuration a |}.

Definition set_lastPauseTsRef (v : option Z) (a : App) : App :=
  {| isRunning := isRunning a; baseElapsed := baseElapsed a;
     startedAtRef := startedAtRef a; laps := laps a;
     sessionStartTsRef := sessionStartTsRef a; lapAnchorTsRef := lapAnchorTsRef a;
     activeStartTsRef := activeStartTsRef a; lastPauseTsRef := v;
     activeTargetMinutesRef := activeTargetMinutesRef a;
     currentTargetMinutes := currentTargetMinutes a;
     prevElapsedRef := prevElapsedRef a; prevRangeDurRef := prevRangeDurRef a;
     reloadsLeft := reloadsLeft a; elapsed := elapsed a; rangeEnd := rangeEnd a;
     displayRangeDuration := displayRangeDuration a |}.

Definition set_activeTargetMinutesRef (v : option number) (a : App) : App :=
  {| isRunning := isRunning a; baseElapsed := baseElapsed a;
     startedAtRef := startedAtRef a; laps := laps a;
     sessionStartTsRef := sessionStartTsRef a; lapAnchorTsRef := lapAnchorTsRef a;
     activeStartTsRef := activeStartTsRef a; lastPauseTsRef := lastPauseTsRef a;
     activeTargetMinutesRef := v; currentTargetMinutes := currentTargetMinutes a;
     prevElapsedRef := prevElapsedRef a; prevRangeDurRef := prevRangeDurRef a;
     reloadsLeft := reloadsLeft a; elapsed := elapsed a; rangeEnd := rangeEnd a;
     displayRangeDuration := displayRangeDuration a |}.

Definition set_currentTargetMinutes (v : option number) (a : App) : App :=
  {| isRunning := isRunning a; baseElapsed := baseElapsed a;
     startedAtRef := startedAtRef a; laps := laps a;
     sessionStartTsRef := sessionStartTsRef a; lapAnchorTsRef := lapAnchorTsRef a;
     activeStartTsRef := activeStartTsRef a; lastPauseTsRef := lastPauseTsRef a;
     activeTargetMinutesRef := activeTargetMinutesRef a; currentTargetMinutes := v;
     prevElapsedRef := prevElapsedRef a; prevRangeDurRef := prevRangeDurRef a;
     reloadsLeft := reloadsLeft a; elapsed := elapsed a; rangeEnd := rangeEnd a;
     displayRangeDuration := displayRangeDuration a |}.

Definition set_prevElapsedRef (v : Z) (a : App) : App :=
  {| isRunning := isRunning a; baseElapsed := baseElapsed a;
     startedAtRef := startedAtRef a; laps := laps a;
     sessionStartTsRef := sessionStartTsRef a; lapAnchorTsRef := lapAnchorTsRef a;
     activeStartTsRef := activeStartTsRef a; lastPauseTsRef := lastPauseTsRef a;
     activeTargetMinutesRef := activeTargetMinutesRef a;
     currentTargetMinutes := currentTargetMinutes a; prevElapsedRef := v;
     prevRangeDurRef := prevRangeDurRef a; reloadsLeft := reloadsLeft a;
     elapsed := elapsed a; rangeEnd := rangeEnd a;
     displayRangeDuration := displayRangeDuration a |}.

Definition set_prevRangeDurRef (v : Z) (a : App) : App :=
  {| isRunning := isRunning a; baseElapsed := baseElapsed a;
     startedAtRef := startedAtRef a; laps := laps a;
     sessionStartTsRef := sessionStartTsRef a; lapAnchorTsRef := lapAnchorTsRef a;
     activeStartTsRef := activeStartTsRef a; lastPauseTsRef := lastPauseTsRef a;
     activeTargetMinutesRef := activeTargetMinutesRef a;
     currentTargetMinutes := currentTargetMinutes a;
     prevElapsedRef := prevElapsedRef a; prevRangeDurRef := v;
     reloadsLeft := reloadsLeft a; elapsed := elapsed a; rangeEnd := rangeEnd a;
     displayRangeDuration := displayRangeDuration a |}.

Definition set_reloadsLeft (v : Z) (a : App) : App :=
  {| isRunning := isRunning a; baseElapsed := baseElapsed a;
     startedAtRef := startedAtRef a; laps := laps a;
     sessionStartTsRef := sessionStartTsRef a; lapAnchorTsRef := lapAnchorTsRef a;
     activeStartTsRef := activeStartTsRef a; lastPauseTsRef := lastPauseTsRef a;
     activeTargetMinutesRef := activeTargetMinutesRef a;
     currentTargetMinutes := currentTargetMinutes a;
     prevElapsedRef := prevElapsedRef a; prevRangeDurRef := prevRangeDurRef a;
     reloadsLeft := v; elapsed := elapsed a; rangeEnd := rangeEnd a;
     displayRangeDuration := displayRangeDuration a |}.

Definition set_elapsed (v : Z) (a : App) : App :=
  {| isRunning := isRunning a; baseElapsed := baseElapsed a;
     startedAtRef := startedAtRef a; laps := laps a;
     sessionStartTsRef := sessionStartTsRef a; lapAnchorTsRef := lapAnchorTsRef a;
     activeStartTsRef := activeStartTsRef a; lastPauseTsRef := lastPauseTsRef a;
     activeTargetMinutesRef := activeTargetMinutesRef a;
     currentTargetMinutes := currentTargetMinutes a;
     prevElapsedRef := prevElapsedRef a; prevRangeDurRef := prevRangeDurRef a;
     reloadsLeft := reloadsLeft a; elapsed := v; rangeEnd := rangeEnd a;
     displayRangeDuration := displayRangeDuration a |}.

Definition set_rangeEnd (v : option Z) (a : App) : App :=
  {| isRunning := isRunning a; baseElapsed := baseElapsed a;
     startedAtRef := startedAtRef a; laps := laps a;
     sessionStartTsRef := sessionStartTsRef a; lapAnchorTsRef := lapAnchorTsRef a;
     activeStartTsRef := activeStartTsRef a; lastPauseTsRef := lastPauseTsRef a;
     activeTargetMinutesRef := activeTargetMinutesRef a;
     currentTargetMinutes := currentTargetMinutes a;
     prevElapsedRef := prevElapsedRef a; prevRangeDurRef := prevRangeDurRef a;
     reloadsLeft := reloadsLeft a; elapsed := elapsed a; rangeEnd := v;
     displayRangeDuration := displayRangeDuration a |}.

Definition set_displayRangeDuration (v : Z) (a : App) : App :=
  {| isRunning := isRunning a; baseElapsed := baseElapsed a;
     startedAtRef := startedAtRef a; laps := laps a;
     sessionStartTsRef := sessionStartTsRef a; lapAnchorTsRef := lapAnchorTsRef a;
     activeStartTsRef := activeStartTsRef a; lastPauseTsRef := lastPauseTsRef a;
     activeTargetMinutesRef := activeTargetMinutesRef a;
     currentTargetMinutes := currentTargetMinutes a;
     prevElapsedRef := prevElapsedRef a; prevRangeDurRef := prevRangeDurRef a;
     reloadsLeft := reloadsLeft a; elapsed := elapsed a; rangeEnd := rangeEnd a;
     displayRangeDuration := v |}.

Notation "a |> f" := (f a) (at level 50, left associativity, only parsing).

(** [x ?? y]. *)
Definition orelse {A : Type} (x : option A) (y : option A) : option A :=
  match x with Some _ => x | None => y end.

Definition MAX_RELOADS : Z := 2.

(** The state of a freshly mounted component, after its first render. *)
Definition initial_app : App :=
  {| isRunning := false; baseElapsed := 0; startedAtRef := None; laps := [];
     sessionStartTsRef := None; lapAnchorTsRef := None; activeStartTsRef := None;
     lastPauseTsRef := None; activeTargetMinutesRef := None;
     currentTargetMinutes := None; prevElapsedRef := 0; prevRangeDurRef := 0;
     reloadsLeft := MAX_RELOADS; elapsed := 0; rangeEnd := None;
     displayRangeDuration := 0 |}.

(** ** Local storage and JSON *)

(** A parsed JSON document. Objects keep their keys in order. *)
#[local] Unset Elimination Schemes.
Inductive json : Type :=
| JNull
| JBool (b : bool)
| JNum (z : Z)
| JStr (s : string)
| JArr (items : list json)
| JObj (fields : list (string * json)).
#[local] Set Elimination Schemes.

(** The text stored under a snapshot key, by what [if (raw)] and
    [JSON.parse(raw)] make of it: the empty string, a text that
    [JSON.parse] rejects with a [SyntaxError], or the text of a document. *)
Inductive text : Type :=
| Empty
| Garbled
| Doc (j : json).

(** The four keys of [localStorage] the component touches. *)
Record Storage : Type := mkStorage {
  reloads_left_v6 : option string; (* "web_timer_reloads_left_v6" *)
  state_v6 : option text;          (* "web_timer_state_v6" *)
  state_v5 : option text;          (* "web_timer_state_v5" *)
  state_v4 : option text;          (* "web_timer_state_v4" *)
}.

Definition set_reloads_left_v6 (v : option string) (s : Storage) : Storage :=
  {| reloads_left_v6 := v; state_v6 := state_v6 s; state_v5 := state_v5 s;
     state_v4 := state_v4 s |}.

Definition set_state_v6 (v : option text) (s : Storage) : Storage :=
  {| reloads_left_v6 := reloads_left_v6 s; state_v6 := v; state_v5 := state_v5 s;
     state_v4 := state_v4 s |}.

(** Property access [j.key]: [undefined] on anything but an object that
    has the key; of a repeated key, [JSON.parse] keeps the last. *)
Fixpoint lookup_last (key : string) (fields : list (string * json)) (found : option json)
  : option json :=
  match fields with
  | [] => found
  | (k, v) :: rest =>
      lookup_last key rest (if String.eqb k key then Some v else found)
  end.

Definition get (key : string) (j : json) : option json :=
  match j with
  | JObj fields => lookup_last key fields None
  | _ => None
  end.

(** [if (j)] on a parsed document. *)
Definition json_truthy (j : json) : bool :=
  match j with
  | JNull | JBool false | JNum 0 | JStr EmptyString => false
  | _ => true
  end.

(** [typeof v === "number" ? v : undefined]. *)
Definition as_number (v : option json) : option Z :=
  match v with
  | Some (JNum z) => Some z
  | _ => None
  end.

(** A stored target: [v != null && !Number.isNaN(v)] holds of every number
    a document can carry. A value of another type has no counterpart in
    [number]; the typed state ignores it. *)
Definition as_target (v : option json) : option number :=
  match v with
  | Some (JNum z) => Some (Num z)
  | _ => None
  end.

(** *** [JSON.stringify] of the state *)

(** A reference that holds [null] is written as [null]. *)
Definition json_of_ref (x : option Z) : json :=
  match x with Some z => JNum z | None => JNull end.

(** A property that holds [undefined] is left out; [NaN] is written as
    [null]. *)
Definition target_field (key : string) (x : option number) : list (string * json) :=
  match x with
  | None => []
  | Some (Num z) => [(key, JNum z)]
  | Some NaN => [(key, JNull)]
  end.

Definition json_of_lap (l : Lap) : json :=
  JObj ([("startTs", JNum (startTs l)); ("endTs", JNum (endTs l));
         ("durationMs", JNum (durationMs l))]%string
        ++ target_field "targetMinutes" (targetMinutes l)).

(** The payload of the persist effect, lines 275-283. *)
Definition payload (a : App) : json :=
  JObj ([("laps", JArr (map json_of_lap (laps a)));
         ("baseElapsed", JNum (baseElapsed a));
         ("sessionStartTs", json_of_ref (sessionStartTsRef a));
         ("lapAnchorTs", json_of_ref (lapAnchorTsRef a));
         ("activeStartTs", json_of_ref (activeStartTsRef a))]%string
        ++ target_field "activeTargetMinutes" (activeTargetMinutesRef a)
        ++ [("lastPauseTs", json_of_ref (lastPauseTsRef a))]%string
        ++ target_field "currentTargetMinutes" (currentTargetMinutes a)).

(** The persist effect, lines 272-291. *)
Definition persist (a : App) (s : Storage) : Storage :=
  if 0 <? reloadsLeft a
  then set_state_v6 (Some (Doc (payload a))) s
  else set_state_v6 None s.

(** *** Reading a stored ledger *)

(** The source stores a parsed [laps] array as it is. The ledger of this
    model is typed, [list Lap], as the source declares it: an element is
    read as a [Lap] when its three numeric fields are numbers. *)
Definition lap_of_json (j : json) : option Lap :=
  match as_number (get "startTs" j), as_number (get "endTs" j),
        as_number (get "durationMs" j) with
  | Some s, Some e, Some d =>
      Some {| startTs := s; endTs := e; durationMs := d;
              targetMinutes := as_target (get "targetMinutes" j) |}
  | _, _, _ => None
  end.

Fixpoint laps_of_json (items : list json) : option (list Lap) :=
  match items with
  | [] => Some []
  | j :: rest =>
      match lap_of_json j, laps_of_json rest with
      | Some l, Some ls => Some (l :: ls)
      | _, _ => None
      end
  end.

(** [if (Array.isArray(p.laps)) setLaps(p.laps)]. An array with an element
    that is no [Lap] lies outside the typed ledger and leaves it as it is. *)
Definition restore_laps (p : json) (a : App) : App :=
  match get "laps" p with
  | Some (JArr items) =>
      match laps_of_json items with
      | Some ls => set_laps ls a
      | None => a
      end
  | _ => a
  end.

(** [if (typeof p.key === "number") assign(p.key)]. *)
Definition restore_number (key : string) (assign : Z -> App -> App) (p : json) (a : App)
  : App :=
  match as_number (get key p) with
  | Some z => assign z a
  | None => a
  end.

(** [if (p.key != null && !Number.isNaN(p.key)) assign(p.key)]. *)
Definition restore_target (key : string) (assign : option number -> App -> App)
  (p : json) (a : App) : App :=
  match as_target (get key p) with
  | Some t => assign (Some t) a
  | None => a
  end.

(** *** The reload counter *)

Definition digit_value (c : ascii) : option Z :=
  let n := Z.of_nat (nat_of_ascii c) in
  if (48 <=? n) && (n <=? 57) then Some (n - 48) else None.

(** The longest prefix of decimal digits, [None] when it is empty. *)
Fixpoint parse_digits (s : string) (acc : option Z) : option Z :=
  match s with
  | String c rest =>
      match digit_value c with
      | Some d => parse_digits rest (Some (10 * or_zero acc + d))
      | None => acc
      end
  | EmptyString => acc
  end.

Definition is_space (c : ascii) : bool :=
  let n := Z.of_nat (nat_of_ascii c) in
  ((9 <=? n) && (n <=? 13)) || (n =? 32).

Fixpoint skip_spaces (s : string) : string :=
  match s with
  | String c rest => if is_space c then skip_spaces rest else s
  | EmptyString => EmptyString
  end.

(** [parseInt(s, 10)]; [None] stands for [NaN]. Leading white space is
    skipped; of the white space of the platform [is_space] has the ASCII
    part, which is all a stored counter can start with. *)
Definition parseInt (s : string) : option Z :=
  match skip_spaces s with
  | String "-"%char rest => option_map Z.opp (parse_digits rest None)
  | String "+"%char rest => parse_digits rest None
  | s' => parse_digits s' None
  end.

(** Lines 196-197: the stored counter, [MAX_RELOADS] when it is absent or
    does not parse. *)
Definition stored_left (s : Storage) : Z :=
  match reloads_left_v6 s with
  | Some raw =>
      match parseInt raw with
      | Some n => n
      | None => MAX_RELOADS
      end
  | None => MAX_RELOADS
  end.

(** *** The restore effect *)

(** The current format, lines 205-216. *)
Definition restore_v6 (parsed : json) (a : App) : App :=
  a |> restore_laps parsed
    |> restore_number "baseElapsed" set_baseElapsed parsed
    |> restore_number "sessionStartTs" (fun z => set_sessionStartTsRef (Some z)) parsed
    |> restore_number "lapAnchorTs" (fun z => set_lapAnchorTsRef (Some z)) parsed
    |> restore_number "activeStartTs" (fun z => set_activeStartTsRef (Some z)) parsed
    |> restore_number "lastPauseTs" (fun z => set_lastPauseTsRef (Some z)) parsed
    |> restore_target "activeTargetMinutes" set_activeTargetMinutesRef parsed
    |> restore_target "currentTargetMinutes" set_currentTargetMinutes parsed.

(** The v5 format, lines 226-232. *)
Definition restore_v5 (v5 : json) (a : App) : App :=
  let sessionStart := as_number (get "sessionStartTs" v5) in
  let lapAnchor := orelse (as_number (get "lapAnchorTs" v5)) sessionStart in
  a |> restore_laps v5
    |> restore_number "baseElapsed" set_baseElapsed v5
    |> set_sessionStartTsRef sessionStart
    |> set_lapAnchorTsRef lapAnchor
    |> set_activeStartTsRef (orelse lapAnchor sessionStart)
    |> set_lastPauseTsRef (as_number (get "lastPauseTs" v5))
    |> restore_target "currentTargetMinutes" set_currentTargetMinutes v5.

(** The predicate of the [filter] of line 243:
    [typeof s.start === "number" && typeof s.end === "number"]. *)
Definition numeric_ends (s : json) : bool :=
  match as_number (get "start" s), as_number (get "end" s) with
  | Some _, Some _ => true
  | _, _ => false
  end.

(** The callback of the [map] of line 244, on a segment the filter kept. *)
Definition lap_of_segment (s : json) : Lap :=
  let st := or_zero (as_number (get "start" s)) in
  let en := or_zero (as_number (get "end" s)) in
  {| startTs := st; endTs := en; durationMs := Z.max 0 (en - st);
     targetMinutes := as_target (get "targetMinutes" s) |}.

Definition is_null (j : json) : bool :=
  match j with JNull => true | _ => false end.

(** Lines 242-244. Reading [s.start] of a segment that is [null] throws a
    [TypeError] ([None]); a segment of any other kind has the property or
    reads [undefined]. *)
Definition migrate_segments (segments : list json) : option (list Lap) :=
  if existsb is_null segments then None
  else Some (map lap_of_segment (filter numeric_ends segments)).

(** [Math.min(...xs)] and [Math.max(...xs)] of a list the source has
    checked to be non-empty; [null] on the empty list. *)
Definition min_of (xs : list Z) : option Z :=
  match xs with
  | [] => None
  | x :: rest => Some (fold_left Z.min rest x)
  end.

Definition max_of (xs : list Z) : option Z :=
  match xs with
  | [] => None
  | x :: rest => Some (fold_left Z.max rest x)
  end.

(** The v4 format, lines 240-253. A [TypeError] is caught by the inner
    [try] before any assignment was made. *)
Definition migrate_v4 (legacy : json) (a : App) : App :=
  if json_truthy legacy then
    match get "segments" legacy with
    | Some (JArr segments) =>
        match migrate_segments segments with
        | Some migrated =>
            let sessionStart := min_of (map startTs migrated) in
            let lastEnd := max_of (map endTs migrated) in
            let lapAnchor := orelse lastEnd sessionStart in
            a |> set_laps migrated
              |> set_baseElapsed (or_zero (as_number (get "baseElapsed" legacy)))
              |> set_sessionStartTsRef sessionStart
              |> set_lapAnchorTsRef lapAnchor
              |> set_activeStartTsRef (orelse lapAnchor sessionStart)
              |> set_lastPauseTsRef lastEnd
        | None => a
        end
    | _ => a
    end
  else a.

(** Lines 201-257. [None]: the [SyntaxError] of [JSON.parse] on the
    current-format text, which no inner [try] catches. *)
Definition restore_snapshot (s : Storage) (a : App) : option App :=
  match state_v6 s with
  | Some Garbled => None
  | Some (Doc parsed) => Some (if json_truthy parsed then restore_v6 parsed a else a)
  | Some Empty | None =>
      Some match state_v5 s with
           | Some Garbled => a
           | Some (Doc v5) => if json_truthy v5 then restore_v5 v5 a else a
           | Some Empty | None =>
               match state_v4 s with
               | Some (Doc legacy) => migrate_v4 legacy a
               | _ => a
               end
           end
  end.

(** The component together with the storage of its origin. *)
Record World : Type := mkWorld { app : App; store : Storage }.

(** The restore effect, lines 194-269. *)
Definition restore (w : World) : World :=
  let left := stored_left (store w) in
  let a := set_reloadsLeft left (app w) in
  if 0 <? left then
    match restore_snapshot (store w) a with
    | Some a' =>
        let left' := Z.max 0 (left - 1) in
        {| app := set_reloadsLeft left' a';
           store := set_reloads_left_v6 (Some (toString left')) (store w) |}
    | None => {| app := a; store := store w |}
    end
  else {| app := a; store := set_state_v6 None (store w) |}.

(** ** Derived values *)

(** [lapsAccumulatedMs], line 322. On an integer, [l.durationMs || 0] is
    [l.durationMs]. *)
Definition lapsAccumulatedMs (ls : list Lap) : Z :=
  fold_left (fun acc l => acc + durationMs l) ls 0.

(** [rawElapsed], lines 301-307, at the clock reading [now]. *)
Definition rawElapsed (now : Z) (a : App) : Z :=
  match isRunning a, startedAtRef a with
  | true, Some startedAt => baseElapsed a + (now - startedAt)
  | _, _ => baseElapsed a
  end.

(** The row of the open segment, lines 381-386. *)
Definition activeRow (now : Z) (a : App) : option Lap :=
  match activeStartTsRef a with
  | None => None
  | Some start =>
      let en := if isRunning a then now
                else match lastPauseTsRef a with Some p => p | None => now end in
      Some {| startTs := start; endTs := en;
              durationMs := Z.max 0 (elapsed a - lapsAccumulatedMs (laps a));
              targetMinutes := activeTargetMinutesRef a |}
  end.

(** [rangeEnd], lines 390-396. *)
Definition compute_rangeEnd (now : Z) (a : App) : option Z :=
  match sessionStartTsRef a with
  | None => None
  | Some rangeStart =>
      let en := max_of (map endTs (laps a)) in
      let live := if isRunning a then Some now else lastPauseTsRef a in
      let en := match live with
                | Some lv => match en with Some e => Some (Z.max e lv) | None => Some lv end
                | None => en
                end in
      match en with
      | Some e => Some e
      | None => Some rangeStart
      end
  end.

(** [rangeDuration], lines 398-400. *)
Definition compute_rangeDuration (a : App) (rangeEnd : option Z) : Z :=
  match sessionStartTsRef a, rangeEnd with
  | Some s, Some e => Z.max 0 (e - s)
  | _, _ => 0
  end.

(** One render at the clock reading [now]: the memoised values are
    recomputed and the two display guards move up. (A memo whose
    dependencies did not change keeps its value, which is the value this
    function computes at the clock reading of the previous render, as long
    as its guard cell was not reset in between.) *)
Definition render (now : Z) (a : App) : App :=
  let val := Z.max (prevElapsedRef a) (rawElapsed now a) in
  let rEnd := compute_rangeEnd now a in
  let rDur := Z.max (prevRangeDurRef a) (compute_rangeDuration a rEnd) in
  a |> set_prevElapsedRef val |> set_elapsed val
    |> set_rangeEnd rEnd
    |> set_prevRangeDurRef rDur |> set_displayRangeDuration rDur.

(** [summaryText], lines 409-412: the export of the rendered state. *)
Definition summaryText (fmtRange : Z -> string) (a : App) : string :=
  buildTextSummary fmtRange (laps a) (sessionStartTsRef a) (rangeEnd a)
    (Some (displayRangeDuration a)).

(** ** The handlers *)

(** [handleStart], lines 325-340. *)
Definition handleStart (now : Z) (a : App) : App :=
  if isRunning a then a
  else
    let a1 := a |> set_startedAtRef (Some now) |> set_isRunning true in
    match sessionStartTsRef a with
    | None =>
        a1 |> set_sessionStartTsRef (Some now) |> set_lapAnchorTsRef (Some now)
           |> set_activeStartTsRef (Some now)
           |> set_activeTargetMinutesRef (currentTargetMinutes a)
    | Some sessionStart =>
        match activeStartTsRef a with
        | None => a1 |> set_activeStartTsRef (orelse (lapAnchorTsRef a) (Some sessionStart))
        | Some _ => a1
        end
    end.

(** [handlePause], lines 342-351. The updater passed to [setBaseElapsed]
    reads [startedAtRef.current] when React runs it: at once ([eager]),
    where it finds the start of the run, or with the next render, after the
    handler has cleared the cell, where [?? now] applies. *)
Definition handlePause (now : Z) (eager : bool) (a : App) : App :=
  if negb (isRunning a) then a
  else
    let startedAt := match (if eager then startedAtRef a else None) with
                     | Some t => t
                     | None => now
                     end in
    let computed := baseElapsed a + (now - startedAt) in
    let displayedElapsed := elapsed a in
    let next := Z.max displayedElapsed computed in
    a |> set_isRunning false |> set_baseElapsed next
      |> set_startedAtRef None |> set_lastPauseTsRef (Some now).

(** [handleReset] with [resetReloadBudget], lines 353-360 and 294-298. *)
Definition handleReset (w : World) : World :=
  if isRunning (app w) then w
  else
    {| app := app w |> set_isRunning false |> set_baseElapsed 0 |> set_startedAtRef None
                   |> set_laps []
                   |> set_sessionStartTsRef None |> set_lapAnchorTsRef None
                   |> set_activeStartTsRef None |> set_lastPauseTsRef None
                   |> set_activeTargetMinutesRef None |> set_currentTargetMinutes None
                   |> set_reloadsLeft MAX_RELOADS
                   |> set_prevElapsedRef 0 |> set_prevRangeDurRef 0;
       store := store w |> set_state_v6 None
                        |> set_reloads_left_v6 (Some (toString MAX_RELOADS)) |}.

(** [handleLap], lines 362-374. *)
Definition handleLap (now : Z) (a : App) : App :=
  if negb (isRunning a) then a
  else
    match sessionStartTsRef a with
    | None => a
    | Some sessionStart =>
        let currentLapMs := Z.max 0 (elapsed a - lapsAccumulatedMs (laps a)) in
        let start := match orelse (activeStartTsRef a) (lapAnchorTsRef a) with
                     | Some t => t
                     | None => sessionStart
                     end in
        let newLap := {| startTs := start; endTs := now; durationMs := currentLapMs;
                         targetMinutes := activeTargetMinutesRef a |} in
        a |> set_laps (laps a ++ [newLap])
          |> set_lapAnchorTsRef (Some now) |> set_activeStartTsRef (Some now)
          |> set_activeTargetMinutesRef (currentTargetMinutes a)
    end.

(** [handlePresetChange], lines 424-427. *)
Definition handlePresetChange (raw : jsstring) (valueAsNumber : option float) (a : App)
  : App :=
  set_currentTargetMinutes (computePresetFromInput raw valueAsNumber) a.

(** ** The timer as a state machine *)

(** The events of the user interface, each with the clock reading its
    handler takes. *)
Inductive event : Type :=
| EvStart (now : Z)
| EvPause (now : Z) (eager : bool)
| EvLap (now : Z)
| EvReset
| EvPreset (raw : jsstring) (valueAsNumber : option float)
| EvTick.

Definition on_app (f : App -> App) (w : World) : World :=
  {| app := f (app w); store := store w |}.

Definition handle (e : event) (w : World) : World :=
  match e with
  | EvStart now => on_app (handleStart now) w
  | EvPause now eager => on_app (handlePause now eager) w
  | EvLap now => on_app (handleLap now) w
  | EvReset => handleReset w
  | EvPreset raw v => on_app (handlePresetChange raw v) w
  | EvTick => w
  end.

(** An event is handled, then the component renders at a clock reading of
    its own. [EvTick] is the 50 ms ticker: a render and nothing else. The
    handlers read the values of the latest render, as the buttons do. (The
    key listener of lines 430-438 is registered again only when [isRunning]
    or [lapsAccumulatedMs] change; a handler called from it may read an
    older displayed value: see [page_step].) The storage changes with a
    reset only; the snapshot the persist effect writes after a commit is
    [persist] of the state, taken where a statement is about it. *)
Definition dispatch (e : event) (renderedAt : Z) (w : World) : World :=
  on_app (render renderedAt) (handle e w).

Definition run (trace : list (event * Z)) (w : World) : World :=
  fold_left (fun w' er => dispatch (fst er) (snd er) w') trace w.

(** The values of [elapsed] displayed after each step of a trace. *)
Fixpoint reads (trace : list (event * Z)) (w : World) : list Z :=
  match trace with
  | [] => []
  | (e, t) :: rest =>
      let w' := dispatch e t w in
      elapsed (app w') :: reads rest w'
  end.

Definition is_reset (e : event) : bool :=
  match e with EvReset => true | _ => false end.

Definition initial (s : Storage) : World := {| app := initial_app; store := s |}.

Definition empty_storage : Storage :=
  {| reloads_left_v6 := None; state_v6 := None; state_v5 := None; state_v4 := None |}.

(** ** Font fitting *)

Section FitFont.

(** [text.scrollWidth <= container.clientWidth - 8] once the text is set
    at a font size (line 136): a measurement of the layout, a parameter
    here. *)
Variable fits : Z -> bool.

(** The loop of [recalc], lines 133-138: ten rounds of bisection, whatever
    [low] and [high] have become. *)
Fixpoint fit_loop (rounds : nat) (low high best : Z) : Z :=
  match rounds with
  | O => best
  | S rounds' =>
      let mid := (low + high) / 2 in
      if fits mid then fit_loop rounds' (mid + 1) high mid
      else fit_loop rounds' low (mid - 1) best
  end.

(** [recalc] of [useFitFont], lines 126-142, with both elements mounted:
    the font size it sets. *)
Definition recalc (maxPx minPx : Z) : Z := fit_loop 10 minPx maxPx minPx.

End FitFont.

(** ** The table of laps *)

(** [completedRowsDesc], line 378. *)
Definition completedRowsDesc (completedRows : list Lap) : list Lap := rev completedRows.

(** The rows of lines 568-578, each with the number it shows. *)
Definition table_rows (completedRows : list Lap) : list (Z * Lap) :=
  let completedCount := Z.of_nat (List.length completedRows) in
  map_indexed (fun lap idx => (completedCount - idx, lap)) 0
    (completedRowsDesc completedRows).

(** The number shown on the row of the open segment, line 562. *)
Definition active_row_number (completedRows : list Lap) : Z :=
  Z.of_nat (List.length completedRows) + 1.

(** The lap numbers of the export, [idx + 1] in line 63. *)
Definition export_numbers (lapRows : list Lap) : list (Z * Lap) :=
  map_indexed (fun lap idx => (idx + 1, lap)) 0 lapRows.

(** ** A page load *)

(** What the persist effect of the first commit sees: the state values of
    the first render, and the cells as the restore effect left them. *)
Definition first_render_view (a : App) : App :=
  initial_app |> set_sessionStartTsRef (sessionStartTsRef a)
              |> set_lapAnchorTsRef (lapAnchorTsRef a)
              |> set_activeStartTsRef (activeStartTsRef a)
              |> set_lastPauseTsRef (lastPauseTsRef a)
              |> set_activeTargetMinutesRef (activeTargetMinutesRef a).

(** Mounting the component on a storage: the restore effect, the persist
    effect of the first commit, then the render of the restored state and
    the persist effect again. (When no dependency of the persist effect
    changed it does not run again, and would write what it wrote.) *)
Definition page_load (now : Z) (s : Storage) : World :=
  let w := restore (initial s) in
  {| app := render now (app w);
     store := persist (app w) (persist (first_render_view (app w)) (store w)) |}.

(** The fields of the state that the snapshot carries. *)
Definition persisted (a : App) :
  list Lap * Z * option Z * option Z * option Z * option number * option Z * option number :=
  (laps a, baseElapsed a, sessionStartTsRef a, lapAnchorTsRef a, activeStartTsRef a,
   activeTargetMinutesRef a, lastPauseTsRef a, currentTargetMinutes a).

(** ** The key listener *)

(** A handler created by a render reads the state values of that render
    ([seen]) through its closure; the cells and the state it updates are
    those of the moment it is called ([a]). *)
Definition handleStart_from (seen : App) (now : Z) (a : App) : App :=
  if isRunning seen then a
  else
    let a1 := a |> set_startedAtRef (Some now) |> set_isRunning true in
    match sessionStartTsRef a with
    | None =>
        a1 |> set_sessionStartTsRef (Some now) |> set_lapAnchorTsRef (Some now)
           |> set_activeStartTsRef (Some now)
           |> set_activeTargetMinutesRef (currentTargetMinutes seen)
    | Some sessionStart =>
        match activeStartTsRef a with
        | None => a1 |> set_activeStartTsRef (orelse (lapAnchorTsRef a) (Some sessionStart))
        | Some _ => a1
        end
    end.

Definition handlePause_from (seen : App) (now : Z) (eager : bool) (a : App) : App :=
  if negb (isRunning seen) then a
  else
    let startedAt := match (if eager then startedAtRef a else None) with
                     | Some t => t
                     | None => now
                     end in
    let computed := baseElapsed a + (now - startedAt) in
    let displayedElapsed := elapsed seen in
    let next := Z.max displayedElapsed computed in
    a |> set_isRunning false |> set_baseElapsed next
      |> set_startedAtRef None |> set_lastPauseTsRef (Some now).

Definition handleLap_from (seen : App) (now : Z) (a : App) : App :=
  if negb (isRunning seen) then a
  else
    match sessionStartTsRef a with
    | None => a
    | Some sessionStart =>
        let currentLapMs := Z.max 0 (elapsed seen - lapsAccumulatedMs (laps seen)) in
        let start := match orelse (activeStartTsRef a) (lapAnchorTsRef a) with
                     | Some t => t
                     | None => sessionStart
                     end in
        let newLap := {| startTs := start; endTs := now; durationMs := currentLapMs;
                         targetMinutes := activeTargetMinutesRef a |} in
        a |> set_laps (laps a ++ [newLap])
          |> set_lapAnchorTsRef (Some now) |> set_activeStartTsRef (Some now)
          |> set_activeTargetMinutesRef (currentTargetMinutes seen)
    end.

(** [handleReset] tests the [isRunning] of its closure; past the test it
    assigns every field it touches, [isRunning] among them. *)
Definition handleReset_from (seen : App) (w : World) : World :=
  if isRunning seen then w
  else handleReset (on_app (set_isRunning false) w).

Inductive key : Type :=
| KeySpace
| KeyL
| KeyR
| KeyOther.

(** [onKey], lines 431-436, as it was created by the render [seen];
    [typing] is [isTypingTarget(e.target)]. *)
Definition onKey (seen : App) (k : key) (typing : bool) (now : Z) (eager : bool)
  (w : World) : World :=
  if typing then w
  else
    match k with
    | KeySpace =>
        if isRunning seen then on_app (handlePause_from seen now eager) w
        else on_app (handleStart_from seen now) w
    | KeyL => if isRunning seen then on_app (handleLap_from seen now) w else w
    | KeyR => if negb (isRunning seen) then handleReset_from seen w else w
    | KeyOther => w
    end.

(** The page: the component, and the render whose [onKey] is the
    registered listener. The effect of lines 430-438 registers the
    listener of a render when [isRunning] or [lapsAccumulatedMs] differ
    from those of the render before. *)
Record Page : Type := mkPage { world : World; listener : App }.

Inductive input : Type :=
| Button (e : event)
| KeyDown (k : key) (typing : bool) (now : Z) (eager : bool).

Definition register (before : App) (w' : World) (old : App) : App :=
  if Bool.eqb (isRunning before) (isRunning (app w'))
     && (lapsAccumulatedMs (laps before) =? lapsAccumulatedMs (laps (app w')))
  then old
  else app w'.

Definition page_step (i : input) (renderedAt : Z) (p : Page) : Page :=
  let w' := match i with
            | Button e => dispatch e renderedAt (world p)
            | KeyDown k typing now eager =>
                on_app (render renderedAt) (onKey (listener p) k typing now eager (world p))
            end in
  {| world := w'; listener := register (app (world p)) w' (listener p) |}.

Definition page_run (trace : list (input * Z)) (p : Page) : Page :=
  fold_left (fun p' ir => page_step (fst ir) (snd ir) p') trace p.

(** The page of a fresh component: the listener is that of the first
    render. *)
Definition fresh_page (s : Storage) : Page :=
  {| world := initial s; listener := initial_app |}.

(** Renders of the ticker, at the given clock readings. *)
Definition ticks (clock : list Z) : list (input * Z) :=
  map (fun t => (Button EvTick, t)) clock.

(** ** Further notions *)

(** A ledger whose laps follow one another from [from]: each lap starts
    where the one before it ended. *)
Fixpoint chained (from : Z) (ls : list Lap) : Prop :=
  match ls with
  | [] => True
  | l :: rest => startTs l = from /\ chained (endTs l) rest
  end.

(** Where the open segment of a ledger that began at [from] starts. *)
Fixpoint chain_end (from : Z) (ls : list Lap) : Z :=
  match ls with
  | [] => from
  | l :: rest => chain_end (endTs l) rest
  end.

(** The line feeds of a text; [text.split("\n")] has one more part. *)
Fixpoint count_lf (s : string) : nat :=
  match s with
  | EmptyString => O
  | String c s' => (if Ascii.eqb c "010"%char then 1 else 0)%nat + count_lf s'
  end.

(** The number that [parse_digits] reads off a decimal numeral. *)
Fixpoint uint_value (u : Decimal.uint) (acc : option Z) : option Z :=
  let next d := Some (10 * or_zero acc + d) in
  match u with
  | Decimal.Nil => acc
  | Decimal.D0 u' => uint_value u' (next 0)
  | Decimal.D1 u' => uint_value u' (next 1)
  | Decimal.D2 u' => uint_value u' (next 2)
  | Decimal.D3 u' => uint_value u' (next 3)
  | Decimal.D4 u' => uint_value u' (next 4)
  | Decimal.D5 u' => uint_value u' (next 5)
  | Decimal.D6 u' => uint_value u' (next 6)
  | Decimal.D7 u' => uint_value u' (next 7)
  | Decimal.D8 u' => uint_value u' (next 8)
  | Decimal.D9 u' => uint_value u' (next 9)
  end.

(** ** Notions of the specification *)

(** The sum of the durations of a ledger, as the specification words it. *)
Definition total_duration (ls : list Lap) : Z :=
  fold_right Z.add 0 (map durationMs ls).

(** The display guard has been applied: the state was rendered since its
    guard cell last changed. *)
Definition rendered (a : App) : Prop := elapsed a = prevElapsedRef a.

(** The ledger never accounts for more time than is displayed. *)
Definition ledger_within_elapsed (a : App) : Prop :=
  lapsAccumulatedMs (laps a) <= elapsed a /\ rendered a.

(** The range the formatter prints: both ends present and, as they are
    used as conditions, not zero. *)
Definition printed_range (rangeStart rangeEnd : option Z) : option (Z * Z) :=
  if truthy rangeStart && truthy rangeEnd
  then Some (or_zero rangeStart, or_zero rangeEnd)
  else None.

(** A ledger of the data model: no recorded target is [NaN]. *)
Definition targets_are_numbers (ls : list Lap) : Prop :=
  Forall (fun l => targetMinutes l <> Some NaN) ls.

(** A state of the data model: no target is [NaN]. *)
Definition numeric_targets (a : App) : Prop :=
  targets_are_numbers (laps a) /\
  activeTargetMinutesRef a <> Some NaN /\ currentTargetMinutes a <> Some NaN.

(** The cells and the pending target of a component that has just been
    mounted. *)
Definition blank_cells (a : App) : Prop :=
  sessionStartTsRef a = None /\ lapAnchorTsRef a = None /\ activeStartTsRef a = None /\
  lastPauseTsRef a = None /\ activeTargetMinutesRef a = None /\
  currentTargetMinutes a = None.

(** The values of the range duration displayed after each step of a
    trace. *)
Fixpoint range_reads (trace : list (event * Z)) (w : World) : list Z :=
  match trace with
  | [] => []
  | (e, t) :: rest =>
      let w' := dispatch e t w in
      displayRangeDuration (app w') :: range_reads rest w'
  end.

(** The base of the elapsed time never runs ahead of the display, and is
    the display while the timer is paused. *)
Definition base_within_display (a : App) : Prop :=
  rendered a /\ baseElapsed a <= elapsed a /\
  (isRunning a = false -> elapsed a = baseElapsed a).

(** The anchors follow the ledger: before the first start there is no lap
    and no open segment; afterwards the laps follow one another from the
    session start and the open segment starts where the last lap ended. *)
Definition anchors_follow_ledger (a : App) : Prop :=
  match sessionStartTsRef a with
  | None => laps a = [] /\ activeStartTsRef a = None /\ lapAnchorTsRef a = None
  | Some s0 =>
      chained s0 (laps a) /\
      activeStartTsRef a = Some (chain_end s0 (laps a)) /\
      lapAnchorTsRef a = Some (chain_end s0 (laps a))
  end.

(** Nothing displayed is negative. *)
Definition display_not_negative (a : App) : Prop :=
  0 <= prevElapsedRef a /\ elapsed a = prevElapsedRef a /\
  0 <= prevRangeDurRef a /\ displayRangeDuration a = prevRangeDurRef a /\
  Forall (fun l => 0 <= durationMs l) (laps a).

(** The listener is that of the current [isRunning] and
    [lapsAccumulatedMs]. *)
Definition listener_in_sync (p : Page) : Prop :=
  isRunning (listener p) = isRunning (app (world p)) /\
  lapsAccumulatedMs (laps (listener p)) = lapsAccumulatedMs (laps (app (world p))).

(** [b] is [a] displayed again: nothing but the memoised values and the
    two display guards differ, and the elapsed time did not go down. *)
Definition redisplayed (a b : App) : Prop :=
  exists (x : Z) (y : option Z) (z : Z),
    prevElapsedRef a <= x /\
    b = a |> set_prevElapsedRef x |> set_elapsed x |> set_rangeEnd y
          |> set_prevRangeDurRef z |> set_displayRangeDuration z.

(** ** The export text, in the words of the specification *)

(** [text.split("\n")]: the lines of a text. *)
Fixpoint split_lf (s : string) : list string :=
  match s with
  | EmptyString => [EmptyString]
  | String c s' =>
      if Ascii.eqb c "010"%char then EmptyString :: split_lf s'
      else match split_lf s' with
           | l :: ls => String c l :: ls
           | [] => [String c EmptyString]
           end
  end.

Fixpoint all_digits (s : string) : bool :=
  match s with
  | EmptyString => true
  | String c s' =>
      match digit_value c with
      | Some _ => all_digits s'
      | None => false
      end
  end.

(** [str] is the decimal numeral of [z]: digits only, read as [z], with no
    leading zero (the numeral of zero is the digit zero). *)
Definition numeral_of (z : Z) (str : string) : Prop :=
  all_digits str = true /\ parse_digits str None = Some z /\
  (forall rest : string, str = String "0"%char rest -> rest = EmptyString).

(** [str] is [z] written on two digits at least: a single digit is padded
    with one zero, and there is no other leading zero. *)
Definition two_digits_of (z : Z) (str : string) : Prop :=
  all_digits str = true /\ parse_digits str None = Some z /\
  (2 <= String.length str)%nat /\
  (forall rest : string, str = String "0"%char rest -> String.length rest = 1%nat).

(** [m] is [durationMs] rounded to the nearest minute, a half minute
    rounding up. *)
Definition nearest_minute (durationMs m : Z) : Prop :=
  60000 * m - 30000 <= durationMs < 60000 * m + 30000.

Section ExportContract.

Variable fmtRange : Z -> string.

(** ["<n>. <start>~<end>，共 <minutes> 分鐘"]. *)
Definition is_lap_line (n : Z) (lap : Lap) (line : string) : Prop :=
  exists (num mins : string) (m : Z),
    line = (num ++ ". " ++ fmtRange (startTs lap) ++ "~" ++ fmtRange (endTs lap)
              ++ "，共 " ++ mins ++ " 分鐘")%string /\
    numeral_of n num /\ numeral_of m mins /\ nearest_minute (durationMs lap) m.

(** One line per lap, in the order of the ledger, numbered from [n]. *)
Fixpoint are_lap_lines (n : Z) (ls : list Lap) (lines : list string) : Prop :=
  match ls, lines with
  | [], [] => True
  | lap :: ls', line :: lines' => is_lap_line n lap line /\ are_lap_lines (n + 1) ls' lines'
  | _, _ => False
  end.

(** ["總時長：<start>~<end>（共 <HH:MM:SS>）"], the whole seconds of
    [duration] split into hours, minutes and seconds. *)
Definition is_total_line (rangeStart rangeEnd duration : Z) (line : string) : Prop :=
  exists (H M S : string) (h m s : Z),
    line = ("總時長：" ++ fmtRange rangeStart ++ "~" ++ fmtRange rangeEnd
              ++ "（共 " ++ H ++ ":" ++ M ++ ":" ++ S ++ "）")%string /\
    two_digits_of h H /\ two_digits_of m M /\ two_digits_of s S /\
    0 <= h /\ 0 <= m < 60 /\ 0 <= s < 60 /\
    1000 * (3600 * h + 60 * m + s) <= duration < 1000 * (3600 * h + 60 * m + s) + 1000.

End ExportContract.

(** ** Sample states and inputs *)

(** A world whose timer runs: the fresh component after its first start. *)
Definition running_world : World :=
  Eval vm_compute in dispatch (EvStart 1000) 1000 (initial empty_storage).

(** Start at 0, pause at 3 s, resume at 8 s, cut at 13 s, look at 14 s. *)
Definition pause_scenario : list (event * Z) :=
  [(EvStart 0, 0); (EvTick, 3000); (EvPause 3000 true, 3000); (EvStart 8000, 8000);
   (EvTick, 13000); (EvLap 13000, 13000); (EvTick, 14000)].

(** A formatter of the kind [fmtRange] is on a host set to UTC and a
    24-hour locale: [HH:MM]. *)
Definition utc_hhmm (ts : Z) : string :=
  (padStart2 (toString ((ts / 3600000) mod 24)) ++ ":"
     ++ padStart2 (toString ((ts / 60000) mod 60)))%string.

(** The ledger of the self-test of lines 464-468. *)
Definition fakeLaps : list Lap :=
  [ {| startTs := 1700000000000; endTs := 1700000060000; durationMs := 60000;
       targetMinutes := None |};
    {| startTs := 1700000060000; endTs := 1700000120000; durationMs := 60000;
       targetMinutes := None |} ].

(** A storage left behind by the v4 version of the timer: two segments, an
    entry without an end, and a counter that allows two reloads. *)
Definition v4_storage : Storage :=
  {| reloads_left_v6 := Some "2"%string;
     state_v6 := None;
     state_v5 := None;
     state_v4 :=
       Some (Doc (JObj
         [("segments",
           JArr [JObj [("start", JNum 7000); ("end", JNum 9000);
                       ("targetMinutes", JNum 5)];
                 JObj [("start", JNum 1000); ("end", JNum 4000)];
                 JObj [("start", JNum 500)];
                 JObj [("start", JNum 9000); ("end", JNum 8000);
                       ("targetMinutes", JNull)]]);
          ("baseElapsed", JNum 5000)]%string)) |}.

(** A paused session with two completed laps, one of them without a target,
    and one reload left. *)
Definition paused_session : App :=
  {| isRunning := false; baseElapsed := 125000; startedAtRef := None;
     laps := [ {| startTs := 1700000000000; endTs := 1700000060000; durationMs := 60000;
                  targetMinutes := Some (Num 1) |};
               {| startTs := 1700000060000; endTs := 1700000125000; durationMs := 65000;
                  targetMinutes := None |} ];
     sessionStartTsRef := Some 1700000000000; lapAnchorTsRef := Some 1700000125000;
     activeStartTsRef := Some 1700000125000; lastPauseTsRef := Some 1700000125000;
     activeTargetMinutesRef := None; currentTargetMinutes := Some (Num 3);
     prevElapsedRef := 125000; prevRangeDurRef := 125000; reloadsLeft := 1;
     elapsed := 125000; rangeEnd := Some 1700000125000;
     displayRangeDuration := 125000 |}.

(** A storage whose counter allows one more reload. *)
Definition one_reload_left : Storage :=
  {| reloads_left_v6 := Some "1"%string; state_v6 := None; state_v5 := None;
     state_v4 := None |}.

(** A storage whose current-format text is not JSON, with two reloads
    left. *)
Definition garbled_storage : Storage :=
  {| reloads_left_v6 := Some "2"%string; state_v6 := Some Garbled; state_v5 := None;
     state_v4 := None |}.

(** The storage after a session was started at 0 and cut at 60 s without a
    pause, as the persist effect leaves it. *)
Definition mid_run_snapshot : Storage :=
  persist (app (run [(EvStart 0, 0); (EvTick, 60000); (EvLap 60000, 60000)]
                  (initial empty_storage)))
    empty_storage.

(** A storage left behind by the v5 version: a session start and a last
    pause, no lap anchor. *)
Definition v5_storage : Storage :=
  {| reloads_left_v6 := None; state_v6 := None;
     state_v5 := Some (Doc (JObj [("laps", JArr []); ("baseElapsed", JNum 4000);
                                  ("sessionStartTs", JNum 1000);
                                  ("lastPauseTs", JNum 5000)]%string));
     state_v4 := None |}.

(** A storage left behind by the v4 version whose [segments] list holds a
    [null] next to a segment with both ends. *)
Definition v4_storage_null_entry : Storage :=
  {| reloads_left_v6 := Some "2"%string;
     state_v6 := None;
     state_v5 := None;
     state_v4 :=
       Some (Doc (JObj
         [("segments", JArr [JNull; JObj [("start", JNum 1000); ("end", JNum 4000)]]);
          ("baseElapsed", JNum 3000)]%string)) |}.

(** ** Proof automation *)

(** A chain of assignments mentions its state once per field: it is
    evaluated by value, on a state given by its fields. *)
Ltac timer_compute :=
  cbv beta iota zeta delta
    [set_isRunning set_baseElapsed set_startedAtRef set_laps set_sessionStartTsRef
     set_lapAnchorTsRef set_activeStartTsRef set_lastPauseTsRef
     set_activeTargetMinutesRef set_currentTargetMinutes set_prevElapsedRef
     set_prevRangeDurRef set_reloadsLeft set_elapsed set_rangeEnd
     set_displayRangeDuration
     isRunning baseElapsed startedAtRef laps sessionStartTsRef lapAnchorTsRef
     activeStartTsRef lastPauseTsRef activeTargetMinutesRef currentTargetMinutes
     prevElapsedRef prevRangeDurRef reloadsLeft elapsed rangeEnd displayRangeDuration
     app store on_app handle dispatch render handleStart handlePause handleLap
     handleReset handlePresetChange set_state_v6 set_reloads_left_v6
     reloads_left_v6 state_v6 state_v5 state_v4 negb orelse].

Ltac timer_compute_in H :=
  cbv beta iota zeta delta
    [set_isRunning set_baseElapsed set_startedAtRef set_laps set_sessionStartTsRef
     set_lapAnchorTsRef set_activeStartTsRef set_lastPauseTsRef
     set_activeTargetMinutesRef set_currentTargetMinutes set_prevElapsedRef
     set_prevRangeDurRef set_reloadsLeft set_elapsed set_rangeEnd
     set_displayRangeDuration
     isRunning baseElapsed startedAtRef laps sessionStartTsRef lapAnchorTsRef
     activeStartTsRef lastPauseTsRef activeTargetMinutesRef currentTargetMinutes
     prevElapsedRef prevRangeDurRef reloadsLeft elapsed rangeEnd displayRangeDuration
     app store on_app handle dispatch render handleStart handlePause handleLap
     handleReset handlePresetChange set_state_v6 set_reloads_left_v6
     reloads_left_v6 state_v6 state_v5 state_v4 negb orelse] in H.

(** The same, for the steps of a page. *)
Ltac page_compute :=
  cbv beta iota zeta delta
    [set_isRunning set_baseElapsed set_startedAtRef set_laps set_sessionStartTsRef
     set_lapAnchorTsRef set_activeStartTsRef set_lastPauseTsRef
     set_activeTargetMinutesRef set_currentTargetMinutes set_prevElapsedRef
     set_prevRangeDurRef set_reloadsLeft set_elapsed set_rangeEnd
     set_displayRangeDuration
     isRunning baseElapsed startedAtRef laps sessionStartTsRef lapAnchorTsRef
     activeStartTsRef lastPauseTsRef activeTargetMinutesRef currentTargetMinutes
     prevElapsedRef prevRangeDurRef reloadsLeft elapsed rangeEnd displayRangeDuration
     app store on_app handle dispatch render handleStart handlePause handleLap
     handleReset handlePresetChange set_state_v6 set_reloads_left_v6
     reloads_left_v6 state_v6 state_v5 state_v4 negb orelse
     world listener page_step register onKey handleStart_from handlePause_from
     handleLap_from handleReset_from fresh_page initial initial_app fst snd].

(** Case analysis on the guards left in a goal. *)
Ltac split_branches :=
  repeat match goal with
         | |- context [if ?b then _ else _] => destruct b
         | |- context [match ?x with Some _ => _ | None => _ end] => destruct x
         end.

(** * Properties *)

(** ** Target status *)

(** C4. The status of a lap with a recorded target of [t] minutes is
    "exceeded" exactly when its duration is above [t * 60000] ms and
    "not exceeded" exactly when it is at most that, so a duration equal to
    the target is not exceeded and one millisecond more is; without a
    target ([undefined] or [NaN]) the status is "unset". *)
Theorem getPresetStatus_classification :
  forall (d t : Z),
    (getPresetStatus d (Some (Num t)) = Status.exceeded <-> d > t * 60000) /\
    (getPresetStatus d (Some (Num t)) = Status.not_exceeded <-> d <= t * 60000) /\
    getPresetStatus (t * 60000) (Some (Num t)) = Status.not_exceeded /\
    getPresetStatus (t * 60000 + 1) (Some (Num t)) = Status.exceeded /\
    getPresetStatus d None = Status.unset /\
    getPresetStatus d (Some NaN) = Status.unset /\
    getPresetStatus d (Some (Num t)) <> Status.unset.
Proof.
  intros d t. unfold getPresetStatus.
  assert (Hz : (t * 60000 <? t * 60000) = false) by (apply Z.ltb_irrefl).
  assert (Hs : (t * 60000 <? t * 60000 + 1) = true) by (apply Z.ltb_lt; lia).
  rewrite Hz, Hs.
  destruct (Z.ltb_spec (t * 60000) d) as [Hlt | Hge].
  - repeat split; try reflexivity; try discriminate; intros; try lia.
  - repeat split; try reflexivity; try discriminate; intros; try lia.
Qed.

(** ** Target input *)

Lemma trimStart_nil_iff (s : jsstring) :
  trimStart s = [] <-> forallb is_white_space s = true.
Proof.
  induction s as [| c s IH]; simpl.
  - tauto.
  - destruct (is_white_space c); simpl.
    + exact IH.
    + split; discriminate.
Qed.

Lemma forallb_rev {A : Type} (p : A -> bool) (l : list A) :
  forallb p (rev l) = forallb p l.
Proof.
  induction l as [| x l IH]; simpl; [reflexivity |].
  rewrite forallb_app, IH. simpl. rewrite andb_true_r. apply andb_comm.
Qed.

Lemma trimStart_not_blank (s : jsstring) :
  forallb is_white_space s = false -> forallb is_white_space (trimStart s) = false.
Proof.
  induction s as [| c s IH]; simpl; [discriminate |].
  destruct (is_white_space c) eqn:Hc; simpl.
  - exact IH.
  - rewrite Hc. reflexivity.
Qed.

(** [raw.trim() === ""] holds exactly of the strings made of white space. *)
Lemma trim_empty_iff_blank (raw : jsstring) :
  is_empty (trim raw) = forallb is_white_space raw.
Proof.
  unfold trim, trimEnd.
  destruct (forallb is_white_space raw) eqn:Hb.
  - apply trimStart_nil_iff in Hb. rewrite Hb. reflexivity.
  - apply trimStart_not_blank in Hb.
    rewrite <- forallb_rev in Hb. apply trimStart_not_blank in Hb.
    rewrite <- forallb_rev in Hb.
    destruct (rev (trimStart (rev (trimStart raw)))); [discriminate | reflexivity].
Qed.

(** C10. For a raw input that is not blank and a numeric value [n] that is
    defined and not [NaN], the parsed target is [max(0, floor(n))]; every
    target the parser produces is an integer that is not negative; and a
    raw input of white space only parses to the unset value. *)
Theorem computePresetFromInput_normalizes :
  (forall (raw : jsstring) (n : Q),
      forallb is_white_space raw = false ->
      computePresetFromInput raw (Some (Finite n)) = Some (Num (Z.max 0 (Qfloor n)))) /\
  (forall (raw : jsstring) (v : option float) (t : number),
      computePresetFromInput raw v = Some t -> exists z : Z, t = Num z /\ 0 <= z) /\
  (forall (raw : jsstring) (v : option float),
      forallb is_white_space raw = true -> computePresetFromInput raw v = None).
Proof.
  unfold computePresetFromInput. repeat split.
  - intros raw n Hraw. rewrite trim_empty_iff_blank, Hraw. reflexivity.
  - intros raw v t. destruct (is_empty (trim raw)); [discriminate |].
    destruct v as [[n |] |]; try discriminate.
    intros [= <-]. exists (Z.max 0 (Qfloor n)). split; [reflexivity | lia].
  - intros raw v Hraw. rewrite trim_empty_iff_blank, Hraw. reflexivity.
Qed.

(** The self-tests of lines 457-461: ["5.9"] floors to 5, ["-2.5"] clamps
    to 0, and three spaces give the unset value. *)
Lemma computePresetFromInput_normalizes_witness :
  computePresetFromInput [53; 46; 57]%N (Some (Finite (59 # 10))) = Some (Num 5) /\
  (exists z : Z, Num 0 = Num z /\ 0 <= z) /\
  computePresetFromInput [32; 32; 32]%N (Some FNaN) = None.
Proof.
  destruct computePresetFromInput_normalizes as (Hfloor & Hnonneg & Hblank).
  split; [| split].
  - apply (Hfloor [53; 46; 57]%N (59 # 10)). reflexivity.
  - apply (Hnonneg [45; 50; 46; 53]%N (Some (Finite (-25 # 10))) (Num 0)). reflexivity.
  - apply (Hblank [32; 32; 32]%N (Some FNaN)). reflexivity.
Defined.

(** ** Illegal transitions *)

(** C7. A transition that is not allowed changes nothing and fails
    nowhere: cutting a lap while the timer is not running or before a
    session has started, resetting while it runs, pausing while it does
    not run and starting while it runs each return the world they were
    given: the timer state, the ledger, the anchors and the storage. *)
Theorem illegal_transitions_are_noops :
  forall (w : World) (now : Z) (eager : bool),
    (isRunning (app w) = false -> handle (EvLap now) w = w) /\
    (sessionStartTsRef (app w) = None -> handle (EvLap now) w = w) /\
    (isRunning (app w) = true -> handle EvReset w = w) /\
    (isRunning (app w) = false -> handle (EvPause now eager) w = w) /\
    (isRunning (app w) = true -> handle (EvStart now) w = w).
Proof.
  intros [[run base started ls sess anchor active pause locked pending pe pr left el re dr] s]
         now eager.
  repeat split; intros H; timer_compute_in H; subst; timer_compute;
    try reflexivity.
  destruct run; reflexivity.
Qed.

Lemma illegal_transitions_are_noops_witness :
  handle (EvLap 5) (initial empty_storage) = initial empty_storage /\
  handle EvReset running_world = running_world /\
  handle (EvPause 5 true) (initial empty_storage) = initial empty_storage /\
  handle (EvStart 2000) running_world = running_world.
Proof.
  split; [| split; [| split]].
  - apply (illegal_transitions_are_noops (initial empty_storage) 5 true). reflexivity.
  - apply (illegal_transitions_are_noops running_world 5 true). reflexivity.
  - apply (illegal_transitions_are_noops (initial empty_storage) 5 true). reflexivity.
  - apply (illegal_transitions_are_noops running_world 2000 true). reflexivity.
Defined.

(** ** Target lock *)

(** With the buttons, whose handlers are those of the latest render:
    changing the pending target leaves the target locked for the open
    segment, the ledger and so every recorded target as they are, also in
    the row displayed for the open segment. The pending value is locked at
    the next cut, whose lap still records the old lock, or at the first
    start; pausing, resuming and the ticker leave the lock alone. *)
Lemma target_lock :
  forall (w : World) (raw : jsstring) (v : option float) (t now t' : Z) (eager : bool),
    let w1 := dispatch (EvPreset raw v) t w in
    (activeTargetMinutesRef (app w1) = activeTargetMinutesRef (app w) /\
     laps (app w1) = laps (app w) /\
     option_map targetMinutes (activeRow t (app w1))
       = option_map targetMinutes (activeRow t (app w)) /\
     currentTargetMinutes (app w1) = computePresetFromInput raw v) /\
    (isRunning (app w) = true -> sessionStartTsRef (app w) <> None ->
     let w2 := dispatch (EvLap now) t' w1 in
     (exists lap, laps (app w2) = laps (app w) ++ [lap] /\
                  targetMinutes lap = activeTargetMinutesRef (app w)) /\
     activeTargetMinutesRef (app w2) = computePresetFromInput raw v) /\
    (isRunning (app w) = false -> sessionStartTsRef (app w) = None ->
     activeTargetMinutesRef (app (dispatch (EvStart now) t' w1))
       = computePresetFromInput raw v) /\
    (sessionStartTsRef (app w) <> None ->
     activeTargetMinutesRef (app (dispatch (EvStart now) t' w1))
       = activeTargetMinutesRef (app w)) /\
    activeTargetMinutesRef (app (dispatch (EvPause now eager) t' w1))
      = activeTargetMinutesRef (app w) /\
    activeTargetMinutesRef (app (dispatch EvTick t' w1)) = activeTargetMinutesRef (app w).
Proof.
  intros [[run base started ls sess anchor active pause locked pending pe pr left el re dr] s]
         raw v t now t' eager.
  unfold activeRow. timer_compute.
  split; [| split; [| split; [| split; [| split]]]].
  - repeat split. destruct active; reflexivity.
  - intros -> Hsess. destruct sess as [s0 |]; [| congruence].
    split; [| reflexivity]. eexists. split; reflexivity.
  - intros -> ->. reflexivity.
  - intros Hsess. destruct run; [reflexivity |].
    destruct sess; [| congruence]. destruct active; reflexivity.
  - destruct run; reflexivity.
  - reflexivity.
Qed.

Lemma target_lock_witness :
  (exists lap, laps (app (dispatch (EvLap 9000) 9000
                            (dispatch (EvPreset [51; 48]%N (Some (Finite (30 # 1)))) 5000
                               running_world)))
               = laps (app running_world) ++ [lap] /\
               targetMinutes lap = activeTargetMinutesRef (app running_world)) /\
  activeTargetMinutesRef
    (app (dispatch (EvStart 9000) 9000
            (dispatch (EvPreset [54; 48]%N (Some (Finite (60 # 1)))) 5000
               (initial empty_storage))))
  = computePresetFromInput [54; 48]%N (Some (Finite (60 # 1))) /\
  activeTargetMinutesRef
    (app (dispatch (EvStart 9000) 9000
            (dispatch (EvPreset [51; 48]%N (Some (Finite (30 # 1)))) 5000 running_world)))
  = activeTargetMinutesRef (app running_world).
Proof.
  pose proof (target_lock running_world [51; 48]%N (Some (Finite (30 # 1)))
                5000 9000 9000 true) as (_ & Hcut & _ & Hresume & _).
  pose proof (target_lock (initial empty_storage) [54; 48]%N (Some (Finite (60 # 1)))
                5000 9000 9000 true) as (_ & _ & Hfirst & _).
  split; [| split].
  - apply Hcut; [reflexivity | discriminate].
  - apply Hfirst; reflexivity.
  - apply Hresume. discriminate.
Defined.

(** ** Monotone display *)

Lemma dispatch_rendered (e : event) (t : Z) (w : World) :
  rendered (app (dispatch e t w)).
Proof.
  destruct w as [[run base started ls sess anchor active pause locked pending pe pr left el re dr] s].
  unfold rendered. destruct e; timer_compute; split_branches; reflexivity.
Qed.

Lemma run_rendered (trace : list (event * Z)) (w : World) :
  rendered (app w) -> rendered (app (run trace w)).
Proof.
  revert w. induction trace as [| [e t] rest IH]; intros w Hw; [exact Hw |].
  apply IH. apply dispatch_rendered.
Qed.

Lemma dispatch_monotone (e : event) (t : Z) (w : World) :
  is_reset e = false -> rendered (app w) ->
  elapsed (app w) <= elapsed (app (dispatch e t w)).
Proof.
  destruct w as [[run base started ls sess anchor active pause locked pending pe pr left el re dr] s].
  unfold rendered. intros He Hw. timer_compute_in Hw. subst el.
  destruct e; try discriminate; timer_compute; split_branches; lia.
Qed.

Lemma reads_sorted (after : list (event * Z)) :
  forall w : World,
    rendered (app w) ->
    forallb (fun er => negb (is_reset (fst er))) after = true ->
    Sorted Z.le (elapsed (app w) :: reads after w).
Proof.
  induction after as [| [e t] rest IH]; intros w Hw Hall.
  - constructor; constructor.
  - change (reads ((e, t) :: rest) w)
      with (elapsed (app (dispatch e t w)) :: reads rest (dispatch e t w)).
    cbn [forallb fst] in Hall. apply andb_true_iff in Hall as [He Hrest].
    apply negb_true_iff in He.
    constructor.
    + apply IH; [apply dispatch_rendered | exact Hrest].
    + constructor. apply dispatch_monotone; assumption.
Qed.



(** ** Lap accounting *)

Lemma lapsAccumulatedMs_from (ls : list Lap) :
  forall acc : Z,
    fold_left (fun acc' l => acc' + durationMs l) ls acc = acc + total_duration ls.
Proof.
  unfold total_duration.
  induction ls as [| l ls IH]; intros acc; simpl; [lia |]. rewrite IH. lia.
Qed.

Lemma lapsAccumulatedMs_total (ls : list Lap) : lapsAccumulatedMs ls = total_duration ls.
Proof. unfold lapsAccumulatedMs. rewrite lapsAccumulatedMs_from. lia. Qed.

Lemma lapsAccumulatedMs_snoc (ls : list Lap) (l : Lap) :
  lapsAccumulatedMs (ls ++ [l]) = lapsAccumulatedMs ls + durationMs l.
Proof. unfold lapsAccumulatedMs. rewrite fold_left_app. reflexivity. Qed.

Lemma dispatch_ledger_within_elapsed (e : event) (t : Z) (w : World) :
  ledger_within_elapsed (app w) -> ledger_within_elapsed (app (dispatch e t w)).
Proof.
  intros [Hsum Hr]. split; [| apply dispatch_rendered].
  destruct w as [[run base started ls sess anchor active pause locked pending pe pr left el re dr] s].
  unfold rendered in Hr. timer_compute_in Hr. timer_compute_in Hsum. subst el.
  destruct e; timer_compute; split_branches;
    rewrite ?lapsAccumulatedMs_snoc; cbn [durationMs];
    change (lapsAccumulatedMs []) with 0;
    match goal with
    | |- _ <= Z.max _ ?raw => generalize raw; intros raw'
    end; lia.
Qed.

Lemma run_ledger_within_elapsed (trace : list (event * Z)) (w : World) :
  ledger_within_elapsed (app w) -> ledger_within_elapsed (app (run trace w)).
Proof.
  revert w. induction trace as [| [e t] rest IH]; intros w Hw; [exact Hw |].
  apply IH. apply dispatch_ledger_within_elapsed. exact Hw.
Qed.

(** Within one session of a component mounted on nothing to restore: in
    every state reached by any sequence of events, at any clock readings,
    the durations of the completed laps and the duration of the row
    derived for the open segment add up to the displayed elapsed time;
    that duration is the elapsed time minus the sum of the completed laps,
    whatever the clock reads and wherever the anchors of the segment
    stand. *)
Lemma lap_accounting :
  forall (s : Storage) (trace : list (event * Z)) (now : Z),
    let a := app (run trace (initial s)) in
    lapsAccumulatedMs (laps a) = total_duration (laps a) /\
    total_duration (laps a) + Z.max 0 (elapsed a - lapsAccumulatedMs (laps a)) = elapsed a /\
    (forall row : Lap,
        activeRow now a = Some row ->
        durationMs row = elapsed a - total_duration (laps a) /\
        total_duration (laps a) + durationMs row = elapsed a).
Proof.
  intros s trace now a.
  assert (Hinv : ledger_within_elapsed a).
  { apply run_ledger_within_elapsed. split; [| reflexivity].
    unfold initial, initial_app. timer_compute. unfold lapsAccumulatedMs. simpl. lia. }
  destruct Hinv as [Hsum _].
  pose proof (lapsAccumulatedMs_total (laps a)) as Htot.
  split; [exact Htot |]. split; [lia |].
  intros row Hrow. unfold activeRow in Hrow.
  destruct (activeStartTsRef a); [| discriminate].
  injection Hrow as <-. cbn [durationMs]. lia.
Qed.

Lemma lap_accounting_witness :
  let a := app (run pause_scenario (initial empty_storage)) in
  map durationMs (laps a) = [8000] /\ elapsed a = 9000 /\
  exists row : Lap,
    activeRow 14000 a = Some row /\
    durationMs row = elapsed a - total_duration (laps a) /\
    total_duration (laps a) + durationMs row = elapsed a.
Proof.
  pose proof (lap_accounting empty_storage pause_scenario 14000) as (_ & _ & Hrow).
  split; [vm_compute; reflexivity |]. split; [vm_compute; reflexivity |].
  eexists. split; [vm_compute; reflexivity |].
  apply Hrow. vm_compute. reflexivity.
Defined.

(** ** Export text *)

Lemma bracket_free_app (s1 s2 : string) :
  bracket_free (s1 ++ s2) = bracket_free s1 && bracket_free s2.
Proof.
  induction s1 as [| c s1 IH]; simpl; [reflexivity |].
  rewrite IH. apply andb_assoc.
Qed.

Lemma bracket_free_digits (u : Decimal.uint) :
  bracket_free (NilEmpty.string_of_uint u) = true.
Proof. induction u; simpl; auto. Qed.

Lemma bracket_free_toString (z : Z) : bracket_free (toString z) = true.
Proof.
  unfold toString, NilZero.string_of_int.
  destruct (Z.to_int z) as [u | u]; unfold NilZero.string_of_uint.
  - destruct u; try reflexivity; apply bracket_free_digits.
  - cbn [bracket_free is_bracket existsb Ascii.eqb Bool.eqb negb andb orb].
    destruct u; try reflexivity; apply bracket_free_digits.
Qed.

Lemma bracket_free_padStart2 (s : string) :
  bracket_free s = true -> bracket_free (padStart2 s) = true.
Proof.
  intros H. unfold padStart2.
  destruct (String.length s) as [| [| n]]; [reflexivity | | exact H].
  rewrite bracket_free_app, H. reflexivity.
Qed.

Lemma bracket_free_fmtHMS (ms : Z) : bracket_free (fmtHMS ms) = true.
Proof.
  unfold fmtHMS, msToHMS. cbn [hh mm ss].
  rewrite !bracket_free_app, !bracket_free_padStart2 by apply bracket_free_toString.
  reflexivity.
Qed.

Lemma bracket_free_utc_hhmm (ts : Z) : bracket_free (utc_hhmm ts) = true.
Proof.
  unfold utc_hhmm.
  rewrite !bracket_free_app, !bracket_free_padStart2 by apply bracket_free_toString.
  reflexivity.
Qed.

Lemma bracket_free_concat (sep : string) (lines : list string) :
  bracket_free sep = true ->
  Forall (fun l => bracket_free l = true) lines ->
  bracket_free (String.concat sep lines) = true.
Proof.
  intros Hsep Hall. induction Hall as [| l ls Hl Hls IH]; [reflexivity |].
  simpl. destruct ls as [| l' ls']; [exact Hl |].
  rewrite !bracket_free_app, Hl, Hsep, IH. reflexivity.
Qed.

Lemma map_indexed_lap_line (fmtRange : Z -> string) (ls : list Lap) :
  forall idx : Z,
    map_indexed (lap_line fmtRange) idx ls = spec_lap_lines fmtRange (idx + 1) ls.
Proof.
  induction ls as [| l ls IH]; intros idx; cbn [map_indexed spec_lap_lines];
    [reflexivity |].
  rewrite IH. reflexivity.
Qed.

Lemma spec_lap_lines_length (fmtRange : Z -> string) (ls : list Lap) :
  forall n : Z, List.length (spec_lap_lines fmtRange n ls) = List.length ls.
Proof. induction ls as [| l ls IH]; intros n; simpl; [| rewrite IH]; reflexivity. Qed.

Lemma bracket_free_lap_lines (fmtRange : Z -> string) (ls : list Lap) :
  (forall ts, bracket_free (fmtRange ts) = true) ->
  forall n : Z, Forall (fun l => bracket_free l = true) (spec_lap_lines fmtRange n ls).
Proof.
  intros Hfmt. induction ls as [| l ls IH]; intros n; cbn [spec_lap_lines];
    constructor; [| apply IH].
  rewrite !bracket_free_app, !Hfmt, !bracket_free_toString. reflexivity.
Qed.

Lemma bracket_free_total_lines (fmtRange : Z -> string) (range : option (Z * Z)) (d : Z) :
  (forall ts, bracket_free (fmtRange ts) = true) ->
  Forall (fun l => bracket_free l = true) (spec_total_lines fmtRange range d).
Proof.
  intros Hfmt. destruct range as [[s e] |]; cbn [spec_total_lines];
    repeat constructor.
  rewrite !bracket_free_app, !Hfmt, bracket_free_fmtHMS. reflexivity.
Qed.

Lemma buildTextSummary_spec (fmtRange : Z -> string) (ls : list Lap)
  (rangeStart rangeEnd rangeDuration : option Z) :
  ls <> [] ->
  buildTextSummary fmtRange ls rangeStart rangeEnd rangeDuration
  = join_lines (spec_lap_lines fmtRange 1 ls
                  ++ spec_total_lines fmtRange (printed_range rangeStart rangeEnd)
                       (or_zero rangeDuration)).
Proof.
  intros Hls. unfold buildTextSummary, summary_lines, printed_range.
  destruct ls as [| l ls]; [congruence |].
  rewrite map_indexed_lap_line. change (0 + 1) with 1.
  destruct (truthy rangeStart && truthy rangeEnd); simpl spec_total_lines.
  - reflexivity.
  - rewrite app_nil_r. reflexivity.
Qed.

(** ** Migration of the v4 format *)

Lemma fold_min_spec (rest : list Z) :
  forall x : Z,
    In (fold_left Z.min rest x) (x :: rest) /\
    Forall (Z.le (fold_left Z.min rest x)) (x :: rest).
Proof.
  induction rest as [| y rest IH]; intros x.
  - simpl. split; [left; reflexivity | constructor; [lia | constructor]].
  - cbn [fold_left]. destruct (IH (Z.min x y)) as [Hin Hle].
    remember (fold_left Z.min rest (Z.min x y)) as m eqn:Em. clear Em IH.
    inversion Hle as [| ? ? Hhd Htl]; subst. split.
    + destruct Hin as [Heq | Hin].
      * destruct (Z.min_spec x y) as [[_ Hm] | [_ Hm]]; [left | right; left]; lia.
      * right. right. exact Hin.
    + constructor; [lia |]. constructor; [lia | exact Htl].
Qed.

Lemma fold_max_spec (rest : list Z) :
  forall x : Z,
    In (fold_left Z.max rest x) (x :: rest) /\
    Forall (fun y => y <= fold_left Z.max rest x) (x :: rest).
Proof.
  induction rest as [| y rest IH]; intros x.
  - simpl. split; [left; reflexivity | constructor; [lia | constructor]].
  - cbn [fold_left]. destruct (IH (Z.max x y)) as [Hin Hle].
    remember (fold_left Z.max rest (Z.max x y)) as m eqn:Em. clear Em IH.
    inversion Hle as [| ? ? Hhd Htl]; subst. split.
    + destruct Hin as [Heq | Hin].
      * destruct (Z.max_spec x y) as [[_ Hm] | [_ Hm]]; [right; left | left]; lia.
      * right. right. exact Hin.
    + constructor; [lia |]. constructor; [lia | exact Htl].
Qed.

(** [min_of] is the least element, [max_of] the greatest. *)
Lemma min_of_spec (xs : list Z) (m : Z) :
  min_of xs = Some m -> In m xs /\ Forall (Z.le m) xs.
Proof.
  destruct xs as [| x rest]; [discriminate |].
  intros [= <-]. apply fold_min_spec.
Qed.

Lemma max_of_spec (xs : list Z) (m : Z) :
  max_of xs = Some m -> In m xs /\ Forall (fun y => y <= m) xs.
Proof.
  destruct xs as [| x rest]; [discriminate |].
  intros [= <-]. apply fold_max_spec.
Qed.

Lemma max_of_orelse_min_of {A : Type} (f g : A -> Z) (l : list A) :
  orelse (max_of (map f l)) (min_of (map g l)) = max_of (map f l).
Proof. destruct l; reflexivity. Qed.

(** The migrated ledger, segment by segment. *)
Lemma in_migrated (segments : list json) (lap : Lap) :
  In lap (map lap_of_segment (filter numeric_ends segments)) <->
  exists (seg : json) (st en : Z),
    In seg segments /\
    as_number (get "start" seg) = Some st /\
    as_number (get "end" seg) = Some en /\
    lap = {| startTs := st; endTs := en; durationMs := Z.max 0 (en - st);
             targetMinutes := as_target (get "targetMinutes" seg) |}.
Proof.
  rewrite in_map_iff. split.
  - intros (seg & <- & Hin). apply filter_In in Hin as [Hin Hnum].
    unfold numeric_ends in Hnum. unfold lap_of_segment.
    destruct (as_number (get "start" seg)) as [st |] eqn:Hst; [| discriminate].
    destruct (as_number (get "end" seg)) as [en |] eqn:Hen; [| discriminate].
    exists seg, st, en. repeat split; assumption.
  - intros (seg & st & en & Hin & Hst & Hen & ->).
    exists seg. split.
    + unfold lap_of_segment. rewrite Hst, Hen. reflexivity.
    + apply filter_In. split; [exact Hin |].
      unfold numeric_ends. rewrite Hst, Hen. reflexivity.
Qed.

(** As long as no entry of the [segments] list is [null]: on a load with
    a positive counter, no current-format and no v5 snapshot, and a v4
    payload with a [segments] list, the ledger becomes, in order, one lap
    per segment with numeric [start] and [end]: [startTs = start],
    [endTs = end], [durationMs = max(0, end - start)] and a numeric target
    carried over. The session start is the least migrated [startTs]; the
    lap anchor, the start of the open segment and the last-pause timestamp
    are the greatest migrated [endTs]; all four are [null] when nothing was
    migrated. *)
Lemma v4_migration :
  forall (a : App) (s : Storage) (legacy : json) (segments : list json),
    0 < stored_left s ->
    state_v6 s = None -> state_v5 s = None -> state_v4 s = Some (Doc legacy) ->
    get "segments" legacy = Some (JArr segments) ->
    existsb is_null segments = false ->
    let a' := app (restore {| app := a; store := s |}) in
    laps a' = map lap_of_segment (filter numeric_ends segments) /\
    (forall lap : Lap,
        In lap (laps a') <->
        exists (seg : json) (st en : Z),
          In seg segments /\
          as_number (get "start" seg) = Some st /\
          as_number (get "end" seg) = Some en /\
          lap = {| startTs := st; endTs := en; durationMs := Z.max 0 (en - st);
                   targetMinutes := as_target (get "targetMinutes" seg) |}) /\
    sessionStartTsRef a' = min_of (map startTs (laps a')) /\
    lapAnchorTsRef a' = max_of (map endTs (laps a')) /\
    activeStartTsRef a' = max_of (map endTs (laps a')) /\
    lastPauseTsRef a' = max_of (map endTs (laps a')) /\
    (forall m : Z,
        sessionStartTsRef a' = Some m ->
        In m (map startTs (laps a')) /\ Forall (Z.le m) (map startTs (laps a'))) /\
    (forall m : Z,
        lapAnchorTsRef a' = Some m ->
        In m (map endTs (laps a')) /\ Forall (fun e => e <= m) (map endTs (laps a'))).
Proof.
  intros a s legacy segments Hleft H6 H5 H4 Hseg Hnull a'.
  assert (Ha' : a' = set_reloadsLeft (Z.max 0 (stored_left s - 1))
                       (migrate_v4 legacy (set_reloadsLeft (stored_left s) a))).
  { subst a'. unfold restore. cbn [app store].
    apply Z.ltb_lt in Hleft. rewrite Hleft.
    unfold restore_snapshot. rewrite H6, H5, H4. reflexivity. }
  assert (Hm : migrate_v4 legacy (set_reloadsLeft (stored_left s) a)
               = let migrated := map lap_of_segment (filter numeric_ends segments) in
                 let sessionStart := min_of (map startTs migrated) in
                 let lastEnd := max_of (map endTs migrated) in
                 set_reloadsLeft (stored_left s) a
                   |> set_laps migrated
                   |> set_baseElapsed (or_zero (as_number (get "baseElapsed" legacy)))
                   |> set_sessionStartTsRef sessionStart
                   |> set_lapAnchorTsRef lastEnd
                   |> set_activeStartTsRef lastEnd
                   |> set_lastPauseTsRef lastEnd).
  { unfold migrate_v4, migrate_segments.
    destruct legacy; try discriminate Hseg.
    cbn [json_truthy]. rewrite Hseg, Hnull.
    cbv zeta. rewrite !max_of_orelse_min_of. reflexivity. }
  rewrite Hm in Ha'. clear Hm. subst a'. rewrite Ha'. clear Ha'.
  destruct a as [run base started ls sess anchor active pause locked pending pe pr left el re dr].
  timer_compute.
  split; [reflexivity |]. split; [apply in_migrated |].
  repeat split; try reflexivity.
  - apply min_of_spec; assumption.
  - apply min_of_spec; assumption.
  - apply max_of_spec; assumption.
  - apply max_of_spec; assumption.
Qed.

Lemma v4_migration_witness :
  let a' := app (restore {| app := initial_app; store := v4_storage |}) in
  map startTs (laps a') = [7000; 1000; 9000] /\
  map durationMs (laps a') = [2000; 3000; 0] /\
  map targetMinutes (laps a') = [Some (Num 5); None; None] /\
  sessionStartTsRef a' = Some 1000 /\
  lapAnchorTsRef a' = Some 9000 /\ activeStartTsRef a' = Some 9000 /\
  lastPauseTsRef a' = Some 9000 /\
  sessionStartTsRef a' = min_of (map startTs (laps a')) /\
  lapAnchorTsRef a' = max_of (map endTs (laps a')).
Proof.
  pose proof (v4_migration initial_app v4_storage
                (JObj
         [("segments",
           JArr [JObj [("start", JNum 7000); ("end", JNum 9000);
                       ("targetMinutes", JNum 5)];
                 JObj [("start", JNum 1000); ("end", JNum 4000)];
                 JObj [("start", JNum 500)];
                 JObj [("start", JNum 9000); ("end", JNum 8000);
                       ("targetMinutes", JNull)]]);
          ("baseElapsed", JNum 5000)]%string)
                _
                ltac:(vm_compute; reflexivity) eq_refl eq_refl eq_refl eq_refl eq_refl)
    as (_ & _ & Hstart & Hanchor & _).
  cbv zeta.
  do 7 (split; [vm_compute; reflexivity |]).
  split; [exact Hstart | exact Hanchor].
Defined.

(** ** Persistence round trip *)

Lemma lap_of_json_of_lap (l : Lap) :
  targetMinutes l <> Some NaN -> lap_of_json (json_of_lap l) = Some l.
Proof.
  destruct l as [s e d [[z |] |]]; cbn [targetMinutes]; intros Ht;
    [reflexivity | congruence | reflexivity].
Qed.

Lemma laps_of_json_of_laps (ls : list Lap) :
  targets_are_numbers ls -> laps_of_json (map json_of_lap ls) = Some ls.
Proof.
  induction 1 as [| l ls Hl Hls IH]; [reflexivity |].
  cbn [map laps_of_json]. rewrite lap_of_json_of_lap by exact Hl.
  rewrite IH. reflexivity.
Qed.

Lemma get_laps_payload (a : App) :
  get "laps" (payload a) = Some (JArr (map json_of_lap (laps a))).
Proof.
  unfold payload.
  destruct (activeTargetMinutesRef a) as [[z |] |];
    destruct (currentTargetMinutes a) as [[z' |] |]; reflexivity.
Qed.

Lemma laps_restore_number (key : string) (assign : Z -> App -> App) (p : json) (a : App) :
  (forall z a0, laps (assign z a0) = laps a0) ->
  laps (restore_number key assign p a) = laps a.
Proof.
  intros Hassign. unfold restore_number.
  destruct (as_number (get key p)); [apply Hassign | reflexivity].
Qed.

Lemma laps_restore_target (key : string) (assign : option number -> App -> App)
  (p : json) (a : App) :
  (forall t a0, laps (assign t a0) = laps a0) ->
  laps (restore_target key assign p a) = laps a.
Proof.
  intros Hassign. unfold restore_target.
  destruct (as_target (get key p)); [apply Hassign | reflexivity].
Qed.

Lemma laps_restore_v6 (parsed : json) (a : App) :
  laps (restore_v6 parsed a) = laps (restore_laps parsed a).
Proof.
  unfold restore_v6.
  rewrite !laps_restore_target by reflexivity.
  rewrite !laps_restore_number by reflexivity.
  reflexivity.
Qed.

(** The persist effect leaves the counter alone. *)
Lemma stored_left_persist (a : App) (s : Storage) :
  stored_left (persist a s) = stored_left s.
Proof. unfold persist. destruct (0 <? reloadsLeft a); reflexivity. Qed.

(** C6. A state with a ledger of N laps, serialised by the persist effect
    while its budget is positive and restored by a later load whose stored
    counter is positive, gives back the same ledger: N laps, each with the
    [startTs], [endTs], [durationMs] and [targetMinutes] it had. *)
Theorem persistence_round_trip :
  forall (a fresh : App) (s : Storage),
    0 < reloadsLeft a ->
    targets_are_numbers (laps a) ->
    0 < stored_left s ->
    let restored := app (restore {| app := fresh; store := persist a s |}) in
    laps restored = laps a /\ List.length (laps restored) = List.length (laps a).
Proof.
  intros a fresh s Hbudget Hnum Hleft restored.
  assert (Hlaps : laps restored = laps a).
  { subst restored. unfold restore. cbn [app store].
    rewrite stored_left_persist. apply Z.ltb_lt in Hleft. rewrite Hleft.
    unfold restore_snapshot, persist. apply Z.ltb_lt in Hbudget. rewrite Hbudget.
    cbn [state_v6 set_state_v6 json_truthy payload].
    cbn [app laps set_reloadsLeft].
    rewrite laps_restore_v6. unfold restore_laps.
    rewrite get_laps_payload, laps_of_json_of_laps by exact Hnum.
    reflexivity. }
  split; [exact Hlaps | rewrite Hlaps; reflexivity].
Qed.

Lemma persistence_round_trip_witness :
  laps (app (restore {| app := initial_app;
                        store := persist paused_session one_reload_left |}))
  = laps paused_session /\
  List.length (laps paused_session) = 2%nat.
Proof.
  split; [| reflexivity].
  apply (persistence_round_trip paused_session initial_app one_reload_left).
  - reflexivity.
  - repeat constructor; discriminate.
  - reflexivity.
Defined.

(** ** The reload budget *)

(** As long as the current-format text, if there is one, parses: a load
    with a positive counter attempts the restore and stores the counter
    less one, whether or not any snapshot was stored; a load with a
    counter of zero (or below) removes the stored snapshot, restores
    nothing and leaves the counter. *)
Lemma restore_budget (w : World) :
  state_v6 (store w) <> Some Garbled ->
  let left := stored_left (store w) in
  let w' := restore w in
  (0 < left ->
   reloads_left_v6 (store w') = Some (toString (left - 1)) /\
   reloadsLeft (app w') = left - 1 /\
   state_v6 (store w') = state_v6 (store w) /\
   exists a' : App,
     restore_snapshot (store w) (set_reloadsLeft left (app w)) = Some a' /\
     app w' = set_reloadsLeft (left - 1) a') /\
  (left <= 0 ->
   state_v6 (store w') = None /\
   reloads_left_v6 (store w') = reloads_left_v6 (store w) /\
   app w' = set_reloadsLeft left (app w)).
Proof.
  intros Hparse left w'. subst w'. unfold restore. fold left. split.
  - intros Hpos. assert (Hltb : (0 <? left) = true) by (apply Z.ltb_lt; exact Hpos).
    rewrite Hltb.
    destruct (restore_snapshot (store w) (set_reloadsLeft left (app w))) as [a' |] eqn:Hsnap.
    + replace (Z.max 0 (left - 1)) with (left - 1) by lia.
      cbn [app store reloads_left_v6 state_v6 set_reloads_left_v6].
      split; [reflexivity |]. split; [destruct a'; reflexivity |].
      split; [reflexivity |]. exists a'. split; reflexivity.
    + unfold restore_snapshot in Hsnap.
      destruct (state_v6 (store w)) as [[| | parsed] |]; congruence.
  - intros Hle. assert (Hltb : (0 <? left) = false) by (apply Z.ltb_ge; exact Hle).
    rewrite Hltb. repeat split.
Qed.

(** C2, at a storage whose current-format text does not parse. The
    counter reads 2, so the load is eligible; [JSON.parse] throws, the
    outer [catch] takes over, and the counter is still 2 afterwards, in the
    storage and in the state: the load was not counted. The same text
    under the v5 key is caught by the inner [try], and the load is
    counted. *)
Theorem restore_garbled_snapshot_keeps_counter :
  stored_left garbled_storage = 2 /\
  restore (initial garbled_storage)
  = {| app := set_reloadsLeft 2 initial_app; store := garbled_storage |} /\
  reloads_left_v6 (store (restore (initial garbled_storage))) = Some "2"%string /\
  reloads_left_v6 (store (restore (initial garbled_storage))) <> Some (toString (2 - 1)) /\
  reloads_left_v6
    (store (restore (initial {| reloads_left_v6 := Some "2"%string; state_v6 := None;
                                state_v5 := Some Garbled; state_v4 := None |})))
  = Some (toString (2 - 1)).
Proof. repeat split; try reflexivity. vm_compute. discriminate. Qed.

(** ** A reload in the middle of a run *)

(** The page as it comes back from a reload on [mid_run_snapshot]. *)
Lemma restore_mid_run_snapshot :
  app (restore (initial mid_run_snapshot))
  = {| isRunning := false; baseElapsed := 0; startedAtRef := None;
       laps := [ {| startTs := 0; endTs := 60000; durationMs := 60000;
                    targetMinutes := None |} ];
       sessionStartTsRef := Some 0; lapAnchorTsRef := Some 60000;
       activeStartTsRef := Some 60000; lastPauseTsRef := None;
       activeTargetMinutesRef := None; currentTargetMinutes := None;
       prevElapsedRef := 0; prevRangeDurRef := 0; reloadsLeft := 1;
       elapsed := 0; rangeEnd := None; displayRangeDuration := 0 |}.
Proof. vm_compute. reflexivity. Qed.

(** C1, at a reload in the middle of a run. The base of the elapsed time
    is written at a pause only, so the snapshot the persist effect writes
    when a lap is cut while the timer runs holds that lap next to a base
    that does not cover it. On the page that loads this snapshot, whatever
    the clock reads, the ledger sums to 60 s, the display reads zero and
    the row of the open segment is clamped to zero: completed laps and
    open segment add up to 60 s, not to the elapsed time. One second after
    the timer is resumed the display reads 1 s, the ledger still sums to
    60 s and the open segment still shows zero. *)
Theorem reload_mid_run_breaks_lap_accounting :
  forall now : Z,
    let a := app (page_load now mid_run_snapshot) in
    let a' := app (run [(EvStart now, now); (EvTick, now + 1000)]
                     (page_load now mid_run_snapshot)) in
    (isRunning a = false /\ map durationMs (laps a) = [60000] /\ elapsed a = 0 /\
     (exists row : Lap,
         activeRow now a = Some row /\ durationMs row = 0 /\
         total_duration (laps a) + durationMs row = 60000 /\
         total_duration (laps a) + durationMs row <> elapsed a)) /\
    (isRunning a' = true /\ map durationMs (laps a') = [60000] /\ elapsed a' = 1000 /\
     (exists row : Lap,
         activeRow (now + 1000) a' = Some row /\ durationMs row = 0 /\
         total_duration (laps a') + durationMs row <> elapsed a')).
Proof.
  intros now. unfold run, page_load. cbn [fold_left fst snd app].
  rewrite restore_mid_run_snapshot.
  unfold activeRow, total_duration. timer_compute.
  unfold rawElapsed, compute_rangeEnd, compute_rangeDuration, lapsAccumulatedMs, max_of.
  timer_compute. cbn [map fold_left fold_right durationMs endTs].
  replace (Z.max (Z.max (Z.max 0 0) (0 + (now - now))) (0 + (now + 1000 - now)))
    with 1000 by lia.
  split.
  - split; [reflexivity |]. split; [reflexivity |]. split; [reflexivity |].
    eexists. split; [reflexivity |]. cbn [durationMs]. repeat split; lia.
  - split; [reflexivity |]. split; [reflexivity |]. split; [reflexivity |].
    eexists. split; [reflexivity |]. cbn [durationMs]. repeat split; lia.
Qed.

(** * Further properties *)

(** ** Font fitting *)

Section FitFontFacts.

Variable fits : Z -> bool.
Variables minPx maxPx : Z.

Lemma mid_bounds (low high : Z) :
  2 * ((low + high) / 2) <= low + high < 2 * ((low + high) / 2) + 2.
Proof.
  pose proof (Z.div_mod (low + high) 2 ltac:(lia)) as Hdm.
  pose proof (Z.mod_pos_bound (low + high) 2 ltac:(lia)) as Hr. lia.
Qed.

Lemma fit_loop_bounds (rounds : nat) :
  forall low high best : Z,
    minPx <= low <= maxPx + 1 -> minPx - 2 <= high <= maxPx -> low <= high + 2 ->
    minPx - 1 <= best <= maxPx /\ (best = minPx \/ fits best = true) ->
    minPx - 1 <= fit_loop fits rounds low high best <= maxPx /\
    (fit_loop fits rounds low high best = minPx \/
     fits (fit_loop fits rounds low high best) = true).
Proof.
  induction rounds as [| n IH]; intros low high best Hlow Hhigh Hgap Hbest;
    [exact Hbest |].
  cbn [fit_loop]. pose proof (mid_bounds low high) as Hmid.
  destruct (fits ((low + high) / 2)) eqn:Hfits.
  - apply IH; [lia | lia | lia |]. split; [lia | right; exact Hfits].
  - apply IH; [lia | lia | lia | exact Hbest].
Qed.

(** Once [low] has passed [high] by one, every further round measures
    the same size, [high]. *)
Lemma fit_loop_stuck (rounds : nat) :
  forall low best : Z,
    fits (low - 1) = false -> fit_loop fits rounds low (low - 2) best = best.
Proof.
  induction rounds as [| n IH]; intros low best Hno; [reflexivity |].
  cbn [fit_loop]. replace ((low + (low - 2)) / 2) with (low - 1)
    by (pose proof (mid_bounds low (low - 2)); lia).
  rewrite Hno. replace (low - 1 - 1) with (low - 2) by lia. apply IH. exact Hno.
Qed.

Lemma fit_loop_stable (rounds : nat) :
  forall low : Z,
    fits (low - 1) = true -> fit_loop fits rounds low (low - 1) (low - 1) = low - 1.
Proof.
  induction rounds as [| n IH]; intros low Hyes; [reflexivity |].
  cbn [fit_loop]. replace ((low + (low - 1)) / 2) with (low - 1)
    by (pose proof (mid_bounds low (low - 1)); lia).
  rewrite Hyes. replace (low - 1 + 1) with low by lia. apply IH. exact Hyes.
Qed.

Lemma fit_loop_converged (rounds : nat) (low best : Z) :
  fit_loop fits (S rounds) low (low - 1) best
  = if fits (low - 1) then low - 1 else best.
Proof.
  cbn [fit_loop]. replace ((low + (low - 1)) / 2) with (low - 1)
    by (pose proof (mid_bounds low (low - 1)); lia).
  destruct (fits (low - 1)) eqn:Hfits.
  - replace (low - 1 + 1) with low by lia. apply fit_loop_stable. exact Hfits.
  - replace (low - 1 - 1) with (low - 2) by lia. apply fit_loop_stuck. exact Hfits.
Qed.

(** A text that fits at a size fits at every smaller size. *)
Hypothesis fits_downward :
  forall x y : Z, x <= y -> fits y = true -> fits x = true.

Lemma fit_loop_bisects (rounds : nat) :
  forall low high best : Z,
    minPx <= low -> low <= high + 1 -> high - low + 1 < 2 ^ Z.of_nat rounds ->
    (forall x, minPx <= x < low -> fits x = true) ->
    (forall x, high < x <= maxPx -> fits x = false) ->
    (minPx < low -> best = low - 1) -> (low = minPx -> best = minPx) ->
    exists l : Z,
      low <= l <= high + 1 /\
      (forall x, minPx <= x < l -> fits x = true) /\
      (forall x, l <= x <= maxPx -> fits x = false) /\
      fit_loop fits (S rounds) low high best
      = if minPx <? l then l - 1
        else if fits (minPx - 1) then minPx - 1 else minPx.
Proof.
  induction rounds as [| n IH]; intros low high best Hmin Hle Hsize Hbelow Habove Hb1 Hb2.
  - change (2 ^ Z.of_nat 0) with 1 in Hsize.
    assert (high = low - 1) by lia. subst high.
    exists low. split; [lia |]. split; [exact Hbelow |].
    split; [intros x Hx; apply Habove; lia |].
    rewrite fit_loop_converged.
    destruct (Z.ltb_spec minPx low) as [Hlt | Hge].
    + rewrite (Hbelow (low - 1)) by lia. reflexivity.
    + assert (low = minPx) by lia. subst low. rewrite (Hb2 eq_refl). reflexivity.
  - rewrite Nat2Z.inj_succ, Z.pow_succ_r in Hsize by lia.
    destruct (Z.eq_dec high (low - 1)) as [-> | Hne].
    + exists low. split; [lia |]. split; [exact Hbelow |].
      split; [intros x Hx; apply Habove; lia |].
      rewrite fit_loop_converged.
      destruct (Z.ltb_spec minPx low) as [Hlt | Hge].
      * rewrite (Hbelow (low - 1)) by lia. reflexivity.
      * assert (low = minPx) by lia. subst low. rewrite (Hb2 eq_refl). reflexivity.
    + pose proof (mid_bounds low high) as Hmid.
      remember ((low + high) / 2) as mid eqn:Emid.
      change (fit_loop fits (S (S n)) low high best)
        with (if fits ((low + high) / 2)
              then fit_loop fits (S n) ((low + high) / 2 + 1) high ((low + high) / 2)
              else fit_loop fits (S n) low ((low + high) / 2 - 1) best).
      rewrite <- Emid. destruct (fits mid) eqn:Hfits.
      * destruct (IH (mid + 1) high mid) as (l & Hl & Hlb & Hla & Hres);
          try lia.
        -- intros x Hx. apply (fits_downward x mid); [lia | exact Hfits].
        -- exact Habove.
        -- exists l. split; [lia |]. split; [exact Hlb |]. split; [exact Hla |].
           exact Hres.
      * destruct (IH low (mid - 1) best) as (l & Hl & Hlb & Hla & Hres);
          try lia; try assumption.
        -- intros x Hx. destruct (Z_le_gt_dec x high) as [Hxh | Hxh].
           ++ destruct (fits x) eqn:Hfx; [| reflexivity].
              rewrite (fits_downward mid x) in Hfits; [discriminate | lia | exact Hfx].
           ++ apply Habove. lia.
        -- exists l. split; [lia |]. split; [exact Hlb |]. split; [exact Hla |].
           exact Hres.
Qed.

End FitFontFacts.

(** X1. Whatever the layout measures, and for any bounds with
    [minPx <= maxPx], the font size that [recalc] sets is at most [maxPx]
    and at least [minPx - 1], and it is [minPx] or a size at which the text
    was measured to fit. (The rounds that follow the meeting of [low] and
    [high] measure the size [minPx - 1] when nothing fits.) *)
Theorem recalc_bounds :
  forall (fits : Z -> bool) (maxPx minPx : Z),
    minPx <= maxPx ->
    minPx - 1 <= recalc fits maxPx minPx <= maxPx /\
    (recalc fits maxPx minPx = minPx \/ fits (recalc fits maxPx minPx) = true).
Proof.
  intros fits maxPx minPx Hle. unfold recalc.
  apply (fit_loop_bounds fits minPx maxPx 10 minPx maxPx minPx); [lia | lia | lia |].
  split; [lia | left; reflexivity].
Qed.

Lemma recalc_bounds_witness :
  72 - 1 <= recalc (fun _ => true) 90 72 <= 90 /\
  (recalc (fun _ => true) 90 72 = 72 \/ (fun _ : Z => true) (recalc (fun _ => true) 90 72) = true).
Proof. apply (recalc_bounds (fun _ => true) 90 72). lia. Defined.

(** X2. When a text that fits at a size fits at every smaller one and the
    bounds are less than 511 apart (the component uses 24..72 and 16..40):
    if some size within the bounds fits, [recalc] sets the largest such
    size; if none does, it sets [minPx - 1] when the text fits there and
    [minPx] otherwise. *)
Theorem recalc_largest_fitting :
  forall (fits : Z -> bool) (maxPx minPx : Z),
    (forall x y : Z, x <= y -> fits y = true -> fits x = true) ->
    minPx <= maxPx -> maxPx - minPx < 511 ->
    let r := recalc fits maxPx minPx in
    (forall x : Z,
        minPx <= x <= maxPx -> fits x = true ->
        minPx <= r <= maxPx /\ fits r = true /\ x <= r /\
        (forall y : Z, r < y <= maxPx -> fits y = false)) /\
    ((forall x : Z, minPx <= x <= maxPx -> fits x = false) ->
     r = if fits (minPx - 1) then minPx - 1 else minPx).
Proof.
  intros fits maxPx minPx Hdown Hle Hsize r.
  destruct (fit_loop_bisects fits minPx maxPx Hdown 9 minPx maxPx minPx)
    as (l & Hl & Hbelow & Habove & Hres); try lia.
  fold (recalc fits maxPx minPx) in Hres. fold r in Hres.
  split.
  - intros x Hx Hfx.
    assert (Hxl : x < l).
    { destruct (Z_lt_ge_dec x l) as [Hlt | Hge]; [exact Hlt |].
      rewrite (Habove x) in Hfx by lia. discriminate. }
    assert (Hlt : (minPx <? l) = true) by (apply Z.ltb_lt; lia).
    rewrite Hlt in Hres. rewrite Hres.
    split; [lia |]. split; [apply Hbelow; lia |]. split; [lia |].
    intros y Hy. apply Habove. lia.
  - intros Hnone.
    assert (Hlt : (minPx <? l) = false).
    { apply Z.ltb_ge. destruct (Z_le_gt_dec l minPx) as [Hl' | Hl']; [exact Hl' |].
      specialize (Hnone minPx ltac:(lia)).
      rewrite (Hbelow minPx) in Hnone by lia. discriminate. }
    rewrite Hlt in Hres. exact Hres.
Qed.

(** The readout of the timer, 24..72: a text that fits up to 40 px is set
    at 40 px; one that fits only below 24 px is set at 23 px. *)
Lemma recalc_largest_fitting_witness :
  recalc (fun x => x <=? 40) 72 24 = 40 /\ recalc (fun x => x <=? 23) 72 24 = 23.
Proof.
  pose proof (recalc_largest_fitting (fun x => x <=? 40) 72 24) as H40.
  pose proof (recalc_largest_fitting (fun x => x <=? 23) 72 24) as H23.
  split.
  - reflexivity.
  - destruct H23 as [_ Hnone]; [| lia | lia |].
    + intros x y Hxy Hy. apply Z.leb_le in Hy. apply Z.leb_le. lia.
    + rewrite Hnone; [reflexivity |]. intros x Hx. apply Z.leb_gt. lia.
Defined.

(** ** The table of laps *)

Lemma map_indexed_app {A B : Type} (f : A -> Z -> B) (l1 l2 : list A) :
  forall idx : Z,
    map_indexed f idx (l1 ++ l2)
    = map_indexed f idx l1 ++ map_indexed f (idx + Z.of_nat (List.length l1)) l2.
Proof.
  induction l1 as [| x l1 IH]; intros idx.
  - cbn [Datatypes.app map_indexed List.length]. rewrite Z.add_0_r. reflexivity.
  - cbn [Datatypes.app map_indexed List.length]. rewrite IH.
    replace (idx + Z.of_nat (S (List.length l1)))
      with (idx + 1 + Z.of_nat (List.length l1)) by lia.
    reflexivity.
Qed.

Lemma numbered_rev (ls : list Lap) :
  forall c i j : Z,
    c - i = j + Z.of_nat (List.length ls) ->
    map_indexed (fun lap idx => (c - idx, lap)) i (rev ls)
    = rev (map_indexed (fun lap idx => (idx + 1, lap)) j ls).
Proof.
  induction ls as [| x ls IH]; intros c i j Hc; [reflexivity |].
  cbn [rev map_indexed]. rewrite map_indexed_app.
  cbn [List.length] in Hc. rewrite Nat2Z.inj_succ in Hc.
  rewrite (IH c i (j + 1)) by lia.
  cbn [map_indexed]. rewrite length_rev.
  replace (c - (i + Z.of_nat (List.length ls))) with (j + 1) by lia.
  reflexivity.
Qed.

Lemma map_snd_numbered (g : Z -> Z) (ls : list Lap) :
  forall i : Z, map snd (map_indexed (fun lap idx => (g idx, lap)) i ls) = ls.
Proof.
  induction ls as [| x ls IH]; intros i; [reflexivity |].
  cbn [map_indexed map snd]. rewrite IH. reflexivity.
Qed.

(** X3. The table shows the completed laps newest first, each with the
    number it has in the export: the rows are the numbered laps of the
    export in reverse, so the bottom row is lap 1, the top row is lap N,
    and the open segment is shown as N + 1. *)
Theorem table_numbers_match_export :
  forall completedRows : list Lap,
    table_rows completedRows = rev (export_numbers completedRows) /\
    map snd (table_rows completedRows) = rev completedRows /\
    (forall n lap rest, table_rows completedRows = (n, lap) :: rest ->
                        active_row_number completedRows = n + 1) /\
    (forall n lap front, table_rows completedRows = front ++ [(n, lap)] -> n = 1).
Proof.
  intros ls.
  assert (Hrows : table_rows ls = rev (export_numbers ls)).
  { unfold table_rows, export_numbers, completedRowsDesc. apply numbered_rev. lia. }
  split; [exact Hrows |]. split; [| split].
  - rewrite Hrows, map_rev. unfold export_numbers. rewrite map_snd_numbered.
    reflexivity.
  - intros n lap rest Heq. unfold active_row_number.
    unfold table_rows, completedRowsDesc in Heq.
    destruct (rev ls) as [| y ys] eqn:Hrev; [discriminate |].
    cbn [map_indexed] in Heq. injection Heq as Hn _ _. lia.
  - intros n lap front Heq. rewrite Hrows in Heq.
    apply (f_equal (@rev _)) in Heq. rewrite rev_involutive, rev_app_distr in Heq.
    unfold export_numbers in Heq. destruct ls as [| x ls]; [discriminate |].
    cbn [map_indexed rev Datatypes.app] in Heq. injection Heq as Hn _ _. lia.
Qed.

Lemma table_numbers_match_export_witness :
  table_rows fakeLaps = rev (export_numbers fakeLaps) /\
  active_row_number fakeLaps = 2 + 1 /\
  nth 1 (map fst (table_rows fakeLaps)) 0 = 1.
Proof.
  pose proof (table_numbers_match_export fakeLaps) as (Hrows & _ & Htop & Hbottom).
  split; [exact Hrows |]. split.
  - eapply Htop. reflexivity.
  - eapply (Hbottom (nth 1 (map fst (table_rows fakeLaps)) 0) _ [_]). reflexivity.
Defined.

(** ** The stored counter *)

Lemma parse_digits_numeral (u : Decimal.uint) :
  forall acc : option Z,
    parse_digits (NilEmpty.string_of_uint u) acc = uint_value u acc.
Proof.
  induction u; intros acc; cbn [NilEmpty.string_of_uint parse_digits uint_value];
    [reflexivity | ..]; apply IHu.
Qed.

Lemma uint_value_acc (u : Decimal.uint) :
  forall acc : positive,
    uint_value u (Some (Z.pos acc)) = Some (Z.pos (Pos.of_uint_acc u acc)).
Proof.
  induction u; intros acc; cbn [uint_value Pos.of_uint_acc or_zero];
    [reflexivity | ..];
    match goal with
    | |- uint_value _ (Some ?v) = Some (Z.pos (Pos.of_uint_acc _ ?p)) =>
        replace v with (Z.pos p) by lia
    end; apply IHu.
Qed.

Lemma uint_value_zero (u : Decimal.uint) :
  uint_value u (Some 0) = Some (Z.of_N (Pos.of_uint u)).
Proof.
  induction u; cbn [uint_value Pos.of_uint or_zero]; [reflexivity | exact IHu | ..];
    match goal with
    | |- uint_value _ (Some ?v) = Some (Z.of_N (N.pos (Pos.of_uint_acc _ ?p))) =>
        replace v with (Z.pos p) by lia
    end; apply uint_value_acc.
Qed.

Lemma uint_value_start (u : Decimal.uint) :
  u <> Decimal.Nil -> uint_value u None = uint_value u (Some 0).
Proof. destruct u; [congruence | reflexivity ..]. Qed.

Lemma parse_digits_positive (p : positive) :
  parse_digits (NilEmpty.string_of_uint (Pos.to_uint p)) None = Some (Z.pos p).
Proof.
  rewrite parse_digits_numeral, uint_value_start
    by apply DecimalPos.Unsigned.to_uint_nonnil.
  rewrite uint_value_zero, DecimalPos.Unsigned.of_to. reflexivity.
Qed.

(** A numeral starts with a digit: neither white space nor a sign. *)
Lemma numeral_head (u : Decimal.uint) :
  u <> Decimal.Nil ->
  exists c rest,
    NilEmpty.string_of_uint u = String c rest /\
    is_space c = false /\ c <> "-"%char /\ c <> "+"%char.
Proof.
  destruct u; [congruence | ..]; intros _; eexists; eexists;
    (split; [reflexivity |]); repeat split; discriminate.
Qed.

Lemma parseInt_numeral (u : Decimal.uint) :
  u <> Decimal.Nil ->
  parseInt (NilEmpty.string_of_uint u) = parse_digits (NilEmpty.string_of_uint u) None.
Proof.
  intros Hu. destruct (numeral_head u Hu) as (c & rest & -> & Hsp & Hminus & Hplus).
  unfold parseInt. cbn [skip_spaces]. rewrite Hsp.
  destruct c as [[] [] [] [] [] [] [] []]; try reflexivity; congruence.
Qed.

(** [parseInt] reads a printed integer back. *)
Lemma parseInt_printed :
  forall z : Z, parseInt (toString z) = Some z.
Proof.
  intros z. unfold toString, Z.to_int.
  destruct z as [| p | p]; [reflexivity | |].
  - unfold NilZero.string_of_int, NilZero.string_of_uint.
    pose proof (DecimalPos.Unsigned.to_uint_nonnil p) as Hnil.
    destruct (Pos.to_uint p) eqn:Eu; [congruence | ..];
      rewrite <- Eu, parseInt_numeral by (rewrite Eu; discriminate);
      apply parse_digits_positive.
  - unfold NilZero.string_of_int, NilZero.string_of_uint.
    pose proof (DecimalPos.Unsigned.to_uint_nonnil p) as Hnil.
    destruct (Pos.to_uint p) eqn:Eu; [congruence | ..];
      rewrite <- Eu; unfold parseInt; cbn [skip_spaces is_space nat_of_ascii];
      (cbv - [parse_digits NilEmpty.string_of_uint Pos.to_uint option_map Z.opp]);
      rewrite parse_digits_positive; reflexivity.
Qed.

(** ** Restoring field by field *)

Section RestoreFrames.

Context {T : Type} (proj : App -> T).

Lemma restore_number_frame (key : string) (assign : Z -> App -> App) (p : json) (a : App) :
  (forall z a0, proj (assign z a0) = proj a0) ->
  proj (restore_number key assign p a) = proj a.
Proof.
  intros Hassign. unfold restore_number.
  destruct (as_number (get key p)); [apply Hassign | reflexivity].
Qed.

Lemma restore_target_frame (key : string) (assign : option number -> App -> App)
  (p : json) (a : App) :
  (forall t a0, proj (assign t a0) = proj a0) ->
  proj (restore_target key assign p a) = proj a.
Proof.
  intros Hassign. unfold restore_target.
  destruct (as_target (get key p)); [apply Hassign | reflexivity].
Qed.

Lemma restore_laps_frame (p : json) (a : App) :
  (forall ls a0, proj (set_laps ls a0) = proj a0) ->
  proj (restore_laps p a) = proj a.
Proof.
  intros Hassign. unfold restore_laps.
  destruct (get "laps" p) as [[| | | | items |] |]; try reflexivity.
  destruct (laps_of_json items); [apply Hassign | reflexivity].
Qed.

Lemma restore_number_hit (key : string) (assign : Z -> App -> App) (p : json) (a : App) :
  proj (restore_number key assign p a)
  = match as_number (get key p) with
    | Some z => proj (assign z a)
    | None => proj a
    end.
Proof. unfold restore_number. destruct (as_number (get key p)); reflexivity. Qed.

Lemma restore_target_hit (key : string) (assign : option number -> App -> App)
  (p : json) (a : App) :
  proj (restore_target key assign p a)
  = match as_target (get key p) with
    | Some t => proj (assign (Some t) a)
    | None => proj a
    end.
Proof. unfold restore_target. destruct (as_target (get key p)); reflexivity. Qed.

End RestoreFrames.

(** The steps of a restore that leave a field alone are skipped. *)
Ltac frame proj :=
  rewrite ?(restore_target_frame proj), ?(restore_number_frame proj),
    ?(restore_laps_frame proj) by reflexivity.

(** The effect of [restore_v6] on each field. *)
Lemma restore_v6_fields :
  forall (parsed : json) (a : App),
    let a' := restore_v6 parsed a in
    laps a' = laps (restore_laps parsed a) /\
    baseElapsed a' = match as_number (get "baseElapsed" parsed) with
                     | Some z => z
                     | None => baseElapsed a
                     end /\
    sessionStartTsRef a'
    = orelse (as_number (get "sessionStartTs" parsed)) (sessionStartTsRef a) /\
    lapAnchorTsRef a' = orelse (as_number (get "lapAnchorTs" parsed)) (lapAnchorTsRef a) /\
    activeStartTsRef a'
    = orelse (as_number (get "activeStartTs" parsed)) (activeStartTsRef a) /\
    lastPauseTsRef a' = orelse (as_number (get "lastPauseTs" parsed)) (lastPauseTsRef a) /\
    activeTargetMinutesRef a'
    = orelse (as_target (get "activeTargetMinutes" parsed)) (activeTargetMinutesRef a) /\
    currentTargetMinutes a'
    = orelse (as_target (get "currentTargetMinutes" parsed)) (currentTargetMinutes a) /\
    isRunning a' = isRunning a /\ startedAtRef a' = startedAtRef a /\
    prevElapsedRef a' = prevElapsedRef a /\ prevRangeDurRef a' = prevRangeDurRef a /\
    reloadsLeft a' = reloadsLeft a.
Proof.
  intros parsed a a'. subst a'. unfold restore_v6.
  split; [frame laps; reflexivity |].
  split; [frame baseElapsed; rewrite restore_number_hit; frame baseElapsed; reflexivity |].
  split; [frame sessionStartTsRef; rewrite restore_number_hit; frame sessionStartTsRef;
          destruct (as_number (get "sessionStartTs" parsed)); reflexivity |].
  split; [frame lapAnchorTsRef; rewrite restore_number_hit; frame lapAnchorTsRef;
          destruct (as_number (get "lapAnchorTs" parsed)); reflexivity |].
  split; [frame activeStartTsRef; rewrite restore_number_hit; frame activeStartTsRef;
          destruct (as_number (get "activeStartTs" parsed)); reflexivity |].
  split; [frame lastPauseTsRef; rewrite restore_number_hit; frame lastPauseTsRef;
          destruct (as_number (get "lastPauseTs" parsed)); reflexivity |].
  split; [frame activeTargetMinutesRef; rewrite restore_target_hit;
          frame activeTargetMinutesRef;
          destruct (as_target (get "activeTargetMinutes" parsed)); reflexivity |].
  split; [frame currentTargetMinutes; rewrite restore_target_hit;
          frame currentTargetMinutes;
          destruct (as_target (get "currentTargetMinutes" parsed)); reflexivity |].
  split; [frame isRunning; reflexivity |].
  split; [frame startedAtRef; reflexivity |].
  split; [frame prevElapsedRef; reflexivity |].
  split; [frame prevRangeDurRef; reflexivity |].
  frame reloadsLeft; reflexivity.
Qed.

(** X5. The current-format snapshot is restored field by field. Each of
    the five numeric fields ([baseElapsed] and the four anchors) is taken
    from the document when the document holds a number under its key and
    is left as it was otherwise, whatever else the document holds. A
    target is taken when the document holds a number under its key and is
    left as it was when the key is absent or [null]; the ledger is left
    as it was when [laps] is no array. The running flag, the start of the
    run, the display guards and the counter are never restored. *)
Theorem restore_v6_field_by_field :
  forall (parsed : json) (a : App),
    let a' := restore_v6 parsed a in
    (baseElapsed a' = match as_number (get "baseElapsed" parsed) with
                      | Some z => z
                      | None => baseElapsed a
                      end /\
     sessionStartTsRef a'
     = orelse (as_number (get "sessionStartTs" parsed)) (sessionStartTsRef a) /\
     lapAnchorTsRef a' = orelse (as_number (get "lapAnchorTs" parsed)) (lapAnchorTsRef a) /\
     activeStartTsRef a'
     = orelse (as_number (get "activeStartTs" parsed)) (activeStartTsRef a) /\
     lastPauseTsRef a' = orelse (as_number (get "lastPauseTs" parsed)) (lastPauseTsRef a)) /\
    ((forall z : Z,
         get "activeTargetMinutes" parsed = Some (JNum z) ->
         activeTargetMinutesRef a' = Some (Num z)) /\
     (get "activeTargetMinutes" parsed = None \/
      get "activeTargetMinutes" parsed = Some JNull ->
      activeTargetMinutesRef a' = activeTargetMinutesRef a) /\
     (forall z : Z,
         get "currentTargetMinutes" parsed = Some (JNum z) ->
         currentTargetMinutes a' = Some (Num z)) /\
     (get "currentTargetMinutes" parsed = None \/
      get "currentTargetMinutes" parsed = Some JNull ->
      currentTargetMinutes a' = currentTargetMinutes a)) /\
    ((forall items : list json, get "laps" parsed <> Some (JArr items)) ->
     laps a' = laps a) /\
    (isRunning a' = isRunning a /\ startedAtRef a' = startedAtRef a /\
     prevElapsedRef a' = prevElapsedRef a /\ prevRangeDurRef a' = prevRangeDurRef a /\
     reloadsLeft a' = reloadsLeft a).
Proof.
  intros parsed a a'.
  destruct (restore_v6_fields parsed a)
    as (Hlaps & Hbase & Hsess & Hanchor & Hactive & Hpause & Hlocked & Hpending & Hrest).
  fold a' in Hlaps, Hbase, Hsess, Hanchor, Hactive, Hpause, Hlocked, Hpending, Hrest.
  split; [repeat split; assumption |].
  split; [| split; [| exact Hrest]].
  - rewrite Hlocked, Hpending. repeat split.
    + intros z ->. reflexivity.
    + intros [-> | ->]; reflexivity.
    + intros z ->. reflexivity.
    + intros [-> | ->]; reflexivity.
  - intros Hnone. rewrite Hlaps. unfold restore_laps.
    destruct (get "laps" parsed) as [[| | | | items |] |]; try reflexivity.
    exfalso. apply (Hnone items). reflexivity.
Qed.

(** A document with a numeric base, a numeric locked target, a [null]
    pending target and no ledger, restored over a paused session. *)
Lemma restore_v6_field_by_field_witness :
  let parsed := JObj [("baseElapsed", JNum 5); ("activeTargetMinutes", JNum 3);
                      ("currentTargetMinutes", JNull)]%string in
  let a' := restore_v6 parsed paused_session in
  baseElapsed a' = 5 /\
  activeTargetMinutesRef a' = Some (Num 3) /\
  currentTargetMinutes a' = currentTargetMinutes paused_session /\
  laps a' = laps paused_session.
Proof.
  pose proof (restore_v6_field_by_field
                (JObj [("baseElapsed", JNum 5); ("activeTargetMinutes", JNum 3);
                       ("currentTargetMinutes", JNull)]%string) paused_session)
    as ((Hbase & _) & (Hlocked & _ & _ & Hpending) & Hlaps & _).
  cbv zeta in Hbase, Hlocked, Hpending, Hlaps |- *.
  split; [rewrite Hbase; reflexivity |].
  split; [apply Hlocked; reflexivity |].
  split; [apply Hpending; right; reflexivity |].
  apply Hlaps. intros items. vm_compute. discriminate.
Defined.

(** ** The whole snapshot *)

Ltac payload_lookup a :=
  unfold payload;
  destruct (activeTargetMinutesRef a) as [[? |] |];
  destruct (currentTargetMinutes a) as [[? |] |];
  try reflexivity; try congruence.

Lemma payload_baseElapsed (a : App) :
  as_number (get "baseElapsed" (payload a)) = Some (baseElapsed a).
Proof. payload_lookup a. Qed.

Lemma payload_sessionStartTs (a : App) :
  as_number (get "sessionStartTs" (payload a)) = sessionStartTsRef a.
Proof. payload_lookup a; destruct (sessionStartTsRef a); reflexivity. Qed.

Lemma payload_lapAnchorTs (a : App) :
  as_number (get "lapAnchorTs" (payload a)) = lapAnchorTsRef a.
Proof. payload_lookup a; destruct (lapAnchorTsRef a); reflexivity. Qed.

Lemma payload_activeStartTs (a : App) :
  as_number (get "activeStartTs" (payload a)) = activeStartTsRef a.
Proof. payload_lookup a; destruct (activeStartTsRef a); reflexivity. Qed.

Lemma payload_lastPauseTs (a : App) :
  as_number (get "lastPauseTs" (payload a)) = lastPauseTsRef a.
Proof. payload_lookup a; destruct (lastPauseTsRef a); reflexivity. Qed.

Lemma payload_activeTargetMinutes (a : App) :
  activeTargetMinutesRef a <> Some NaN ->
  as_target (get "activeTargetMinutes" (payload a)) = activeTargetMinutesRef a.
Proof. intros Hnum. payload_lookup a. Qed.

Lemma payload_currentTargetMinutes (a : App) :
  currentTargetMinutes a <> Some NaN ->
  as_target (get "currentTargetMinutes" (payload a)) = currentTargetMinutes a.
Proof. intros Hnum. payload_lookup a. Qed.

Lemma orelse_None {A : Type} (x : option A) : orelse x None = x.
Proof. destruct x; reflexivity. Qed.

(** Restoring what the persist effect wrote. A cell that held [null] when
    the snapshot was written is not cleared by the restore: it keeps what
    the restoring component has. *)
Lemma restore_v6_payload (a fresh : App) :
  numeric_targets a ->
  let a' := restore_v6 (payload a) fresh in
  laps a' = laps a /\ baseElapsed a' = baseElapsed a /\
  sessionStartTsRef a' = orelse (sessionStartTsRef a) (sessionStartTsRef fresh) /\
  lapAnchorTsRef a' = orelse (lapAnchorTsRef a) (lapAnchorTsRef fresh) /\
  activeStartTsRef a' = orelse (activeStartTsRef a) (activeStartTsRef fresh) /\
  lastPauseTsRef a' = orelse (lastPauseTsRef a) (lastPauseTsRef fresh) /\
  activeTargetMinutesRef a'
  = orelse (activeTargetMinutesRef a) (activeTargetMinutesRef fresh) /\
  currentTargetMinutes a' = orelse (currentTargetMinutes a) (currentTargetMinutes fresh).
Proof.
  intros (Hlaps & Hactive & Hcurrent) a'.
  destruct (restore_v6_fields (payload a) fresh)
    as (Hl & Hb & Hs & Han & Hac & Hp & Hat & Hct & _).
  fold a' in Hl, Hb, Hs, Han, Hac, Hp, Hat, Hct.
  rewrite Hl, Hb, Hs, Han, Hac, Hp, Hat, Hct.
  rewrite payload_baseElapsed, payload_sessionStartTs, payload_lapAnchorTs,
    payload_activeStartTs, payload_lastPauseTs,
    payload_activeTargetMinutes, payload_currentTargetMinutes by assumption.
  unfold restore_laps. rewrite get_laps_payload, laps_of_json_of_laps by exact Hlaps.
  repeat split.
Qed.

Lemma snapshot_round_trip_fields (a fresh : App) :
  numeric_targets a -> blank_cells fresh ->
  persisted (restore_v6 (payload a) fresh) = persisted a.
Proof.
  intros Hnum (Hs & Han & Hac & Hp & Hat & Hct).
  destruct (restore_v6_payload a fresh Hnum) as (H1 & H2 & H3 & H4 & H5 & H6 & H7 & H8).
  rewrite Hs, Han, Hac, Hp, Hat, Hct, !orelse_None in *.
  unfold persisted. rewrite H1, H2, H3, H4, H5, H6, H7, H8. reflexivity.
Qed.

(** X6. Every field the snapshot carries survives the round trip: the
    payload written for a state without [NaN] targets, restored into a
    component whose cells are still blank, gives back the ledger, the base
    of the elapsed time, the four anchors and both targets; the restored
    component is not running. *)
Theorem snapshot_round_trip :
  forall a fresh : App,
    numeric_targets a -> blank_cells fresh ->
    persisted (restore_v6 (payload a) fresh) = persisted a /\
    isRunning (restore_v6 (payload a) fresh) = isRunning fresh /\
    startedAtRef (restore_v6 (payload a) fresh) = startedAtRef fresh.
Proof.
  intros a fresh Hnum (Hs & Han & Hac & Hp & Hat & Hct).
  destruct (restore_v6_payload a fresh Hnum) as (H1 & H2 & H3 & H4 & H5 & H6 & H7 & H8).
  destruct (restore_v6_fields (payload a) fresh) as (_ & _ & _ & _ & _ & _ & _ & _ & Hrun & Hst & _).
  rewrite Hs, Han, Hac, Hp, Hat, Hct, !orelse_None in *.
  unfold persisted. rewrite H1, H2, H3, H4, H5, H6, H7, H8.
  split; [reflexivity |]. split; assumption.
Qed.

Lemma snapshot_round_trip_witness :
  persisted (restore_v6 (payload paused_session) initial_app) = persisted paused_session /\
  isRunning (restore_v6 (payload paused_session) initial_app) = false.
Proof.
  pose proof (snapshot_round_trip paused_session initial_app) as H.
  destruct H as (Hfields & Hrun & _).
  - repeat split; try discriminate. repeat constructor; discriminate.
  - repeat split.
  - split; [exact Hfields | exact Hrun].
Defined.

(** ** Page loads and the reload budget *)

Lemma persist_persist (a b : App) (s : Storage) :
  persist a (persist b s) = persist a s.
Proof.
  unfold persist. destruct (0 <? reloadsLeft a), (0 <? reloadsLeft b); reflexivity.
Qed.

Lemma persisted_render (now : Z) (a : App) : persisted (render now a) = persisted a.
Proof. destruct a. reflexivity. Qed.

Lemma as_target_numeric (v : option json) : as_target v <> Some NaN.
Proof. destruct v as [[] |]; discriminate. Qed.

Lemma laps_of_json_numeric (items : list json) :
  forall ls : list Lap, laps_of_json items = Some ls -> targets_are_numbers ls.
Proof.
  induction items as [| j items IH]; intros ls Hls; cbn [laps_of_json] in Hls.
  - injection Hls as <-. constructor.
  - destruct (lap_of_json j) as [l |] eqn:Hl; [| discriminate].
    destruct (laps_of_json items) as [ls' |]; [| discriminate].
    injection Hls as <-. constructor; [| apply IH; reflexivity].
    unfold lap_of_json in Hl.
    destruct (as_number (get "startTs" j)); [| discriminate].
    destruct (as_number (get "endTs" j)); [| discriminate].
    destruct (as_number (get "durationMs" j)); [| discriminate].
    injection Hl as <-. apply as_target_numeric.
Qed.

Lemma restore_laps_numeric (p : json) (a : App) :
  targets_are_numbers (laps a) -> targets_are_numbers (laps (restore_laps p a)).
Proof.
  intros Ha. unfold restore_laps.
  destruct (get "laps" p) as [[| | | | items |] |]; try exact Ha.
  destruct (laps_of_json items) as [ls |] eqn:Hls; [| exact Ha].
  cbn [laps set_laps]. apply (laps_of_json_numeric items). exact Hls.
Qed.

Lemma orelse_numeric (x y : option number) :
  x <> Some NaN -> y <> Some NaN -> orelse x y <> Some NaN.
Proof. destruct x; intros Hx Hy; [exact Hx | exact Hy]. Qed.

Lemma restore_v6_numeric (p : json) (a : App) :
  numeric_targets a -> numeric_targets (restore_v6 p a).
Proof.
  intros (Hl & Hat & Hct).
  destruct (restore_v6_fields p a) as (El & _ & _ & _ & _ & _ & Eat & Ect & _).
  unfold numeric_targets. rewrite El, Eat, Ect.
  split; [apply restore_laps_numeric; exact Hl |].
  split; apply orelse_numeric; try assumption; apply as_target_numeric.
Qed.

Lemma restore_v5_numeric (p : json) (a : App) :
  numeric_targets a -> numeric_targets (restore_v5 p a).
Proof.
  intros (Hl & Hat & Hct). unfold numeric_targets, restore_v5.
  split; [| split].
  - frame laps. cbn [laps set_lastPauseTsRef set_activeStartTsRef set_lapAnchorTsRef
                       set_sessionStartTsRef].
    frame laps. apply restore_laps_numeric. exact Hl.
  - frame activeTargetMinutesRef.
    cbn [activeTargetMinutesRef set_lastPauseTsRef set_activeStartTsRef
           set_lapAnchorTsRef set_sessionStartTsRef].
    frame activeTargetMinutesRef. exact Hat.
  - rewrite restore_target_hit.
    destruct (as_target (get "currentTargetMinutes" p)) as [t |] eqn:Ht.
    + cbn [currentTargetMinutes set_currentTargetMinutes]. rewrite <- Ht.
      apply as_target_numeric.
    + cbn [currentTargetMinutes set_lastPauseTsRef set_activeStartTsRef
             set_lapAnchorTsRef set_sessionStartTsRef].
      frame currentTargetMinutes. exact Hct.
Qed.

Lemma migrate_v4_numeric (legacy : json) (a : App) :
  numeric_targets a -> numeric_targets (migrate_v4 legacy a).
Proof.
  intros Ha. unfold migrate_v4.
  destruct (json_truthy legacy); [| exact Ha].
  destruct (get "segments" legacy) as [[| | | | segments |] |]; try exact Ha.
  unfold migrate_segments. destruct (existsb is_null segments); [exact Ha |].
  destruct Ha as (Hl & Hat & Hct). destruct a. unfold numeric_targets.
  timer_compute. timer_compute_in Hat. timer_compute_in Hct.
  split; [| split; assumption].
  apply Forall_forall. intros l Hin. apply in_map_iff in Hin as (seg & <- & _).
  apply as_target_numeric.
Qed.

Lemma restore_snapshot_numeric (s : Storage) (a a' : App) :
  numeric_targets a -> restore_snapshot s a = Some a' -> numeric_targets a'.
Proof.
  intros Ha. unfold restore_snapshot.
  destruct (state_v6 s) as [[| | parsed] |]; try discriminate; intros [= <-];
    try (destruct (json_truthy parsed); [apply restore_v6_numeric |]; exact Ha).
  all: destruct (state_v5 s) as [[| | v5] |]; try exact Ha;
    try (destruct (json_truthy v5); [apply restore_v5_numeric |]; exact Ha).
  all: destruct (state_v4 s) as [[| | legacy] |]; try exact Ha;
    apply migrate_v4_numeric; exact Ha.
Qed.

Lemma initial_numeric (k : Z) : numeric_targets (set_reloadsLeft k initial_app).
Proof. repeat split; try discriminate. constructor. Qed.

Lemma initial_blank (k : Z) : blank_cells (set_reloadsLeft k initial_app).
Proof. repeat split. Qed.

Lemma stored_left_counter (k : Z) (s : Storage) :
  stored_left (set_reloads_left_v6 (Some (toString k)) s) = k.
Proof.
  unfold stored_left. cbn [reloads_left_v6 set_reloads_left_v6].
  rewrite parseInt_printed. reflexivity.
Qed.

Lemma persisted_set_reloadsLeft (k : Z) (a : App) :
  persisted (set_reloadsLeft k a) = persisted a.
Proof. reflexivity. Qed.

Lemma numeric_set_reloadsLeft (k : Z) (a : App) :
  numeric_targets a -> numeric_targets (set_reloadsLeft k a).
Proof. intros H. exact H. Qed.

(** A load with a positive counter, the current-format text being absent,
    empty or a document. *)
Lemma page_load_eligible (now : Z) (s : Storage) :
  state_v6 s <> Some Garbled -> 0 < stored_left s ->
  exists a' : App,
    restore_snapshot s (set_reloadsLeft (stored_left s) initial_app) = Some a' /\
    app (page_load now s) = render now (set_reloadsLeft (stored_left s - 1) a') /\
    store (page_load now s)
    = persist (set_reloadsLeft (stored_left s - 1) a')
        (set_reloads_left_v6 (Some (toString (stored_left s - 1))) s).
Proof.
  intros Hparse Hpos. unfold page_load, restore, initial. cbn [app store].
  assert (Hltb : (0 <? stored_left s) = true) by (apply Z.ltb_lt; exact Hpos).
  rewrite Hltb.
  destruct (restore_snapshot s (set_reloadsLeft (stored_left s) initial_app))
    as [a' |] eqn:Hsnap.
  - exists a'. replace (Z.max 0 (stored_left s - 1)) with (stored_left s - 1) by lia.
    cbn [app store]. rewrite persist_persist. repeat split.
  - unfold restore_snapshot in Hsnap.
    destruct (state_v6 s) as [[| | parsed] |]; congruence.
Qed.

(** A load with the budget used up. *)
Lemma page_load_exhausted (now : Z) (s : Storage) :
  stored_left s <= 0 ->
  page_load now s
  = {| app := render now (set_reloadsLeft (stored_left s) initial_app);
       store := set_state_v6 None s |}.
Proof.
  intros Hle. unfold page_load, restore, initial. cbn [app store].
  assert (Hltb : (0 <? stored_left s) = false) by (apply Z.ltb_ge; exact Hle).
  rewrite Hltb. cbn [app store]. rewrite persist_persist.
  unfold persist. cbn [reloadsLeft set_reloadsLeft]. rewrite Hltb.
  destruct s; reflexivity.
Qed.

(** X7. One page load and the budget. With a positive stored counter
    (and a current-format text that parses, if there is one) the load
    leaves the counter one lower; the snapshot it leaves behind carries
    the state it restored as long as a reload remains, and is removed by
    the load that uses the last one. With the counter at zero the load
    restores nothing, removes the snapshot and leaves the counter. *)
Theorem page_load_budget :
  forall (now : Z) (s : Storage),
    state_v6 s <> Some Garbled ->
    let w := page_load now s in
    (0 < stored_left s ->
     stored_left (store w) = stored_left s - 1 /\
     (1 < stored_left s ->
      exists a : App,
        state_v6 (store w) = Some (Doc (payload a)) /\ persisted a = persisted (app w)) /\
     (stored_left s = 1 -> state_v6 (store w) = None)) /\
    (stored_left s <= 0 ->
     stored_left (store w) = stored_left s /\ state_v6 (store w) = None /\
     persisted (app w) = persisted initial_app).
Proof.
  intros now s Hparse w. subst w. split.
  - intros Hpos.
    destruct (page_load_eligible now s Hparse Hpos) as (a' & _ & Happ & Hstore).
    rewrite Hstore, Happ. rewrite stored_left_persist, stored_left_counter.
    split; [reflexivity |]. unfold persist. cbn [reloadsLeft set_reloadsLeft]. split.
    + intros Hmore. assert (Hltb : (0 <? stored_left s - 1) = true) by (apply Z.ltb_lt; lia).
      rewrite Hltb. eexists. split; [reflexivity |].
      rewrite persisted_render. reflexivity.
    + intros ->. reflexivity.
  - intros Hle. rewrite page_load_exhausted by exact Hle. cbn [app store].
    split; [destruct s; reflexivity |]. split; [reflexivity |].
    rewrite persisted_render. reflexivity.
Qed.

Lemma page_load_budget_witness :
  stored_left (store (page_load 0 mid_run_snapshot)) = 2 - 1 /\
  state_v6 (store (page_load 0 one_reload_left)) = None /\
  persisted (app (page_load 0 (store (page_load 0 one_reload_left))))
  = persisted initial_app.
Proof.
  pose proof (page_load_budget 0 mid_run_snapshot ltac:(discriminate)) as [Hfirst _].
  pose proof (page_load_budget 0 one_reload_left ltac:(discriminate)) as [Hlast _].
  pose proof (page_load_budget 0 (store (page_load 0 one_reload_left))
                ltac:(vm_compute; discriminate)) as [_ Hnone].
  split; [| split].
  - apply Hfirst. reflexivity.
  - apply Hlast; reflexivity.
  - apply Hnone. vm_compute. discriminate.
Defined.

(** X8. A budget of two: from a storage whose counter reads [MAX_RELOADS]
    (or is absent) and whose current-format text parses, the second load
    restores every persisted field as the first load had it and removes
    the snapshot; the third load finds the counter at zero, restores
    nothing and leaves no snapshot. *)
Theorem state_survives_two_reloads :
  forall (s : Storage) (n1 n2 n3 : Z),
    state_v6 s <> Some Garbled -> stored_left s = MAX_RELOADS ->
    let w1 := page_load n1 s in
    let w2 := page_load n2 (store w1) in
    let w3 := page_load n3 (store w2) in
    stored_left (store w1) = 1 /\
    persisted (app w2) = persisted (app w1) /\
    stored_left (store w2) = 0 /\ state_v6 (store w2) = None /\
    persisted (app w3) = persisted initial_app /\ state_v6 (store w3) = None /\
    stored_left (store w3) = 0.
Proof.
  intros s n1 n2 n3 Hparse Hleft w1 w2 w3.
  destruct (page_load_eligible n1 s Hparse ltac:(rewrite Hleft; reflexivity))
    as (a1 & Hsnap1 & Happ1 & Hstore1).
  rewrite Hleft in Hsnap1, Happ1, Hstore1. change (MAX_RELOADS - 1) with 1 in *.
  fold w1 in Happ1, Hstore1.
  assert (Hnum1 : numeric_targets (set_reloadsLeft 1 a1)).
  { apply numeric_set_reloadsLeft.
    apply (restore_snapshot_numeric s (set_reloadsLeft MAX_RELOADS initial_app));
      [apply initial_numeric | exact Hsnap1]. }
  assert (Hs1 : store w1
                = set_state_v6 (Some (Doc (payload (set_reloadsLeft 1 a1))))
                    (set_reloads_left_v6 (Some (toString 1)) s)).
  { rewrite Hstore1. reflexivity. }
  assert (Hleft1 : stored_left (store w1) = 1).
  { rewrite Hstore1, stored_left_persist. apply stored_left_counter. }
  destruct (page_load_eligible n2 (store w1)) as (a2 & Hsnap2 & Happ2 & Hstore2);
    [rewrite Hs1; discriminate | lia |].
  fold w2 in Happ2, Hstore2. rewrite Hleft1 in Hsnap2, Happ2, Hstore2.
  change (1 - 1) with 0 in *.
  assert (Ha2 : a2 = restore_v6 (payload (set_reloadsLeft 1 a1))
                       (set_reloadsLeft 1 initial_app)).
  { rewrite Hs1 in Hsnap2. unfold restore_snapshot in Hsnap2.
    cbn [state_v6 set_state_v6 payload json_truthy] in Hsnap2. congruence. }
  assert (Hleft2 : stored_left (store w2) = 0).
  { rewrite Hstore2, stored_left_persist. apply stored_left_counter. }
  assert (Hv2 : state_v6 (store w2) = None) by (rewrite Hstore2; reflexivity).
  pose proof (page_load_exhausted n3 (store w2) ltac:(lia)) as Hw3. fold w3 in Hw3.
  split; [exact Hleft1 |]. split.
  { rewrite Happ2, Happ1, !persisted_render, persisted_set_reloadsLeft, Ha2.
    apply snapshot_round_trip_fields; [exact Hnum1 | apply initial_blank]. }
  split; [exact Hleft2 |]. split; [exact Hv2 |].
  rewrite Hw3. cbn [app store]. rewrite persisted_render.
  split; [reflexivity |]. split; [reflexivity |].
  rewrite <- Hleft2. destruct (store w2). reflexivity.
Qed.

Lemma state_survives_two_reloads_witness :
  persisted (app (page_load 2 (store (page_load 1 mid_run_snapshot))))
  = persisted (app (page_load 1 mid_run_snapshot)) /\
  state_v6 (store (page_load 3 (store (page_load 2 (store (page_load 1 mid_run_snapshot))))))
  = None.
Proof.
  pose proof (state_survives_two_reloads mid_run_snapshot 1 2 3
                ltac:(discriminate) eq_refl) as (_ & Hsame & _ & _ & _ & Hgone & _).
  split; [exact Hsame | exact Hgone].
Defined.

(** ** Reset *)

(** X9. A reset that is allowed (the timer is not running). The handler
    blanks every field the snapshot carries, the running flag, the start
    of the run and both display guards, and sets the counter to
    [MAX_RELOADS]; it removes the stored snapshot and stores a full
    budget. The persist effect of the commit that follows (the ledger is a
    new array, so it runs) then writes the snapshot of the blank state:
    the storage settles with a blank snapshot and a counter of
    [MAX_RELOADS]. The legacy keys are not touched. (The memoised display
    values are recomputed by the renders that follow.) *)
Theorem reset_returns_to_fresh :
  forall w : World,
    isRunning (app w) = false ->
    let w' := handleReset w in
    (persisted (app w') = persisted initial_app /\
     isRunning (app w') = false /\ startedAtRef (app w') = None /\
     prevElapsedRef (app w') = 0 /\ prevRangeDurRef (app w') = 0 /\
     reloadsLeft (app w') = MAX_RELOADS) /\
    (state_v6 (store w') = None /\ stored_left (store w') = MAX_RELOADS) /\
    (state_v6 (persist (app w') (store w')) = Some (Doc (payload initial_app)) /\
     stored_left (persist (app w') (store w')) = MAX_RELOADS) /\
    (state_v5 (store w') = state_v5 (store w) /\ state_v4 (store w') = state_v4 (store w) /\
     state_v5 (persist (app w') (store w')) = state_v5 (store w) /\
     state_v4 (persist (app w') (store w')) = state_v4 (store w)).
Proof.
  intros [[run base started ls sess anchor active pause locked pending pe pr left el re dr] s]
         Hrun w'.
  timer_compute_in Hrun. subst run w'. unfold persisted, persist. timer_compute.
  destruct s as [counter v6 v5 v4].
  change (0 <? MAX_RELOADS) with true. timer_compute.
  repeat split.
Qed.

Lemma reset_returns_to_fresh_witness :
  let w' := handleReset {| app := paused_session; store := mid_run_snapshot |} in
  laps (app w') = [] /\ baseElapsed (app w') = 0 /\ reloadsLeft (app w') = 2 /\
  state_v6 (store w') = None /\
  state_v6 (persist (app w') (store w')) = Some (Doc (payload initial_app)) /\
  stored_left (persist (app w') (store w')) = 2.
Proof.
  pose proof (reset_returns_to_fresh {| app := paused_session; store := mid_run_snapshot |}
                eq_refl) as ((Hfields & _) & (Hremoved & _) & (Hblank & Hleft) & _).
  cbv zeta in Hfields, Hremoved, Hblank, Hleft |- *.
  split; [vm_compute; reflexivity |].
  split; [vm_compute; reflexivity |].
  split; [vm_compute; reflexivity |].
  split; [exact Hremoved |]. split; [exact Hblank | exact Hleft].
Defined.

(** ** Pausing and resuming *)

Lemma dispatch_base_within_display (e : event) (t : Z) (w : World) :
  base_within_display (app w) -> base_within_display (app (dispatch e t w)).
Proof.
  intros (Hr & Hb & Hp). split; [apply dispatch_rendered |].
  destruct w as [[run base started ls sess anchor active pause locked pending pe pr left el re dr] s].
  unfold rendered in Hr. timer_compute_in Hr. timer_compute_in Hb. timer_compute_in Hp.
  subst el.
  destruct e as [now | now [] | now | | raw v |]; destruct run;
    try specialize (Hp eq_refl); destruct sess, active, started;
    timer_compute; unfold rawElapsed; timer_compute;
    (split; [lia | intros; try discriminate; lia]).
Qed.

Lemma run_base_within_display (trace : list (event * Z)) (w : World) :
  base_within_display (app w) -> base_within_display (app (run trace w)).
Proof.
  revert w. induction trace as [| [e t] rest IH]; intros w Hw; [exact Hw |].
  apply IH. apply dispatch_base_within_display. exact Hw.
Qed.

Lemma initial_base_within_display (s : Storage) : base_within_display (app (initial s)).
Proof. repeat split; cbn; lia. Qed.

Lemma ticks_while_paused (clock : list Z) :
  forall w : World,
    base_within_display (app w) -> isRunning (app w) = false ->
    elapsed (app (run (map (fun t => (EvTick, t)) clock) w)) = elapsed (app w).
Proof.
  induction clock as [| t clock IH]; intros w Hw Hrun; [reflexivity |].
  cbn [map run fold_left fst snd].
  change (fold_left _ ?tr ?x) with (run tr x).
  assert (Hstep : elapsed (app (dispatch EvTick t w)) = elapsed (app w)
                  /\ isRunning (app (dispatch EvTick t w)) = false).
  { destruct Hw as (Hr & Hb & Hp). specialize (Hp Hrun).
    destruct w as [[run base started ls sess anchor active pause locked pending pe pr left el re dr] s].
    unfold rendered in Hr. timer_compute_in Hr. timer_compute_in Hp. timer_compute_in Hrun.
    subst. timer_compute. unfold rawElapsed. timer_compute.
    split; [lia | reflexivity]. }
  destruct Hstep as [Hel Hrun'].
  rewrite IH; [exact Hel | apply dispatch_base_within_display; exact Hw | exact Hrun'].
Qed.

Lemma ticks_keep_paused (clock : list Z) :
  forall w : World,
    isRunning (app w) = false ->
    isRunning (app (run (map (fun t => (EvTick, t)) clock) w)) = false.
Proof.
  induction clock as [| t clock IH]; intros w Hrun; [exact Hrun |].
  cbn [map run fold_left fst snd]. change (fold_left _ ?tr ?x) with (run tr x).
  apply IH. destruct w as [[]]. exact Hrun.
Qed.

(** X10. With the buttons, time spent paused is not counted. In any
    state reached from a fresh component through the events of [run] (the
    buttons, whose handlers are those of the latest render) in which the
    timer is paused, the displayed elapsed time stays what it is however
    long the pause lasts and whatever the clock reads; after a resume at
    [now] the display has advanced by exactly the time since [now]. (A
    pause with the space bar goes through the key listener, which may be
    an older one, and is treated apart.) *)
Theorem pause_exclusion :
  forall (s : Storage) (trace : list (event * Z)),
    let w := run trace (initial s) in
    isRunning (app w) = false ->
    (forall clock : list Z,
        elapsed (app (run (map (fun t => (EvTick, t)) clock) w)) = elapsed (app w)) /\
    (forall (clock : list Z) (now r t : Z),
        now <= r -> r <= t ->
        let paused := run (map (fun t' => (EvTick, t')) clock) w in
        elapsed (app (dispatch EvTick t (dispatch (EvStart now) r paused)))
        = elapsed (app w) + (t - now)).
Proof.
  intros s trace w Hrun.
  assert (Hw : base_within_display (app w))
    by (apply run_base_within_display, initial_base_within_display).
  split.
  - intros clock. apply ticks_while_paused; assumption.
  - intros clock now r t Hnr Hrt paused.
    assert (Hel : elapsed (app paused) = elapsed (app w))
      by (apply ticks_while_paused; assumption).
    assert (Hp : base_within_display (app paused))
      by (apply run_base_within_display; exact Hw).
    assert (Hrun' : isRunning (app paused) = false).
    { apply ticks_keep_paused. exact Hrun. }
    rewrite <- Hel. destruct Hp as (Hr & Hb & Hpz). specialize (Hpz Hrun').
    destruct paused as [[run base started ls sess anchor active pause locked pending pe pr left el re dr] s'].
    unfold rendered in Hr. timer_compute_in Hr. timer_compute_in Hpz.
    timer_compute_in Hrun'. subst.
    timer_compute. destruct sess; [destruct active |];
      timer_compute; unfold rawElapsed; timer_compute;
      unfold rawElapsed; timer_compute; lia.
Qed.

(** Run 3 s, pause, wait 5 s, resume, run 2 s: 5 s. *)
Lemma pause_exclusion_witness :
  let w := run [(EvStart 0, 0); (EvTick, 3000); (EvPause 3000 true, 3000)]
             (initial empty_storage) in
  elapsed (app (run (map (fun t => (EvTick, t)) [4000; 7999]) w)) = 3000 /\
  elapsed (app (dispatch EvTick 10000
                  (dispatch (EvStart 8000) 8000
                     (run (map (fun t => (EvTick, t)) [4000; 7999]) w))))
  = 3000 + (10000 - 8000).
Proof.
  pose proof (pause_exclusion empty_storage
                [(EvStart 0, 0); (EvTick, 3000); (EvPause 3000 true, 3000)] eq_refl)
    as [Hfrozen Hresume].
  split.
  - rewrite Hfrozen. reflexivity.
  - rewrite (Hresume [4000; 7999] 8000 8000 10000) by lia. reflexivity.
Defined.

(** ** The ledger and its anchors *)

Lemma chained_snoc (ls : list Lap) (l : Lap) :
  forall from : Z,
    chained from ls -> startTs l = chain_end from ls -> chained from (ls ++ [l]).
Proof.
  induction ls as [| x ls IH]; intros from Hch Hl.
  - cbn. split; [exact Hl | exact I].
  - destruct Hch as [Hx Hrest]. split; [exact Hx |]. apply IH; assumption.
Qed.

Lemma chain_end_snoc (ls : list Lap) (l : Lap) :
  forall from : Z, chain_end from (ls ++ [l]) = endTs l.
Proof. induction ls as [| x ls IH]; intros from; [reflexivity | apply IH]. Qed.

Lemma dispatch_anchors_follow_ledger (e : event) (t : Z) (w : World) :
  anchors_follow_ledger (app w) -> anchors_follow_ledger (app (dispatch e t w)).
Proof.
  destruct w as [[run base started ls sess anchor active pause locked pending pe pr left el re dr] s].
  unfold anchors_follow_ledger. intros Hinv. timer_compute_in Hinv.
  destruct sess as [s0 |];
    [destruct Hinv as (Hch & -> & ->) | destruct Hinv as (-> & -> & ->)];
    destruct e as [now | now eager | now | | raw v |]; destruct run;
    timer_compute; repeat split; try assumption; try reflexivity;
    rewrite ?chain_end_snoc; try reflexivity.
  apply chained_snoc; [exact Hch | reflexivity].
Qed.

Lemma run_anchors_follow_ledger (trace : list (event * Z)) (w : World) :
  anchors_follow_ledger (app w) -> anchors_follow_ledger (app (run trace w)).
Proof.
  revert w. induction trace as [| [e t] rest IH]; intros w Hw; [exact Hw |].
  apply IH. apply dispatch_anchors_follow_ledger. exact Hw.
Qed.

(** X11. The laps tile the session. In every state reached from a fresh
    component, the first lap starts at the session start, every other lap
    starts where the lap before it ended, and the open segment starts
    where the last lap ended (at the session start when there is none);
    before the first start the ledger is empty and no segment is open. *)
Theorem laps_tile_the_session :
  forall (s : Storage) (trace : list (event * Z)),
    let a := app (run trace (initial s)) in
    (forall s0 : Z,
        sessionStartTsRef a = Some s0 ->
        chained s0 (laps a) /\ activeStartTsRef a = Some (chain_end s0 (laps a))) /\
    (sessionStartTsRef a = None -> laps a = [] /\ activeRow 0 a = None).
Proof.
  intros s trace a.
  assert (Hinv : anchors_follow_ledger a).
  { apply run_anchors_follow_ledger. repeat split. }
  unfold anchors_follow_ledger in Hinv. split.
  - intros s0 Hs. rewrite Hs in Hinv. destruct Hinv as (Hch & Hact & _).
    split; assumption.
  - intros Hs. rewrite Hs in Hinv. destruct Hinv as (Hl & Hact & _).
    split; [exact Hl |]. unfold activeRow. rewrite Hact. reflexivity.
Qed.

Lemma laps_tile_the_session_witness :
  let a := app (run (pause_scenario ++ [(EvLap 20000, 20000)]) (initial empty_storage)) in
  chained 0 (laps a) /\ activeStartTsRef a = Some (chain_end 0 (laps a)) /\
  map startTs (laps a) = [0; 13000] /\ map endTs (laps a) = [13000; 20000] /\
  laps (app (run [(EvTick, 5)] (initial empty_storage))) = [].
Proof.
  pose proof (laps_tile_the_session empty_storage
                (pause_scenario ++ [(EvLap 20000, 20000)])) as [Hchain _].
  pose proof (laps_tile_the_session empty_storage [(EvTick, 5)]) as [_ Hnone].
  cbv zeta. destruct (Hchain 0 eq_refl) as [Hch Hact].
  split; [exact Hch |]. split; [exact Hact |].
  split; [vm_compute; reflexivity |]. split; [vm_compute; reflexivity |].
  apply Hnone. reflexivity.
Defined.

(** ** Nothing displayed is negative *)

Lemma dispatch_display_not_negative (e : event) (t : Z) (w : World) :
  display_not_negative (app w) -> display_not_negative (app (dispatch e t w)).
Proof.
  destruct w as [[run base started ls sess anchor active pause locked pending pe pr left el re dr] s].
  unfold display_not_negative. intros Hinv. timer_compute_in Hinv.
  destruct Hinv as (Hpe & -> & Hpr & -> & Hls).
  destruct e as [now | now eager | now | | raw v |]; destruct run;
    destruct sess as [s0 |]; destruct active; timer_compute;
    (split; [lia | split; [reflexivity | split; [lia | split; [reflexivity |]]]]);
    try exact Hls; try (constructor; fail).
  all: apply Forall_app; split; [exact Hls |]; constructor; [cbn; lia | constructor].
Qed.

Lemma run_display_not_negative (trace : list (event * Z)) (w : World) :
  display_not_negative (app w) -> display_not_negative (app (run trace w)).
Proof.
  revert w. induction trace as [| [e t] rest IH]; intros w Hw; [exact Hw |].
  apply IH. apply dispatch_display_not_negative. exact Hw.
Qed.

(** X12. In every state reached from a fresh component, whatever the
    clock does, the displayed elapsed time, the displayed range duration
    and the duration of every lap in the ledger and of the row of the open
    segment are not negative. *)
Theorem displayed_values_not_negative :
  forall (s : Storage) (trace : list (event * Z)) (now : Z),
    let a := app (run trace (initial s)) in
    0 <= elapsed a /\ 0 <= displayRangeDuration a /\
    Forall (fun l => 0 <= durationMs l) (laps a) /\
    (forall row : Lap, activeRow now a = Some row -> 0 <= durationMs row).
Proof.
  intros s trace now a.
  assert (Hinv : display_not_negative a).
  { apply run_display_not_negative.
    split; [cbn; lia |]. split; [reflexivity |]. split; [cbn; lia |].
    split; [reflexivity | constructor]. }
  destruct Hinv as (Hpe & Hel & Hpr & Hdr & Hls).
  split; [lia |]. split; [lia |]. split; [exact Hls |].
  intros row Hrow. unfold activeRow in Hrow.
  destruct (activeStartTsRef a); [| discriminate].
  injection Hrow as <-. cbn [durationMs]. lia.
Qed.

(** A clock that runs backwards throughout. *)
Lemma displayed_values_not_negative_witness :
  let a := app (run [(EvStart 9000, 8000); (EvTick, 7000); (EvLap 6000, 5000);
                     (EvPause 4000 true, 3000)] (initial empty_storage)) in
  exists row : Lap, activeRow 2000 a = Some row /\ 0 <= durationMs row.
Proof.
  pose proof (displayed_values_not_negative empty_storage
                [(EvStart 9000, 8000); (EvTick, 7000); (EvLap 6000, 5000);
                 (EvPause 4000 true, 3000)] 2000) as (_ & _ & _ & Hrow).
  cbv zeta. eexists. split; [vm_compute; reflexivity |].
  apply Hrow. vm_compute. reflexivity.
Defined.

(** ** The range *)

(** X13. The end of the range covers the latest activity: it exists
    exactly when a session has started, and then it is at least the end of
    every completed lap, at least the clock reading while the timer runs
    and at least the last pause while it is paused; and it is one of
    those, or the session start when there is none. *)
Theorem range_end_covers_activity :
  forall (now : Z) (a : App),
    (compute_rangeEnd now a = None <-> sessionStartTsRef a = None) /\
    (forall e : Z,
        compute_rangeEnd now a = Some e ->
        Forall (fun l => endTs l <= e) (laps a) /\
        (isRunning a = true -> now <= e) /\
        (isRunning a = false -> forall p, lastPauseTsRef a = Some p -> p <= e) /\
        (In e (map endTs (laps a)) \/ (isRunning a = true /\ e = now) \/
         (isRunning a = false /\ lastPauseTsRef a = Some e) \/
         sessionStartTsRef a = Some e)).
Proof.
  intros now a. unfold compute_rangeEnd.
  destruct (sessionStartTsRef a) as [s0 |].
  2:{ split; [split; reflexivity | discriminate]. }
  split.
  { split; [| discriminate].
    destruct (if isRunning a then Some now else lastPauseTsRef a);
      destruct (max_of (map endTs (laps a))); discriminate. }
  intros e He.
  destruct (max_of (map endTs (laps a))) as [m |] eqn:Hmax.
  - destruct (max_of_spec _ _ Hmax) as [Hin Hall].
    assert (Hcover : forall b, m <= b -> Forall (fun l => endTs l <= b) (laps a)).
    { intros b Hb. apply Forall_forall. intros l Hl.
      rewrite Forall_forall in Hall. specialize (Hall (endTs l) (in_map endTs _ _ Hl)).
      lia. }
    destruct (isRunning a).
    + injection He as <-. split; [apply Hcover; lia |]. split; [lia |].
      split; [discriminate |].
      destruct (Z.max_spec m now) as [[_ ->] | [_ ->]];
        [right; left; split; reflexivity | left; exact Hin].
    + destruct (lastPauseTsRef a) as [p |]; injection He as <-.
      * split; [apply Hcover; lia |]. split; [discriminate |].
        split; [intros _ p' [= <-]; lia |].
        destruct (Z.max_spec m p) as [[_ ->] | [_ ->]];
          [right; right; left; split; reflexivity | left; exact Hin].
      * split; [apply Hcover; lia |]. split; [discriminate |].
        split; [discriminate |]. left. exact Hin.
  - assert (Hnil : laps a = []).
    { destruct (laps a); [reflexivity | discriminate]. }
    rewrite Hnil. destruct (isRunning a).
    + injection He as <-. split; [constructor |]. split; [lia |].
      split; [discriminate |]. right. left. split; reflexivity.
    + destruct (lastPauseTsRef a) as [p |]; injection He as <-.
      * split; [constructor |]. split; [discriminate |].
        split; [intros _ p' [= <-]; lia |]. right. right. left. split; reflexivity.
      * split; [constructor |]. split; [discriminate |]. split; [discriminate |].
        right. right. right. reflexivity.
Qed.

Lemma range_end_covers_activity_witness :
  compute_rangeEnd 1700000130000 paused_session = Some 1700000125000 /\
  Forall (fun l => endTs l <= 1700000125000) (laps paused_session).
Proof.
  pose proof (range_end_covers_activity 1700000130000 paused_session) as [_ Hcover].
  split; [reflexivity |]. apply (Hcover 1700000125000 eq_refl).
Defined.

Lemma dispatch_range_rendered (e : event) (t : Z) (w : World) :
  displayRangeDuration (app (dispatch e t w)) = prevRangeDurRef (app (dispatch e t w)).
Proof.
  destruct w as [[run base started ls sess anchor active pause locked pending pe pr left el re dr] s].
  destruct e as [now | now eager | now | | raw v |]; destruct run, sess, active;
    timer_compute; reflexivity.
Qed.

Lemma dispatch_range_monotone (e : event) (t : Z) (w : World) :
  is_reset e = false ->
  displayRangeDuration (app w) = prevRangeDurRef (app w) ->
  displayRangeDuration (app w) <= displayRangeDuration (app (dispatch e t w)).
Proof.
  destruct w as [[run base started ls sess anchor active pause locked pending pe pr left el re dr] s].
  intros He Hw. timer_compute_in Hw. subst dr.
  destruct e as [now | now eager | now | | raw v |]; try discriminate;
    destruct run, sess, active; timer_compute; lia.
Qed.

Lemma range_reads_sorted (after : list (event * Z)) :
  forall w : World,
    displayRangeDuration (app w) = prevRangeDurRef (app w) ->
    forallb (fun er => negb (is_reset (fst er))) after = true ->
    Sorted Z.le (displayRangeDuration (app w) :: range_reads after w).
Proof.
  induction after as [| [e t] rest IH]; intros w Hw Hall.
  - constructor; constructor.
  - change (range_reads ((e, t) :: rest) w)
      with (displayRangeDuration (app (dispatch e t w))
              :: range_reads rest (dispatch e t w)).
    cbn [forallb fst] in Hall. apply andb_true_iff in Hall as [He Hrest].
    apply negb_true_iff in He. constructor.
    + apply IH; [apply dispatch_range_rendered | exact Hrest].
    + constructor. apply dispatch_range_monotone; assumption.
Qed.

Lemma run_range_rendered (trace : list (event * Z)) (w : World) :
  displayRangeDuration (app w) = prevRangeDurRef (app w) ->
  displayRangeDuration (app (run trace w)) = prevRangeDurRef (app (run trace w)).
Proof.
  revert w. induction trace as [| [e t] rest IH]; intros w Hw; [exact Hw |].
  apply IH. apply dispatch_range_rendered.
Qed.

(** X14. Until the first reset the displayed duration of the range never
    goes down: from any state reached from a fresh component without a
    reset, along any events but a reset and at any (also backward) clock
    readings, each displayed value is at least the one before. (A reset
    zeroes the guard cell, and the value on display is recomputed only
    when the range changes: the statement stops at the first reset.) *)
Theorem range_duration_monotone :
  forall (s : Storage) (before after : list (event * Z)),
    forallb (fun er => negb (is_reset (fst er))) before = true ->
    forallb (fun er => negb (is_reset (fst er))) after = true ->
    let w := run before (initial s) in
    Sorted Z.le (displayRangeDuration (app w) :: range_reads after w).
Proof.
  intros s before after _ Hall w. apply range_reads_sorted; [| exact Hall].
  apply run_range_rendered. reflexivity.
Qed.

Lemma range_duration_monotone_witness :
  Sorted Z.le
    (displayRangeDuration (app (run [(EvStart 20000, 20000)] (initial empty_storage)))
       :: range_reads [(EvTick, 25000); (EvTick, 15000);
                       (EvPause 14000 true, 14000); (EvStart 30000, 30000)]
            (run [(EvStart 20000, 20000)] (initial empty_storage))).
Proof.
  apply (range_duration_monotone empty_storage [(EvStart 20000, 20000)]
           [(EvTick, 25000); (EvTick, 15000);
            (EvPause 14000 true, 14000); (EvStart 30000, 30000)]).
  - reflexivity.
  - reflexivity.
Defined.

(** ** The key listener *)

Lemma page_step_in_sync (i : input) (t : Z) (p : Page) :
  listener_in_sync p -> listener_in_sync (page_step i t p).
Proof.
  intros [Hrun Hsum]. unfold listener_in_sync, page_step, register.
  cbn [world listener].
  match goal with
  | |- context [if ?c then _ else _] => destruct c eqn:Hc
  end; [| split; reflexivity].
  apply andb_true_iff in Hc as [Hb Hz].
  apply Bool.eqb_prop in Hb. apply Z.eqb_eq in Hz.
  split; congruence.
Qed.

Lemma render_redisplayed (t : Z) (a : App) : redisplayed a (render t a).
Proof.
  unfold redisplayed, render. do 3 eexists. split; [| reflexivity]. lia.
Qed.

Lemma redisplayed_trans (a b c : App) :
  redisplayed a b -> redisplayed b c -> redisplayed a c.
Proof.
  intros (x & y & z & Hx & ->) (x' & y' & z' & Hx' & ->).
  exists x', y', z'. destruct a. timer_compute_in Hx'. timer_compute_in Hx.
  split; [timer_compute; lia | reflexivity].
Qed.

Lemma tick_page (t : Z) (p : Page) :
  page_step (Button EvTick) t p
  = {| world := on_app (render t) (world p); listener := listener p |}.
Proof.
  unfold page_step, register. cbn [dispatch handle].
  destruct p as [[a s] l]. cbn [world listener app on_app].
  replace (isRunning (render t a)) with (isRunning a) by (destruct a; reflexivity).
  replace (laps (render t a)) with (laps a) by (destruct a; reflexivity).
  rewrite Bool.eqb_reflx, Z.eqb_refl. reflexivity.
Qed.

Lemma ticks_page (clock : list Z) :
  forall p : Page,
    let p' := page_run (ticks clock) p in
    listener p' = listener p /\ store (world p') = store (world p) /\
    (app (world p') = app (world p) \/ redisplayed (app (world p)) (app (world p'))).
Proof.
  induction clock as [| t clock IH]; intros p; [repeat split; left; reflexivity |].
  cbn [ticks map page_run fold_left fst snd].
  change (fold_left _ ?tr ?x) with (page_run tr x). fold (ticks clock).
  rewrite tick_page.
  destruct (IH {| world := on_app (render t) (world p); listener := listener p |})
    as (Hl & Hs & Ha).
  cbn [world listener] in Hl, Hs, Ha. cbv zeta.
  split; [exact Hl |]. split; [rewrite Hs; destruct (world p); reflexivity |].
  right. destruct (world p) as [a s]. cbn [app on_app] in *.
  destruct Ha as [-> | Ha]; [apply render_redisplayed |].
  eapply redisplayed_trans; [apply render_redisplayed | exact Ha].
Qed.

Lemma page_run_cons (i : input) (t : Z) (trace : list (input * Z)) (p : Page) :
  page_run ((i, t) :: trace) p = page_run trace (page_step i t p).
Proof. reflexivity. Qed.

(** X15. A lap cut with the L key. The listener that handles the key is
    the one registered when the timer was started, and its [handleLap]
    reads the elapsed time displayed by that render. After a start at [t0]
    (first rendered at [r0]) and any number of ticks, the lap cut with the
    key records [max(0, r0 - t0)] as its duration, whatever the display
    has reached; the lap cut with the button records the displayed elapsed
    time. Start, end and target of the two laps are the same. *)
Theorem key_lap_reads_registration_render :
  forall (s : Storage) (t0 r0 : Z) (clock : list Z) (t1 r1 : Z) (eager : bool),
    let p0 := page_run ((Button (EvStart t0), r0) :: ticks clock) (fresh_page s) in
    laps (app (world (page_step (KeyDown KeyL false t1 eager) r1 p0)))
    = [ {| startTs := t0; endTs := t1; durationMs := Z.max 0 (r0 - t0);
           targetMinutes := None |} ] /\
    laps (app (world (page_step (Button (EvLap t1)) r1 p0)))
    = [ {| startTs := t0; endTs := t1; durationMs := elapsed (app (world p0));
           targetMinutes := None |} ] /\
    Z.max 0 (r0 - t0) <= elapsed (app (world p0)).
Proof.
  intros s t0 r0 clock t1 r1 eager p0.
  pose (p1 := page_step (Button (EvStart t0)) r0 (fresh_page s)).
  assert (Hp0 : p0 = page_run (ticks clock) p1) by apply page_run_cons.
  clearbody p0.
  destruct (ticks_page clock p1) as (Hl & _ & Ha). rewrite <- Hp0 in Hl, Ha.
  clear Hp0.
  assert (Hl1 : listener p1 = app (world p1)) by (subst p1; page_compute; reflexivity).
  assert (Hlis : listener p0 = app (world p1)) by (rewrite Hl; exact Hl1).
  assert (Happ : exists x y z,
             Z.max 0 (r0 - t0) <= x /\
             app (world p0)
             = app (world p1) |> set_prevElapsedRef x |> set_elapsed x |> set_rangeEnd y
                 |> set_prevRangeDurRef z |> set_displayRangeDuration z).
  { destruct Ha as [-> | (x & y & z & Hx & ->)].
    - do 3 eexists. split; [| subst p1; page_compute; reflexivity].
      subst p1. page_compute. unfold rawElapsed. page_compute. lia.
    - exists x, y, z. split; [| reflexivity].
      revert Hx. subst p1. page_compute. unfold rawElapsed. page_compute. lia. }
  destruct Happ as (x & y & z & Hx & Happ).
  destruct p0 as [[a0 s0] l0]. cbn [world listener app] in Hlis, Happ |- *.
  clear Hl Ha Hl1. subst l0 a0. subst p1. page_compute.
  unfold rawElapsed. page_compute.
  change (lapsAccumulatedMs []) with 0. cbn [Datatypes.app].
  replace (Z.max 0 (Z.max 0 (0 + (r0 - t0)) - 0)) with (Z.max 0 (r0 - t0)) by lia.
  replace (Z.max 0 (x - 0)) with x by lia.
  split; [reflexivity |]. split; [reflexivity | exact Hx].
Qed.

Lemma key_lap_reads_registration_render_witness :
  map durationMs
    (laps (app (world
       (page_step (KeyDown KeyL false 60000 true) 60000
          (page_run ((Button (EvStart 0), 4) :: ticks [50; 30000; 60000])
             (fresh_page empty_storage))))))
  = [4] /\
  map durationMs
    (laps (app (world
       (page_step (Button (EvLap 60000)) 60000
          (page_run ((Button (EvStart 0), 4) :: ticks [50; 30000; 60000])
             (fresh_page empty_storage))))))
  = [60000].
Proof.
  pose proof (key_lap_reads_registration_render empty_storage 0 4 [50; 30000; 60000]
                60000 60000 true) as (Hkey & Hbutton & _).
  cbv zeta in Hkey, Hbutton. rewrite Hkey, Hbutton.
  split; [reflexivity | vm_compute; reflexivity].
Defined.

(** X16. The first start with the space bar. Entering a target changes
    neither [isRunning] nor [lapsAccumulatedMs], so the key listener stays
    the one of the first render, whose [handleStart] reads the pending
    target of that render: after a target is entered on a fresh page, a
    start with the space bar locks no target for lap 1, where a start with
    the button locks the target entered. The pending target itself is the
    one entered in both cases, and locks at the next cut by button. *)
Theorem key_start_locks_first_render_target :
  forall (s : Storage) (raw : jsstring) (v : option float) (t now r : Z) (eager : bool),
    let p := page_step (Button (EvPreset raw v)) t (fresh_page s) in
    let by_key := page_step (KeyDown KeySpace false now eager) r p in
    let by_button := page_step (Button (EvStart now)) r p in
    activeTargetMinutesRef (app (world by_key)) = None /\
    activeTargetMinutesRef (app (world by_button)) = computePresetFromInput raw v /\
    isRunning (app (world by_key)) = true /\ isRunning (app (world by_button)) = true /\
    currentTargetMinutes (app (world by_key)) = computePresetFromInput raw v /\
    listener by_key = app (world by_key).
Proof.
  intros s raw v t now r eager p by_key by_button.
  subst by_key by_button p. page_compute.
  change (lapsAccumulatedMs []) with 0. cbn [Bool.eqb Z.eqb andb].
  page_compute. repeat split.
Qed.

(** ** Typing and other keys *)

Lemma fresh_page_in_sync (s : Storage) : listener_in_sync (fresh_page s).
Proof. split; reflexivity. Qed.

Lemma page_run_in_sync (trace : list (input * Z)) :
  forall p : Page, listener_in_sync p -> listener_in_sync (page_run trace p).
Proof.
  induction trace as [| [i t] trace IH]; intros p Hp; [exact Hp |].
  rewrite page_run_cons. apply IH, page_step_in_sync. exact Hp.
Qed.

(** X17. On every page reached from a fresh one by buttons and keys: a
    key pressed while an input has the focus, and any key but the space
    bar, L and R, changes nothing; L while the timer is not running and R
    while it runs change nothing either; the space bar always flips the
    running flag. (The listener may be an old one, but its [isRunning] is
    the current one.) *)
Theorem key_guards :
  forall (s : Storage) (trace : list (input * Z)) (k : key) (now : Z) (eager : bool),
    let p := page_run trace (fresh_page s) in
    isRunning (listener p) = isRunning (app (world p)) /\
    onKey (listener p) k true now eager (world p) = world p /\
    onKey (listener p) KeyOther false now eager (world p) = world p /\
    (isRunning (app (world p)) = false ->
     onKey (listener p) KeyL false now eager (world p) = world p) /\
    (isRunning (app (world p)) = true ->
     onKey (listener p) KeyR false now eager (world p) = world p) /\
    isRunning (app (onKey (listener p) KeySpace false now eager (world p)))
    = negb (isRunning (app (world p))).
Proof.
  intros s trace k now eager p.
  assert (Hsync : listener_in_sync p)
    by (apply page_run_in_sync, fresh_page_in_sync).
  clearbody p. destruct p as [[a st] l]. destruct Hsync as [Hrun _].
  cbn [world listener app] in *.
  unfold onKey. rewrite Hrun.
  split; [reflexivity |]. split; [reflexivity |]. split; [reflexivity |].
  split; [intros ->; reflexivity |]. split; [intros ->; reflexivity |].
  unfold handlePause_from, handleStart_from. rewrite Hrun.
  destruct a as [run base started ls sess anchor active pause locked pending pe pr left el re dr].
  cbn [isRunning]. destruct run, sess, active; reflexivity.
Qed.

Lemma key_guards_witness :
  onKey initial_app KeyL false 5 true (initial empty_storage) = initial empty_storage /\
  isRunning (app (onKey initial_app KeySpace false 5 true (initial empty_storage))) = true.
Proof.
  pose proof (key_guards empty_storage [] KeyL 5 true) as (_ & _ & _ & Hlap & _ & Hspace).
  split; [apply Hlap; reflexivity | exact Hspace].
Defined.

(** ** The readout *)

Lemma two_digits_below_100 :
  forallb (fun n => Nat.eqb (String.length (padStart2 (toString (Z.of_nat n)))) 2)
    (seq 0 100) = true.
Proof. vm_compute. reflexivity. Qed.

Lemma padStart2_two_digits (z : Z) :
  0 <= z < 100 -> String.length (padStart2 (toString z)) = 2%nat.
Proof.
  intros Hz. pose proof two_digits_below_100 as Hall.
  rewrite forallb_forall in Hall.
  specialize (Hall (Z.to_nat z)). rewrite Z2Nat.id in Hall by lia.
  apply Nat.eqb_eq, Hall. apply in_seq. lia.
Qed.

Lemma string_length_app (s1 s2 : string) :
  String.length (s1 ++ s2) = (String.length s1 + String.length s2)%nat.
Proof. induction s1 as [| c s1 IH]; cbn; [reflexivity | rewrite IH; reflexivity]. Qed.

(** X18. For a duration that is not negative, the four fields of
    [msToHMS] are the hours, minutes, seconds and hundredths of the
    duration: minutes and seconds below 60, hundredths below 100, and
    together they account for the duration up to the last 10 ms. Minutes,
    seconds and hundredths always have two digits; below 100 hours the
    hours have two digits too and [fmtHMS] has eight characters. *)
Theorem msToHMS_decomposes :
  forall ms : Z,
    0 <= ms ->
    exists h m sec c : Z,
      hh (msToHMS ms) = padStart2 (toString h) /\
      mm (msToHMS ms) = padStart2 (toString m) /\
      ss (msToHMS ms) = padStart2 (toString sec) /\
      cs (msToHMS ms) = padStart2 (toString c) /\
      0 <= h /\ 0 <= m < 60 /\ 0 <= sec < 60 /\ 0 <= c < 100 /\
      h * 3600000 + m * 60000 + sec * 1000 + c * 10 <= ms
        < h * 3600000 + m * 60000 + sec * 1000 + c * 10 + 10 /\
      String.length (mm (msToHMS ms)) = 2%nat /\
      String.length (ss (msToHMS ms)) = 2%nat /\
      String.length (cs (msToHMS ms)) = 2%nat /\
      (ms < 360000000 ->
       String.length (hh (msToHMS ms)) = 2%nat /\ String.length (fmtHMS ms) = 8%nat).
Proof.
  intros ms Hms. unfold fmtHMS, msToHMS, js_rem. cbn [hh mm ss cs].
  assert (Hsec : 0 <= ms / 1000) by (apply Z.div_pos; lia).
  rewrite (Z.rem_mod_nonneg (ms / 1000) 3600), (Z.rem_mod_nonneg (ms / 1000) 60),
    (Z.rem_mod_nonneg ms 1000) by lia.
  exists (ms / 1000 / 3600), ((ms / 1000) mod 3600 / 60), ((ms / 1000) mod 60),
    (ms mod 1000 / 10).
  assert (Hm : 0 <= (ms / 1000) mod 3600 / 60 < 60)
    by (Z.to_euclidean_division_equations; lia).
  assert (Hs : 0 <= (ms / 1000) mod 60 < 60)
    by (Z.to_euclidean_division_equations; lia).
  assert (Hc : 0 <= ms mod 1000 / 10 < 100)
    by (Z.to_euclidean_division_equations; lia).
  repeat (split; [reflexivity |]).
  split; [Z.to_euclidean_division_equations; lia |].
  split; [exact Hm |]. split; [exact Hs |]. split; [exact Hc |].
  split; [Z.to_euclidean_division_equations; lia |].
  split; [apply padStart2_two_digits; lia |].
  split; [apply padStart2_two_digits; lia |].
  split; [apply padStart2_two_digits; lia |].
  intros Hlt. assert (Hh : 0 <= ms / 1000 / 3600 < 100)
    by (Z.to_euclidean_division_equations; lia).
  rewrite !string_length_app, !padStart2_two_digits by lia.
  split; reflexivity.
Qed.

(** The self-tests of lines 446-448. *)
Lemma msToHMS_decomposes_witness :
  fmtHMS 3661000 = "01:01:01"%string /\ String.length (fmtHMS 3661000) = 8%nat /\
  String.length (cs (msToHMS 61500)) = 2%nat.
Proof.
  destruct (msToHMS_decomposes 3661000 ltac:(lia))
    as (h & m & sec & c & _ & _ & _ & _ & _ & _ & _ & _ & _ & _ & _ & _ & Hlen).
  destruct (msToHMS_decomposes 61500 ltac:(lia))
    as (h' & m' & sec' & c' & _ & _ & _ & _ & _ & _ & _ & _ & _ & _ & _ & Hcs & _).
  split; [reflexivity |]. split; [apply Hlen; lia | exact Hcs].
Defined.

(** ** The lines of the export *)

Lemma count_lf_app (s1 s2 : string) :
  count_lf (s1 ++ s2) = (count_lf s1 + count_lf s2)%nat.
Proof.
  induction s1 as [| c s1 IH]; cbn [count_lf String.append]; [reflexivity |].
  rewrite IH. lia.
Qed.

Lemma count_lf_digits (u : Decimal.uint) : count_lf (NilEmpty.string_of_uint u) = O.
Proof. induction u; cbn; auto. Qed.

Lemma count_lf_toString (z : Z) : count_lf (toString z) = O.
Proof.
  unfold toString, NilZero.string_of_int.
  destruct (Z.to_int z) as [u | u]; unfold NilZero.string_of_uint.
  - destruct u; try reflexivity; apply count_lf_digits.
  - cbn [count_lf Ascii.eqb Bool.eqb Nat.add].
    destruct u; try reflexivity; apply count_lf_digits.
Qed.

Lemma count_lf_padStart2 (s : string) : count_lf s = O -> count_lf (padStart2 s) = O.
Proof.
  intros H. unfold padStart2.
  destruct (String.length s) as [| [| n]]; [reflexivity | | exact H].
  rewrite count_lf_app, H. reflexivity.
Qed.

Lemma count_lf_fmtHMS (ms : Z) : count_lf (fmtHMS ms) = O.
Proof.
  unfold fmtHMS, msToHMS. cbn [hh mm ss].
  rewrite !count_lf_app, !count_lf_padStart2 by apply count_lf_toString.
  reflexivity.
Qed.

Lemma count_lf_utc_hhmm (ts : Z) : count_lf (utc_hhmm ts) = O.
Proof.
  unfold utc_hhmm.
  rewrite !count_lf_app, !count_lf_padStart2 by apply count_lf_toString.
  reflexivity.
Qed.

Lemma count_lf_join (lines : list string) :
  Forall (fun l => count_lf l = O) lines ->
  count_lf (join_lines lines) = pred (List.length lines).
Proof.
  unfold join_lines. induction 1 as [| l ls Hl Hls IH]; [reflexivity |].
  cbn [String.concat List.length pred]. destruct ls as [| l' ls']; [exact Hl |].
  rewrite !count_lf_app, Hl, IH. reflexivity.
Qed.

Lemma lf_free_lap_lines (fmtRange : Z -> string) (ls : list Lap) :
  (forall ts, count_lf (fmtRange ts) = O) ->
  forall n : Z, Forall (fun l => count_lf l = O) (spec_lap_lines fmtRange n ls).
Proof.
  intros Hfmt. induction ls as [| l ls IH]; intros n; cbn [spec_lap_lines];
    constructor; [| apply IH].
  rewrite !count_lf_app, !Hfmt, !count_lf_toString. reflexivity.
Qed.

Lemma lf_free_total_lines (fmtRange : Z -> string) (range : option (Z * Z)) (d : Z) :
  (forall ts, count_lf (fmtRange ts) = O) ->
  Forall (fun l => count_lf l = O) (spec_total_lines fmtRange range d).
Proof.
  intros Hfmt. destruct range as [[s e] |]; cbn [spec_total_lines];
    repeat constructor.
  rewrite !count_lf_app, !Hfmt, count_lf_fmtHMS. reflexivity.
Qed.

(** X19. The export has as many lines as the self-test of lines 468-469
    expects: for N >= 1 completed laps, and a time formatter that prints no
    line feed, the text has N - 1 line feeds without the range and N + 1
    with it, that is N lines, or N + 2 with the empty line and the
    total. *)
Theorem export_line_count :
  forall (fmtRange : Z -> string) (ls : list Lap) (rs re rd : option Z),
    (forall ts : Z, count_lf (fmtRange ts) = O) ->
    ls <> [] ->
    S (count_lf (buildTextSummary fmtRange ls rs re rd))
    = (List.length ls + if truthy rs && truthy re then 2 else 0)%nat.
Proof.
  intros fmtRange ls rs re rd Hfmt Hls.
  rewrite buildTextSummary_spec by exact Hls.
  rewrite count_lf_join.
  - rewrite length_app, spec_lap_lines_length. unfold printed_range.
    destruct ls as [| l ls]; [congruence |].
    destruct (truthy rs && truthy re); cbn [spec_total_lines List.length]; lia.
  - apply Forall_app. split;
      [apply lf_free_lap_lines | apply lf_free_total_lines]; exact Hfmt.
Qed.

Lemma export_line_count_witness :
  S (count_lf (buildTextSummary utc_hhmm fakeLaps (Some 1700000000000)
                 (Some 1700000120000) (Some 120000))) = 4%nat.
Proof.
  rewrite (export_line_count utc_hhmm fakeLaps (Some 1700000000000)
             (Some 1700000120000) (Some 120000) count_lf_utc_hhmm);
    [reflexivity | discriminate].
Defined.

(** ** Which snapshot is read *)

(** X20. The formats are tried in order and never mixed: when there is a
    current-format text that is not empty, the legacy keys play no part in
    what is restored, even when that text holds nothing to restore; when
    there is none but a v5 text that is not empty, the v4 key plays no
    part, and a v5 text that does not parse restores nothing at all. No
    load, no snapshot written and no reset changes the legacy keys. *)
Theorem format_precedence :
  forall (s s' : Storage) (a : App),
    (state_v6 s = state_v6 s' -> state_v6 s <> None -> state_v6 s <> Some Empty ->
     restore_snapshot s a = restore_snapshot s' a) /\
    (state_v6 s = state_v6 s' -> state_v5 s = state_v5 s' ->
     state_v5 s <> None -> state_v5 s <> Some Empty ->
     restore_snapshot s a = restore_snapshot s' a) /\
    ((state_v6 s = None \/ state_v6 s = Some Empty) -> state_v5 s = Some Garbled ->
     restore_snapshot s a = Some a) /\
    (forall w : World,
        state_v5 (store (restore w)) = state_v5 (store w) /\
        state_v4 (store (restore w)) = state_v4 (store w) /\
        state_v5 (persist a (store w)) = state_v5 (store w) /\
        state_v4 (persist a (store w)) = state_v4 (store w) /\
        state_v5 (store (handleReset w)) = state_v5 (store w) /\
        state_v4 (store (handleReset w)) = state_v4 (store w)).
Proof.
  intros s s' a. unfold restore_snapshot. split; [| split; [| split]].
  - intros H6 Hn He. rewrite <- H6.
    destruct (state_v6 s) as [[| | parsed] |]; congruence.
  - intros H6 H5 Hn He. rewrite <- H6, <- H5.
    destruct (state_v6 s) as [[| | parsed] |]; try reflexivity;
      destruct (state_v5 s) as [[| | v5] |]; congruence.
  - intros [-> | ->] ->; reflexivity.
  - intros [a0 st]. unfold restore, persist, handleReset. cbn [app store].
    destruct (0 <? stored_left st);
      [destruct (restore_snapshot st (set_reloadsLeft (stored_left st) a0)) |];
      destruct (0 <? reloadsLeft a); destruct (isRunning a0);
      destruct st; repeat split.
Qed.

Lemma format_precedence_witness :
  restore_snapshot
    {| reloads_left_v6 := None; state_v6 := Some (Doc JNull);
       state_v5 := None; state_v4 := state_v4 v4_storage |} initial_app
  = restore_snapshot
      {| reloads_left_v6 := None; state_v6 := Some (Doc JNull);
         state_v5 := None; state_v4 := None |} initial_app /\
  restore_snapshot
    {| reloads_left_v6 := None; state_v6 := None;
       state_v5 := Some Garbled; state_v4 := state_v4 v4_storage |} initial_app
  = Some initial_app.
Proof.
  pose proof (format_precedence
                {| reloads_left_v6 := None; state_v6 := Some (Doc JNull);
                   state_v5 := None; state_v4 := state_v4 v4_storage |}
                {| reloads_left_v6 := None; state_v6 := Some (Doc JNull);
                   state_v5 := None; state_v4 := None |} initial_app)
    as (Hcurrent & _).
  pose proof (format_precedence
                {| reloads_left_v6 := None; state_v6 := None;
                   state_v5 := Some Garbled; state_v4 := state_v4 v4_storage |}
                empty_storage initial_app)
    as (_ & _ & Hgarbled & _).
  split.
  - apply Hcurrent; [reflexivity | discriminate | discriminate].
  - apply Hgarbled; [left |]; reflexivity.
Defined.

(** ** Migration of the v5 format *)

Lemma orelse_orelse {A : Type} (x y : option A) : orelse (orelse x y) y = orelse x y.
Proof. destruct x, y; reflexivity. Qed.

(** X21. On a load with a positive counter, no current-format text and a
    v5 document, the session start and the last pause are taken from the
    document and become [null] when it has none; the lap anchor falls
    back on the session start and the open segment starts at the lap
    anchor; the ledger is restored as for the current format; the target
    locked for the open segment, which v5 does not store, is left as it
    is; and the load is counted. *)
Theorem v5_migration :
  forall (a : App) (s : Storage) (v5 : json),
    0 < stored_left s -> state_v6 s = None -> state_v5 s = Some (Doc v5) ->
    json_truthy v5 = true ->
    let a' := app (restore {| app := a; store := s |}) in
    sessionStartTsRef a' = as_number (get "sessionStartTs" v5) /\
    lapAnchorTsRef a'
    = orelse (as_number (get "lapAnchorTs" v5)) (as_number (get "sessionStartTs" v5)) /\
    activeStartTsRef a' = lapAnchorTsRef a' /\
    lastPauseTsRef a' = as_number (get "lastPauseTs" v5) /\
    activeTargetMinutesRef a' = activeTargetMinutesRef a /\
    laps a' = laps (restore_laps v5 a) /\
    reloadsLeft a' = stored_left s - 1.
Proof.
  intros a s v5 Hleft H6 H5 Htruthy a'.
  assert (Ha' : a' = set_reloadsLeft (Z.max 0 (stored_left s - 1))
                       (restore_v5 v5 (set_reloadsLeft (stored_left s) a))).
  { subst a'. unfold restore. cbn [app store].
    apply Z.ltb_lt in Hleft. rewrite Hleft.
    unfold restore_snapshot. rewrite H6, H5, Htruthy. reflexivity. }
  rewrite Ha'. clear Ha' a'. unfold restore_v5.
  replace (Z.max 0 (stored_left s - 1)) with (stored_left s - 1) by lia.
  split; [cbn [sessionStartTsRef set_reloadsLeft]; frame sessionStartTsRef; reflexivity |].
  split; [cbn [lapAnchorTsRef set_reloadsLeft]; frame lapAnchorTsRef; reflexivity |].
  split; [cbn [activeStartTsRef lapAnchorTsRef set_reloadsLeft];
          frame activeStartTsRef; frame lapAnchorTsRef;
          cbn [activeStartTsRef lapAnchorTsRef set_lastPauseTsRef set_activeStartTsRef];
          apply orelse_orelse |].
  split; [cbn [lastPauseTsRef set_reloadsLeft]; frame lastPauseTsRef; reflexivity |].
  split; [cbn [activeTargetMinutesRef set_reloadsLeft]; frame activeTargetMinutesRef;
          cbn [activeTargetMinutesRef set_lastPauseTsRef set_activeStartTsRef
                 set_lapAnchorTsRef set_sessionStartTsRef];
          frame activeTargetMinutesRef; destruct a; reflexivity |].
  split; [cbn [laps set_reloadsLeft]; frame laps;
          cbn [laps set_lastPauseTsRef set_activeStartTsRef set_lapAnchorTsRef
                 set_sessionStartTsRef];
          frame laps; unfold restore_laps;
          destruct (get "laps" v5) as [[| | | | items |] |]; try (destruct a; reflexivity);
          destruct (laps_of_json items); destruct a; reflexivity |].
  reflexivity.
Qed.

Lemma v5_migration_witness :
  let a' := app (restore {| app := initial_app; store := v5_storage |}) in
  sessionStartTsRef a' = Some 1000 /\ lapAnchorTsRef a' = Some 1000 /\
  activeStartTsRef a' = lapAnchorTsRef a' /\ lastPauseTsRef a' = Some 5000.
Proof.
  pose proof (v5_migration initial_app v5_storage
                (JObj [("laps", JArr []); ("baseElapsed", JNum 4000);
                       ("sessionStartTs", JNum 1000);
                       ("lastPauseTs", JNum 5000)]%string)
                ltac:(vm_compute; reflexivity) eq_refl eq_refl eq_refl)
    as (Hs & Han & Hact & Hp & _).
  cbv zeta in *. rewrite Hs, Han, Hp. split; [reflexivity |].
  split; [reflexivity |]. split; [rewrite Hact, Han; reflexivity | reflexivity].
Defined.

(** ** The target lock and the keys *)

(** C5, with the keys. The key listener is registered again only when
    [isRunning] or [lapsAccumulatedMs] change, and entering a target
    changes neither: the [handleLap] behind the L key still reads the
    pending target of the render that registered it. A target is entered,
    the timer is started with the button, and a second target is entered
    while lap 1 is open. The lap then cut records the first target, as it
    should; but the cut with the L key locks the first target again for
    lap 2, where the cut with the button locks the second, pending one. *)
Theorem key_cut_locks_registration_target :
  forall (s : Storage) (raw1 raw2 : jsstring) (v1 v2 : option float)
         (t1 t0 r0 : Z) (clock : list Z) (t2 now r : Z) (eager : bool),
    let p0 := page_run ((Button (EvPreset raw1 v1), t1) :: (Button (EvStart t0), r0)
                          :: ticks clock) (fresh_page s) in
    let p1 := page_step (Button (EvPreset raw2 v2)) t2 p0 in
    let by_key := page_step (KeyDown KeyL false now eager) r p1 in
    let by_button := page_step (Button (EvLap now)) r p1 in
    (currentTargetMinutes (app (world p1)) = computePresetFromInput raw2 v2 /\
     activeTargetMinutesRef (app (world p1)) = computePresetFromInput raw1 v1) /\
    (map targetMinutes (laps (app (world by_key))) = [computePresetFromInput raw1 v1] /\
     activeTargetMinutesRef (app (world by_key)) = computePresetFromInput raw1 v1 /\
     currentTargetMinutes (app (world by_key)) = computePresetFromInput raw2 v2) /\
    (map targetMinutes (laps (app (world by_button))) = [computePresetFromInput raw1 v1] /\
     activeTargetMinutesRef (app (world by_button)) = computePresetFromInput raw2 v2) /\
    (computePresetFromInput raw1 v1 <> computePresetFromInput raw2 v2 ->
     activeTargetMinutesRef (app (world by_key))
     <> currentTargetMinutes (app (world by_key))).
Proof.
  intros s raw1 raw2 v1 v2 t1 t0 r0 clock t2 now r eager p0 p1 by_key by_button.
  pose (pA := page_step (Button (EvStart t0)) r0
                (page_step (Button (EvPreset raw1 v1)) t1 (fresh_page s))).
  assert (Hp0 : p0 = page_run (ticks clock) pA)
    by (unfold p0, pA; rewrite 2 page_run_cons; reflexivity).
  clearbody p0.
  destruct (ticks_page clock pA) as (Hl & _ & Ha). rewrite <- Hp0 in Hl, Ha.
  clear Hp0.
  assert (HlA : listener pA = app (world pA)).
  { subst pA. page_compute. change (lapsAccumulatedMs []) with 0.
    cbn [Bool.eqb Z.eqb andb]. page_compute. reflexivity. }
  assert (Hlis : listener p0 = app (world pA)) by (rewrite Hl; exact HlA).
  assert (Happ : exists x y z,
             app (world p0)
             = app (world pA) |> set_prevElapsedRef x |> set_elapsed x |> set_rangeEnd y
                 |> set_prevRangeDurRef z |> set_displayRangeDuration z).
  { destruct Ha as [-> | (x & y & z & _ & ->)].
    - do 3 eexists. subst pA. page_compute. reflexivity.
    - exists x, y, z. reflexivity. }
  destruct Happ as (x & y & z & Happ).
  subst by_key by_button p1.
  destruct p0 as [[a0 s0] l0]. cbn [world listener app] in Hlis, Happ |- *.
  clear Hl Ha HlA. subst l0 a0. subst pA. page_compute.
  change (lapsAccumulatedMs []) with 0. cbn [Bool.eqb Z.eqb andb]. page_compute.
  cbn [Datatypes.app map targetMinutes].
  repeat split. intros Hne. exact Hne.
Qed.

(** 60 is entered and the timer started; half a minute later 30 is
    entered; the L key at one minute locks 60 for lap 2 while 30 is
    pending. *)
Lemma key_cut_locks_registration_target_witness :
  let p := page_step (KeyDown KeyL false 60000 true) 60000
             (page_step (Button (EvPreset [51; 48]%N (Some (Finite (30 # 1))))) 30000
                (page_run ((Button (EvPreset [54; 48]%N (Some (Finite (60 # 1)))), 0)
                             :: (Button (EvStart 1000), 1000) :: ticks [30000])
                   (fresh_page empty_storage))) in
  activeTargetMinutesRef (app (world p)) = Some (Num 60) /\
  currentTargetMinutes (app (world p)) = Some (Num 30) /\
  activeTargetMinutesRef (app (world p)) <> currentTargetMinutes (app (world p)).
Proof.
  pose proof (key_cut_locks_registration_target empty_storage [54; 48]%N [51; 48]%N
                (Some (Finite (60 # 1))) (Some (Finite (30 # 1)))
                0 1000 1000 [30000] 30000 60000 60000 true)
    as (_ & (_ & Hlock & Hpending) & _ & Hdiffer).
  cbv zeta in Hlock, Hpending, Hdiffer |- *.
  split; [rewrite Hlock; vm_compute; reflexivity |].
  split; [rewrite Hpending; vm_compute; reflexivity |].
  apply Hdiffer. vm_compute. discriminate.
Defined.

(** ** A v4 payload with a null entry *)

(** C8, at a [segments] list that holds a [null]. The filter of line 243
    reads [s.start] before it tests its type; on [null] that read throws,
    the inner [catch] takes over and the whole migration is abandoned:
    whatever segments with numeric ends the list holds besides, the load
    changes nothing but the counter. No lap is migrated and no anchor is
    set. *)
Theorem v4_migration_abandoned_on_null_entry :
  forall (a : App) (s : Storage) (legacy : json) (segments : list json),
    0 < stored_left s ->
    state_v6 s = None -> state_v5 s = None -> state_v4 s = Some (Doc legacy) ->
    get "segments" legacy = Some (JArr segments) ->
    In JNull segments ->
    let w' := restore {| app := a; store := s |} in
    app w' = set_reloadsLeft (stored_left s - 1) a /\
    laps (app w') = laps a /\
    sessionStartTsRef (app w') = sessionStartTsRef a /\
    reloads_left_v6 (store w') = Some (toString (stored_left s - 1)).
Proof.
  intros a s legacy segments Hleft H6 H5 H4 Hseg Hnull w'.
  assert (Hex : existsb is_null segments = true).
  { apply existsb_exists. exists JNull. split; [exact Hnull | reflexivity]. }
  assert (Hm : forall a0 : App, migrate_v4 legacy a0 = a0).
  { intros a0. unfold migrate_v4, migrate_segments.
    destruct legacy; try discriminate Hseg.
    cbn [json_truthy]. rewrite Hseg, Hex. reflexivity. }
  assert (Hw : w' = {| app := set_reloadsLeft (stored_left s - 1) a;
                       store := set_reloads_left_v6 (Some (toString (stored_left s - 1))) s |}).
  { subst w'. unfold restore. cbn [app store].
    assert (Hltb : (0 <? stored_left s) = true) by (apply Z.ltb_lt; exact Hleft).
    rewrite Hltb. unfold restore_snapshot. rewrite H6, H5, H4, Hm.
    replace (Z.max 0 (stored_left s - 1)) with (stored_left s - 1) by lia.
    destruct a. reflexivity. }
  rewrite Hw. cbn [app store]. destruct a. repeat split.
Qed.

(** The list [[null, {start: 1000, end: 4000}]]: the second entry has
    numeric ends, yet the ledger stays empty and the load is counted. *)
Lemma v4_migration_abandoned_on_null_entry_witness :
  let a' := app (restore {| app := initial_app; store := v4_storage_null_entry |}) in
  map lap_of_segment
    (filter numeric_ends [JNull; JObj [("start", JNum 1000); ("end", JNum 4000)]%string])
  = [ {| startTs := 1000; endTs := 4000; durationMs := 3000; targetMinutes := None |} ] /\
  laps a' = [] /\ sessionStartTsRef a' = None /\ baseElapsed a' = 0 /\
  reloadsLeft a' = 1.
Proof.
  pose proof (v4_migration_abandoned_on_null_entry initial_app v4_storage_null_entry
                (JObj
         [("segments", JArr [JNull; JObj [("start", JNum 1000); ("end", JNum 4000)]]);
          ("baseElapsed", JNum 3000)]%string)
                _
                ltac:(vm_compute; reflexivity) eq_refl eq_refl eq_refl eq_refl
                ltac:(left; reflexivity))
    as (Happ & Hlaps & Hsess & _).
  cbv zeta in Happ, Hlaps, Hsess |- *.
  split; [vm_compute; reflexivity |].
  split; [rewrite Hlaps; reflexivity |].
  split; [rewrite Hsess; reflexivity |].
  rewrite Happ. split; vm_compute; reflexivity.
Defined.

(** ** The export text, line by line *)

Lemma split_lf_line (s : string) : count_lf s = O -> split_lf s = [s].
Proof.
  induction s as [| c s IH]; cbn [count_lf split_lf]; [reflexivity |].
  destruct (Ascii.eqb c "010"); [discriminate |].
  intros H. rewrite IH by exact H. reflexivity.
Qed.

Lemma split_lf_app (s rest : string) :
  count_lf s = O -> split_lf (s ++ newline ++ rest) = s :: split_lf rest.
Proof.
  induction s as [| c s IH]; cbn [count_lf split_lf String.append]; [reflexivity |].
  destruct (Ascii.eqb c "010"); [discriminate |].
  intros H. rewrite IH by exact H. reflexivity.
Qed.

Lemma split_lf_join (lines : list string) :
  lines <> [] -> Forall (fun l => count_lf l = O) lines ->
  split_lf (join_lines lines) = lines.
Proof.
  unfold join_lines. intros Hne Hall.
  induction Hall as [| l ls Hl Hls IH]; [congruence |].
  cbn [String.concat]. destruct ls as [| l' ls']; [apply split_lf_line; exact Hl |].
  rewrite split_lf_app by exact Hl. rewrite IH by discriminate. reflexivity.
Qed.

Lemma all_digits_uint (u : Decimal.uint) : all_digits (NilEmpty.string_of_uint u) = true.
Proof. induction u; cbn [NilEmpty.string_of_uint all_digits]; [reflexivity | exact IHu ..]. Qed.

Lemma nzhead_no_leading_zero (u : Decimal.uint) :
  forall u' : Decimal.uint, Decimal.nzhead u <> Decimal.D0 u'.
Proof. induction u; intros u'; cbn [Decimal.nzhead]; try discriminate. apply IHu. Qed.

Lemma to_uint_no_leading_zero (p : positive) (u : Decimal.uint) :
  Pos.to_uint p <> Decimal.D0 u.
Proof.
  intros E.
  pose proof (DecimalPos.Unsigned.to_of (Pos.to_uint p)) as H.
  rewrite DecimalPos.Unsigned.of_to in H. cbn [N.to_uint] in H.
  rewrite E in H at 2. unfold Decimal.unorm in H. cbn [Decimal.nzhead] in H.
  destruct (Decimal.nzhead u) eqn:Hz.
  - rewrite E in H. injection H as ->.
    apply (DecimalPos.Unsigned.to_uint_nonzero p). exact E.
  - rewrite E in H. injection H as H. subst. apply (nzhead_no_leading_zero _ _ Hz).
  - rewrite E in H. discriminate.
  - rewrite E in H. discriminate.
  - rewrite E in H. discriminate.
  - rewrite E in H. discriminate.
  - rewrite E in H. discriminate.
  - rewrite E in H. discriminate.
  - rewrite E in H. discriminate.
  - rewrite E in H. discriminate.
  - rewrite E in H. discriminate.
Qed.

Lemma toString_positive (p : positive) :
  toString (Z.pos p) = NilEmpty.string_of_uint (Pos.to_uint p).
Proof.
  unfold toString, Z.to_int, NilZero.string_of_int, NilZero.string_of_uint.
  pose proof (DecimalPos.Unsigned.to_uint_nonnil p) as Hnil.
  destruct (Pos.to_uint p); [congruence | reflexivity ..].
Qed.

Lemma numeral_of_toString (z : Z) : 0 <= z -> numeral_of z (toString z).
Proof.
  intros Hz. destruct z as [| p | p]; [| | lia].
  - split; [reflexivity |]. split; [reflexivity |].
    intros rest H. injection H as <-. reflexivity.
  - rewrite toString_positive.
    split; [apply all_digits_uint |]. split; [apply parse_digits_positive |].
    intros rest H. exfalso.
    destruct (Pos.to_uint p) as [| u | u | u | u | u | u | u | u | u | u] eqn:Eu;
      try discriminate H.
    exact (to_uint_no_leading_zero p u Eu).
Qed.

Lemma two_digits_of_padStart2 (z : Z) (str : string) :
  numeral_of z str -> two_digits_of z (padStart2 str).
Proof.
  intros (Hd & Hp & Hz). unfold padStart2, two_digits_of.
  destruct str as [| c [| c' r]]; cbn [String.length].
  - discriminate Hp.
  - cbn [all_digits parse_digits] in Hd, Hp.
    cbn [String.append all_digits parse_digits String.length].
    change (digit_value "0") with (Some 0). cbv iota.
    destruct (digit_value c) as [d |]; [| discriminate Hd].
    split; [reflexivity |]. split; [rewrite <- Hp; reflexivity |].
    split; [lia |].
    intros rest H. injection H as <-. reflexivity.
  - repeat split; try assumption.
    + cbn [String.length]. lia.
    + intros rest H. pose proof (Hz _ H) as Hr. subst rest. discriminate H.
Qed.

Lemma nearest_minute_round (d : Z) : nearest_minute d (round_minutes d).
Proof.
  unfold nearest_minute, round_minutes.
  pose proof (Z.div_mod (d + 30000) 60000 ltac:(lia)) as H.
  pose proof (Z.mod_pos_bound (d + 30000) 60000 ltac:(lia)) as Hb. lia.
Qed.

Lemma round_minutes_nonneg (d : Z) : 0 <= d -> 0 <= round_minutes d.
Proof. intros H. unfold round_minutes. apply Z.div_pos; lia. Qed.

Lemma are_lap_lines_spec (fmtRange : Z -> string) (ls : list Lap) :
  Forall (fun l => 0 <= durationMs l) ls ->
  forall n : Z, 0 <= n -> are_lap_lines fmtRange n ls (spec_lap_lines fmtRange n ls).
Proof.
  induction 1 as [| l ls Hl Hls IH]; intros n Hn; cbn [spec_lap_lines are_lap_lines];
    [exact I |].
  split; [| apply IH; lia].
  exists (toString n), (toString (round_minutes (durationMs l))), (round_minutes (durationMs l)).
  split; [reflexivity |].
  split; [apply numeral_of_toString; exact Hn |].
  split; [apply numeral_of_toString, round_minutes_nonneg; exact Hl |].
  apply nearest_minute_round.
Qed.

Lemma string_append_assoc (s1 s2 s3 : string) :
  ((s1 ++ s2) ++ s3 = s1 ++ (s2 ++ s3))%string.
Proof. induction s1 as [| c s1 IH]; cbn [String.append]; [| rewrite IH]; reflexivity. Qed.

Lemma is_total_line_spec (fmtRange : Z -> string) (s e d : Z) :
  0 <= d ->
  is_total_line fmtRange s e d
    ("總時長：" ++ fmtRange s ++ "~" ++ fmtRange e ++ "（共 " ++ fmtHMS d ++ "）")%string.
Proof.
  intros Hd. unfold fmtHMS, msToHMS. cbn [hh mm ss]. unfold js_rem.
  assert (HT : 0 <= d / 1000) by (apply Z.div_pos; lia).
  rewrite !Z.rem_mod_nonneg by lia.
  exists (padStart2 (toString (d / 1000 / 3600))),
         (padStart2 (toString ((d / 1000) mod 3600 / 60))),
         (padStart2 (toString ((d / 1000) mod 60))),
         (d / 1000 / 3600), ((d / 1000) mod 3600 / 60), ((d / 1000) mod 60).
  split; [rewrite !string_append_assoc; reflexivity |].
  split; [apply two_digits_of_padStart2, numeral_of_toString;
          Z.to_euclidean_division_equations; lia |].
  split; [apply two_digits_of_padStart2, numeral_of_toString;
          Z.to_euclidean_division_equations; lia |].
  split; [apply two_digits_of_padStart2, numeral_of_toString;
          Z.to_euclidean_division_equations; lia |].
  Z.to_euclidean_division_equations; lia.
Qed.



(** ** Pausing with the space bar *)

(** X22. A pause with the space bar. The listener that handles the key
    is the one registered when the timer was started, so its [handlePause]
    takes as the displayed elapsed time the one of that render,
    [max(0, r0 - t0)], and not what the display has reached since. With the
    updater of [setBaseElapsed] run at the next render, where the start of
    the run has been cleared, the base becomes that old value: the display
    holds (its guard keeps it), but the time run since the start is not in
    the base, and after a resume the display stands still until the new
    run has made up for it. The pause button stores the displayed elapsed
    time. *)
Theorem key_pause_keeps_registration_elapsed :
  forall (s : Storage) (t0 r0 : Z) (clock : list Z) (now r n2 r2 t : Z),
    let p0 := page_run ((Button (EvStart t0), r0) :: ticks clock) (fresh_page s) in
    let by_key := page_step (KeyDown KeySpace false now false) r p0 in
    let by_button := page_step (Button (EvPause now false)) r p0 in
    let resumed := page_run [(Button (EvStart n2), r2); (Button EvTick, t)] by_key in
    (isRunning (app (world by_key)) = false /\
     baseElapsed (app (world by_key)) = Z.max 0 (r0 - t0) /\
     elapsed (app (world by_key)) = elapsed (app (world p0))) /\
    (isRunning (app (world by_button)) = false /\
     baseElapsed (app (world by_button)) = elapsed (app (world p0)) /\
     elapsed (app (world by_button)) = elapsed (app (world p0))) /\
    elapsed (app (world resumed))
    = Z.max (Z.max (elapsed (app (world p0))) (Z.max 0 (r0 - t0) + (r2 - n2)))
        (Z.max 0 (r0 - t0) + (t - n2)) /\
    Z.max 0 (r0 - t0) <= elapsed (app (world p0)).
Proof.
  intros s t0 r0 clock now r n2 r2 t p0 by_key by_button resumed.
  pose (p1 := page_step (Button (EvStart t0)) r0 (fresh_page s)).
  assert (Hp0 : p0 = page_run (ticks clock) p1) by apply page_run_cons.
  clearbody p0.
  destruct (ticks_page clock p1) as (Hl & _ & Ha). rewrite <- Hp0 in Hl, Ha.
  clear Hp0.
  assert (Hl1 : listener p1 = app (world p1)) by (subst p1; page_compute; reflexivity).
  assert (Hlis : listener p0 = app (world p1)) by (rewrite Hl; exact Hl1).
  assert (Happ : exists x y z,
             Z.max 0 (r0 - t0) <= x /\
             app (world p0)
             = app (world p1) |> set_prevElapsedRef x |> set_elapsed x |> set_rangeEnd y
                 |> set_prevRangeDurRef z |> set_displayRangeDuration z).
  { destruct Ha as [-> | (x & y & z & Hx & ->)].
    - do 3 eexists. split; [| subst p1; page_compute; reflexivity].
      subst p1. page_compute. unfold rawElapsed. page_compute. lia.
    - exists x, y, z. split; [| reflexivity].
      revert Hx. subst p1. page_compute. unfold rawElapsed. page_compute. lia. }
  destruct Happ as (x & y & z & Hx & Happ).
  subst resumed by_key by_button. unfold page_run. cbn [fold_left fst snd].
  destruct p0 as [[a0 s0] l0]. cbn [world listener app] in Hlis, Happ |- *.
  clear Hl Ha Hl1. subst l0 a0. subst p1. page_compute.
  unfold rawElapsed. page_compute. unfold rawElapsed. page_compute.
  split; [split; [reflexivity |]; split; lia |].
  split; [split; [reflexivity |]; split; lia |].
  split; lia.
Qed.

(** Run 3 s, pause with the space bar, resume 5 s later, run 2 s: the
    display still reads 3 s, where the pause button gives 5 s. *)
Lemma key_pause_keeps_registration_elapsed_witness :
  let p0 := page_run ((Button (EvStart 0), 0) :: ticks [1000; 3000])
              (fresh_page empty_storage) in
  baseElapsed (app (world (page_step (KeyDown KeySpace false 3000 false) 3000 p0))) = 0 /\
  elapsed (app (world (page_run [(Button (EvStart 8000), 8000); (Button EvTick, 10000)]
                         (page_step (KeyDown KeySpace false 3000 false) 3000 p0))))
  = 3000 /\
  elapsed (app (world (page_run [(Button (EvStart 8000), 8000); (Button EvTick, 10000)]
                         (page_step (Button (EvPause 3000 false)) 3000 p0))))
  = 5000.
Proof.
  pose proof (key_pause_keeps_registration_elapsed empty_storage 0 0 [1000; 3000]
                3000 3000 8000 8000 10000) as ((_ & Hbase & _) & _ & Hresumed & _).
  cbv zeta in Hbase, Hresumed |- *.
  split; [rewrite Hbase; reflexivity |].
  split; [rewrite Hresumed; vm_compute; reflexivity |].
  vm_compute. reflexivity.
Defined.
